(** * MediChain: the in-process ledger engine (src/blockchain.js) and the
      contract (src/contracts/MediChain.sol), embedded and verified.

    Conventions of the embedding.
    - A JavaScript string is a [string]: the UTF-8 bytes that
      [TextEncoder.encode] would produce from it.
    - A JavaScript number is a [Z]; the engine only produces integers
      (indices, nonces, counters) and prints them in decimal.
    - Values the caller supplies and the engine never inspects are [jsval]s,
      so that a missing property reads as [JUndef] exactly as in the source.
    - [async] functions are run to completion one after the other (the
      single-writer discipline of the engine); the only loop that may not
      terminate, the nonce search, is bounded by a fuel parameter and an
      exhausted search is reported as [Pending]. *)

From Stdlib Require Import ZArith NArith List String Ascii Bool Lia.
From stdpp Require Import base option list gmap strings.

Import ListNotations.
Local Open Scope string_scope.
Local Open Scope list_scope.

(* ===================================================================== *)
(** ** Text helpers *)
(* ===================================================================== *)

Module Text.

(** Decimal digits of a natural number, most significant first; this is
    what [String(n)] and string concatenation with a number produce for a
    non-negative integer. *)
Fixpoint digits_fuel (fuel : nat) (n : N) (acc : string) : string :=
  match fuel with
  | O => acc
  | S fuel' =>
      let d := ascii_of_N (48 + n mod 10) in
      let acc' := String d acc in
      if (n <? 10)%N then acc' else digits_fuel fuel' (n / 10)%N acc'
  end.

Definition of_N (n : N) : string :=
  digits_fuel (S (N.to_nat (N.log2 n))) n "".

Definition of_Z (z : Z) : string :=
  match z with
  | Zneg p => "-" +:+ of_N (Npos p)
  | _ => of_N (Z.to_N z)
  end.

Definition hex_digit (n : N) : ascii :=
  if (n <? 10)%N then ascii_of_N (48 + n) else ascii_of_N (87 + n).

(** Two lower-case hex digits of a byte: [b.toString(16).padStart(2,'0')]. *)
Definition hex_byte (b : N) : string :=
  String (hex_digit (b / 16)) (String (hex_digit (b mod 16)) "").

(** [Array(n + 1).join('0')]: the string of [n] zero characters. *)
Fixpoint zeros (n : nat) : string :=
  match n with
  | O => ""
  | S n' => String "0" (zeros n')
  end.

(** [s.substring(0, n)] for [0 <= n]: the first [n] characters, or all of
    [s] when it is shorter. *)
Fixpoint prefix_of (n : nat) (s : string) : string :=
  match n, s with
  | O, _ => ""
  | _, EmptyString => ""
  | S n', String c s' => String c (prefix_of n' s')
  end.

(** [s.includes(q)]. *)
Fixpoint starts_with (q s : string) : bool :=
  match q, s with
  | EmptyString, _ => true
  | String _ _, EmptyString => false
  | String a q', String b s' => Ascii.eqb a b && starts_with q' s'
  end.

Fixpoint includes (s q : string) : bool :=
  starts_with q s ||
  match s with
  | EmptyString => false
  | String _ s' => includes s' q
  end.

(** The double quote character. *)
Definition dquote : ascii := ascii_of_N 34.

(** [s] with every apostrophe turned into a double quote (to write JSON
    text down). *)
Fixpoint quoted (s : string) : string :=
  match s with
  | EmptyString => ""
  | String c s' =>
      String (if (N_of_ascii c =? 39)%N then dquote else c) (quoted s')
  end.

Definition bytes_of (s : string) : list N :=
  List.map N_of_ascii (list_ascii_of_string s).

End Text.

(* ===================================================================== *)
(** ** The hasher: SHA-256 (FIPS 180-4), as [crypto.subtle.digest] computes it *)
(* ===================================================================== *)

Module SHA256.
Local Open Scope N_scope.

(** Truncation to 32 bits. *)
Definition mask32 : N := 4294967295.
Definition add32 (x y : N) : N := N.land (x + y) mask32.
Definition rotr (n x : N) : N :=
  N.lor (N.shiftr x n) (N.land (N.shiftl x (32 - n)) mask32).
Definition shr (n x : N) : N := N.shiftr x n.
Definition not32 (x : N) : N := N.lxor x mask32.

Definition Ch (x y z : N) := N.lxor (N.land x y) (N.land (not32 x) z).
Definition Maj (x y z : N) :=
  N.lxor (N.lxor (N.land x y) (N.land x z)) (N.land y z).
Definition bsig0 x := N.lxor (N.lxor (rotr 2 x) (rotr 13 x)) (rotr 22 x).
Definition bsig1 x := N.lxor (N.lxor (rotr 6 x) (rotr 11 x)) (rotr 25 x).
Definition ssig0 x := N.lxor (N.lxor (rotr 7 x) (rotr 18 x)) (shr 3 x).
Definition ssig1 x := N.lxor (N.lxor (rotr 17 x) (rotr 19 x)) (shr 10 x).

(** The primes below 312: the first sixty-four. *)
Definition is_prime (n : N) : bool :=
  (1 <? n) &&
  List.forallb (fun d => negb (n mod N.of_nat d =? 0))
    (List.seq 2 (N.to_nat n - 2)).

Definition primes : list N :=
  List.filter is_prime (List.map N.of_nat (List.seq 2 310)).

(** The largest [r] below [2 ^ bits] with [r ^ 3 <= n], bit by bit. *)
Fixpoint cube_root (bits : nat) (n r : N) : N :=
  match bits with
  | O => r
  | S b =>
      let c := r + 2 ^ N.of_nat b in
      if c * c * c <=? n then cube_root b n c else cube_root b n r
  end.

(** The round constants (section 4.2.2): the first thirty-two bits of the
    fractional parts of the cube roots of the first sixty-four primes. *)
Definition K : list N :=
  Eval vm_compute in
    List.map (fun p => N.land (cube_root 36 (p * 2 ^ 96) 0) mask32) primes.

(** The initial hash value (section 5.3.3): the same of the square roots
    of the first eight primes. *)
Definition H0 : list N :=
  Eval vm_compute in
    List.map (fun p => N.land (N.sqrt (p * 2 ^ 64)) mask32) (List.firstn 8 primes).

(** Big-endian bytes of a number on [k] bytes. *)
Fixpoint be_bytes (k : nat) (x : N) : list N :=
  match k with
  | O => []
  | S k' => N.land (N.shiftr x (8 * N.of_nat k')) 255 :: be_bytes k' x
  end.

(** Padding of section 5.1.1: a one bit, zeros up to 56 mod 64 bytes, then
    the bit length on eight bytes. *)
Definition pad (msg : list N) : list N :=
  let len := N.of_nat (List.length msg) in
  let fill := (119 - len mod 64) mod 64 in
  msg ++ 128 :: List.repeat 0 (N.to_nat fill) ++ be_bytes 8 (8 * len).

Fixpoint words (fuel : nat) (bs : list N) : list N :=
  match fuel, bs with
  | S fuel', a :: b :: c :: d :: rest =>
      (a * 16777216 + b * 65536 + c * 256 + d) :: words fuel' rest
  | _, _ => []
  end.

(** The message schedule, kept most recent word first. *)
Fixpoint schedule (n : nat) (rev_w : list N) : list N :=
  match n with
  | O => rev_w
  | S n' =>
      let g i := List.nth i rev_w 0 in
      let wt := add32 (add32 (ssig1 (g 1%nat)) (g 6%nat))
                      (add32 (ssig0 (g 14%nat)) (g 15%nat)) in
      schedule n' (wt :: rev_w)
  end.

Definition round (st : list N) (kw : N * N) : list N :=
  match st with
  | [a; b; c; d; e; f; g; h] =>
      let t1 := add32 (add32 (add32 h (bsig1 e)) (add32 (Ch e f g) (fst kw)))
                      (snd kw) in
      let t2 := add32 (bsig0 a) (Maj a b c) in
      [add32 t1 t2; a; b; c; add32 d t1; e; f; g]
  | _ => st
  end.

Definition compress (h : list N) (block : list N) : list N :=
  let w := List.rev (schedule 48 (List.rev block)) in
  let st := List.fold_left round (List.combine K w) h in
  List.map (fun p => add32 (fst p) (snd p)) (List.combine h st).

Fixpoint blocks (fuel : nat) (ws : list N) (h : list N) : list N :=
  match fuel with
  | O => h
  | S fuel' =>
      match ws with
      | [] => h
      | _ => blocks fuel' (List.skipn 16 ws) (compress h (List.firstn 16 ws))
      end
  end.

Definition digest (msg : list N) : list N :=
  let p := pad msg in
  let ws := words (List.length p) p in
  let h := blocks (List.length ws) ws H0 in
  List.concat (List.map (be_bytes 4) h).

End SHA256.

(** [sha256(message)] of the source: UTF-8 encode, digest, two lower-case hex
    digits per byte. *)
Definition sha256 (message : string) : string :=
  String.concat "" (List.map Text.hex_byte (SHA256.digest (Text.bytes_of message))).

(* ===================================================================== *)
(** ** JavaScript values *)
(* ===================================================================== *)

(** The values the engine passes around without looking inside: what the
    caller puts in [medicineData], block payloads, transaction payloads.
    An object is the list of its own properties in insertion order. *)
Unset Elimination Schemes.
Inductive jsval : Type :=
| JUndef
| JNull
| JBool (b : bool)
| JNum (z : Z)
| JStr (s : string)
| JArr (l : list jsval)
| JObj (o : list (string * jsval)).
Set Elimination Schemes.

Definition props := list (string * jsval).

Section jsval_induction.
Variable P : jsval -> Prop.
Hypothesis Hundef : P JUndef.
Hypothesis Hnull : P JNull.
Hypothesis Hbool : forall b, P (JBool b).
Hypothesis Hnum : forall z, P (JNum z).
Hypothesis Hstr : forall s, P (JStr s).
Hypothesis Harr : forall l, Forall P l -> P (JArr l).
Hypothesis Hobj : forall o, Forall (fun kv => P (snd kv)) o -> P (JObj o).

Fixpoint jsval_ind (v : jsval) : P v :=
  match v with
  | JUndef => Hundef
  | JNull => Hnull
  | JBool b => Hbool b
  | JNum z => Hnum z
  | JStr s => Hstr s
  | JArr l =>
      Harr l ((fix go (l : list jsval) : Forall P l :=
                 match l with
                 | [] => @List.Forall_nil _ P
                 | x :: l' => @List.Forall_cons _ P x l' (jsval_ind x) (go l')
                 end) l)
  | JObj o =>
      Hobj o ((fix go (o : props) : Forall (fun kv => P (snd kv)) o :=
                 match o with
                 | [] => @List.Forall_nil _ (fun kv => P (snd kv))
                 | kv :: o' =>
                     @List.Forall_cons _ (fun kv => P (snd kv)) kv o'
                       (jsval_ind (snd kv)) (go o')
                 end) o)
  end.
End jsval_induction.

(** Structural equality; on primitives this is the [SameValueZero] comparison
    a [Map] uses for its keys and the [===] of the source. *)
Fixpoint jsval_eqb (x y : jsval) : bool :=
  match x, y with
  | JUndef, JUndef => true
  | JNull, JNull => true
  | JBool a, JBool b => Bool.eqb a b
  | JNum a, JNum b => Z.eqb a b
  | JStr a, JStr b => String.eqb a b
  | JArr l, JArr l' =>
      (fix go (l l' : list jsval) : bool :=
         match l, l' with
         | [], [] => true
         | a :: l, b :: l' => jsval_eqb a b && go l l'
         | _, _ => false
         end) l l'
  | JObj o, JObj o' =>
      (fix go (o o' : props) : bool :=
         match o, o' with
         | [], [] => true
         | (k, a) :: o, (k', b) :: o' =>
             String.eqb k k' && jsval_eqb a b && go o o'
         | _, _ => false
         end) o o'
  | _, _ => false
  end.

(** [ToBoolean]: what [a || b] and [a && b] test. *)
Definition truthy (v : jsval) : bool :=
  match v with
  | JUndef | JNull => false
  | JBool b => b
  | JNum z => negb (Z.eqb z 0)
  | JStr s => negb (String.eqb s "")
  | JArr _ | JObj _ => true
  end.

(** [a || b] on values. *)
Definition js_or (a b : jsval) : jsval := if truthy a then a else b.

(** [ToString], as a template literal applies it. *)
Fixpoint ToString (v : jsval) : string :=
  match v with
  | JUndef => "undefined"
  | JNull => "null"
  | JBool true => "true"
  | JBool false => "false"
  | JNum z => Text.of_Z z
  | JStr s => s
  | JArr l =>
      String.concat ","
        (List.map (fun x => match x with
                            | JUndef | JNull => ""
                            | _ => ToString x
                            end) l)
  | JObj _ => "[object Object]"
  end.

(** Property read [o.k]: the value of the own property, [undefined] when
    there is none. *)
Fixpoint obj_get (k : string) (o : props) : jsval :=
  match o with
  | [] => JUndef
  | (k', v) :: o' => if String.eqb k k' then v else obj_get k o'
  end.

Fixpoint obj_has (k : string) (o : props) : bool :=
  match o with
  | [] => false
  | (k', _) :: o' => String.eqb k k' || obj_has k o'
  end.

(** Property write [o.k = v]: in place when the property exists, appended
    otherwise. *)
Fixpoint obj_set (k : string) (v : jsval) (o : props) : props :=
  match o with
  | [] => [(k, v)]
  | (k', v') :: o' =>
      if String.eqb k k' then (k', v) :: o' else (k', v') :: obj_set k v o'
  end.

(* ===================================================================== *)
(** ** JSON.stringify *)
(* ===================================================================== *)

Module JSON.

Definition hex4 (n : N) : string :=
  String (Text.hex_digit (n / 4096 mod 16))
    (String (Text.hex_digit (n / 256 mod 16))
       (String (Text.hex_digit (n / 16 mod 16))
          (String (Text.hex_digit (n mod 16)) ""))).

(** One character of [QuoteJSONString]. *)
Definition escape (c : ascii) : string :=
  let n := N_of_ascii c in
  if (n =? 34)%N then String "\" (String Text.dquote "")
  else if (n =? 92)%N then "\\"
  else if (n =? 8)%N then "\b"
  else if (n =? 9)%N then "\t"
  else if (n =? 10)%N then "\n"
  else if (n =? 12)%N then "\f"
  else if (n =? 13)%N then "\r"
  else if (n <? 32)%N then "\u" +:+ hex4 n
  else String c "".

Fixpoint escape_all (s : string) : string :=
  match s with
  | EmptyString => ""
  | String c s' => escape c +:+ escape_all s'
  end.

Definition quote (s : string) : string :=
  String Text.dquote (escape_all s +:+ String Text.dquote "").

(** [JSON.stringify(v)]; [None] is the [undefined] it returns for
    [undefined]. Inside an array [undefined] is written [null]; a property
    whose value is [undefined] is left out. *)
Fixpoint stringify (v : jsval) : option string :=
  match v with
  | JUndef => None
  | JNull => Some "null"
  | JBool true => Some "true"
  | JBool false => Some "false"
  | JNum z => Some (Text.of_Z z)
  | JStr s => Some (quote s)
  | JArr l =>
      Some ("[" +:+
            String.concat ","
              (List.map (fun x => match stringify x with
                                  | Some t => t
                                  | None => "null"
                                  end) l)
            +:+ "]")
  | JObj o =>
      Some ("{" +:+
            String.concat ","
              ((fix members (o : props) : list string :=
                  match o with
                  | [] => []
                  | (k, x) :: o' =>
                      match stringify x with
                      | Some t => (quote k +:+ ":" +:+ t) :: members o'
                      | None => members o'
                      end
                  end) o)
            +:+ "}")
  end.

(** [JSON.stringify(v)] used as an operand of string [+]. *)
Definition stringify_str (v : jsval) : string :=
  match stringify v with
  | Some t => t
  | None => "undefined"
  end.

End JSON.

(* ===================================================================== *)
(** ** Time: [Date.prototype.toISOString] *)
(* ===================================================================== *)

Module Time.
Local Open Scope Z_scope.

Definition pad_left (k : nat) (s : string) : string :=
  Text.zeros (k - String.length s) +:+ s.

Definition pad_num (k : nat) (z : Z) : string :=
  pad_left k (Text.of_N (Z.to_N z)).

(** Year, month and day of a day count since 1970-01-01 (proleptic
    Gregorian calendar). *)
Definition civil (days : Z) : Z * Z * Z :=
  let z := days + 719468 in
  let era := z / 146097 in
  let doe := z - era * 146097 in
  let yoe := (doe - doe / 1460 + doe / 36524 - doe / 146096) / 365 in
  let doy := doe - (365 * yoe + yoe / 4 - yoe / 100) in
  let mp := (5 * doy + 2) / 153 in
  let d := doy - (153 * mp + 2) / 5 + 1 in
  let m := if mp <? 10 then mp + 3 else mp - 9 in
  let y := yoe + era * 400 + (if m <=? 2 then 1 else 0) in
  (y, m, d).

Definition year_text (y : Z) : string :=
  if (0 <=? y) && (y <=? 9999) then pad_num 4 y
  else if y <? 0 then "-" +:+ pad_num 6 (- y)
  else "+" +:+ pad_num 6 y.

(** [new Date(ms).toISOString()]. *)
Definition toISOString (ms : Z) : string :=
  let day := 86400000 in
  let '(y, m, d) := civil (ms / day) in
  let r := ms mod day in
  year_text y +:+ "-" +:+ pad_num 2 m +:+ "-" +:+ pad_num 2 d +:+ "T" +:+
  pad_num 2 (r / 3600000) +:+ ":" +:+ pad_num 2 (r / 60000 mod 60) +:+ ":" +:+
  pad_num 2 (r / 1000 mod 60) +:+ "." +:+ pad_num 3 (r mod 1000) +:+ "Z".

End Time.

(* ===================================================================== *)
(** ** Block *)
(* ===================================================================== *)

Record Block : Type := mkBlock {
  b_index : N;
  b_timestamp : string;
  b_data : jsval;
  b_previousHash : string;
  b_hash : string;
  b_nonce : N
}.

(** [new Block(index, timestamp, data, previousHash)]. *)
Definition new_Block (index : N) (timestamp : string) (data : jsval)
    (previousHash : string) : Block :=
  mkBlock index timestamp data previousHash "" 0.

Definition set_nonce (n : N) (b : Block) : Block :=
  mkBlock (b_index b) (b_timestamp b) (b_data b) (b_previousHash b) (b_hash b) n.

Definition set_hash (h : string) (b : Block) : Block :=
  mkBlock (b_index b) (b_timestamp b) (b_data b) (b_previousHash b) h (b_nonce b).

(** [calculateHash()]: the digest of index, previousHash, timestamp, the JSON
    text of the payload and the nonce, concatenated. *)
Definition calculateHash (b : Block) : string :=
  sha256 (Text.of_N (b_index b) +:+ b_previousHash b +:+ b_timestamp b +:+
          JSON.stringify_str (b_data b) +:+ Text.of_N (b_nonce b)).

(** The loop test of [mineBlock], negated:
    [hash.substring(0, difficulty) === target]. *)
Definition meets (difficulty : nat) (h : string) : bool :=
  String.eqb (Text.prefix_of difficulty h) (Text.zeros difficulty).

(** [mineBlock(difficulty)]: while the stored hash misses the target,
    increment the nonce and recompute the hash. [fuel] bounds the number of
    iterations; [None] means the loop is still running after that many. *)
Fixpoint mineBlock (fuel : nat) (difficulty : nat) (b : Block) : option Block :=
  if meets difficulty (b_hash b) then Some b
  else
    match fuel with
    | O => None
    | S fuel' =>
        let b1 := set_nonce (b_nonce b + 1) b in
        mineBlock fuel' difficulty (set_hash (calculateHash b1) b1)
    end.

(** The digest the block would have with nonce [n]. *)
Definition digest_at (b : Block) (n : N) : string :=
  calculateHash (set_nonce n b).

(** [b'] carries the least nonce not below [start] whose digest meets the
    difficulty. *)
Definition least_nonce_from (start : N) (difficulty : nat) (b b' : Block) : Prop :=
  (start <= b_nonce b')%N /\
  meets difficulty (digest_at b (b_nonce b')) = true /\
  forall m, (start <= m < b_nonce b')%N -> meets difficulty (digest_at b m) = false.

(** The block the search leaves when it stops at nonce [n]. *)
Definition mined_at (b : Block) (n : N) : Block :=
  set_hash (digest_at b n) (set_nonce n b).

(* ===================================================================== *)
(** ** The ledger engine of src/blockchain.js: data *)
(* ===================================================================== *)

(** [class Transaction]. [tx_blockNumber] is [None] while it is [null]. *)
Record Transaction : Type := mkTransaction {
  tx_id : string;
  tx_type : string;
  tx_data : jsval;
  tx_from : jsval;
  tx_to : jsval;
  tx_timestamp : string;
  tx_hash : string;
  tx_blockNumber : option N;
  tx_status : string
}.

(** One entry of [medicine.supplyChain]. *)
Record Checkpoint : Type := mkCheckpoint {
  cp_stage : jsval;
  cp_actor : jsval;
  cp_location : jsval;
  cp_timestamp : string;
  cp_txHash : string
}.

(** One entry of [medicine.verifications]. *)
Record VerificationEntry : Type := mkVerificationEntry {
  ve_timestamp : string;
  ve_result : string
}.

(** The property names the engine itself sets on a medicine record. *)
Definition engine_keys : list string :=
  ["registeredAt"; "status"; "scanCount"; "supplyChain"; "verifications";
   "blockHash"; "blockNumber"].

Definition is_engine_key (k : string) : bool :=
  List.existsb (String.eqb k) engine_keys.

(** A medicine record: the properties spread from the caller's
    [medicineData] ([m_fields], read with [obj_get], [JUndef] when missing),
    then the properties the engine sets. A property of [medicineData] that
    carries one of the engine's own names is overwritten by the engine's
    value in the source, so [m_fields] holds the others only. *)
Record Medicine : Type := mkMedicine {
  m_fields : props;
  m_registeredAt : string;
  m_status : string;
  m_scanCount : N;
  m_supplyChain : list Checkpoint;
  m_verifications : list VerificationEntry;
  m_blockHash : option string;
  m_blockNumber : option N
}.

(** Property read [medicine.k] for a property the caller supplied. *)
Definition m_get (k : string) (m : Medicine) : jsval := obj_get k (m_fields m).

(** The alert object built by [createAlert]. *)
Record Alert : Type := mkAlert {
  al_id : string;
  al_batchNumber : jsval;
  al_reason : jsval;
  al_timestamp : string;
  al_severity : string;
  al_status : string
}.

(** One entry of the [checks] list of [verifyMedicine]. *)
Record Check : Type := mkCheck {
  ck_name : string;
  ck_passed : bool;
  ck_detail : string
}.

(** The object [verifyMedicine] returns. [vr_medicine = None] is [null]. *)
Record VerifyResult : Type := mkVerifyResult {
  vr_isAuthentic : bool;
  vr_checks : list Check;
  vr_medicine : option Medicine;
  vr_batchNumber : jsval
}.

(** A JavaScript [Map] with primitive keys: entries in insertion order. *)
Module JsMap.
Section ops.
Context {V : Type}.

Fixpoint get (k : jsval) (m : list (jsval * V)) : option V :=
  match m with
  | [] => None
  | (k', v) :: m' => if jsval_eqb k k' then Some v else get k m'
  end.

Fixpoint has (k : jsval) (m : list (jsval * V)) : bool :=
  match m with
  | [] => false
  | (k', _) :: m' => jsval_eqb k k' || has k m'
  end.

(** [set] replaces the value in place when the key is there and appends
    a new entry otherwise. *)
Fixpoint set (k : jsval) (v : V) (m : list (jsval * V)) : list (jsval * V) :=
  match m with
  | [] => [(k, v)]
  | (k', v') :: m' =>
      if jsval_eqb k k' then (k', v) :: m' else (k', v') :: set k v m'
  end.

(** [new Map(entries)]. *)
Definition of_entries (l : list (jsval * V)) : list (jsval * V) :=
  List.fold_left (fun m kv => set (fst kv) (snd kv) m) l [].
End ops.
End JsMap.

(** [class MediChainBlockchain]: the fields of the engine. The listener
    registry is left out: listeners are the dashboard's, they receive the
    events after the state change and are taken not to reach back into the
    engine. *)
Record Engine : Type := mkEngine {
  chain : list Block;
  pendingTransactions : list Transaction;
  medicines : list (jsval * Medicine);
  transactions : list Transaction;
  alerts : list Alert;
  scanHistory : list jsval;
  difficulty : nat
}.

(** [new MediChainBlockchain()]. *)
Definition new_Engine : Engine := mkEngine [] [] [] [] [] [] 2.

Definition with_chain (c : list Block) (e : Engine) : Engine :=
  mkEngine c (pendingTransactions e) (medicines e) (transactions e) (alerts e)
    (scanHistory e) (difficulty e).
Definition with_medicines (m : list (jsval * Medicine)) (e : Engine) : Engine :=
  mkEngine (chain e) (pendingTransactions e) m (transactions e) (alerts e)
    (scanHistory e) (difficulty e).
Definition with_transactions (t : list Transaction) (e : Engine) : Engine :=
  mkEngine (chain e) (pendingTransactions e) (medicines e) t (alerts e)
    (scanHistory e) (difficulty e).
Definition with_alerts (a : list Alert) (e : Engine) : Engine :=
  mkEngine (chain e) (pendingTransactions e) (medicines e) (transactions e) a
    (scanHistory e) (difficulty e).
Definition with_scanHistory (h : list jsval) (e : Engine) : Engine :=
  mkEngine (chain e) (pendingTransactions e) (medicines e) (transactions e)
    (alerts e) h (difficulty e).

(* ===================================================================== *)
(** ** What is written to localStorage *)
(* ===================================================================== *)

Definition num (n : N) : jsval := JNum (Z.of_N n).

Definition Block_json (b : Block) : jsval :=
  JObj [("index", num (b_index b)); ("timestamp", JStr (b_timestamp b));
        ("data", b_data b); ("previousHash", JStr (b_previousHash b));
        ("hash", JStr (b_hash b)); ("nonce", num (b_nonce b))].

Definition Transaction_json (t : Transaction) : jsval :=
  JObj [("id", JStr (tx_id t)); ("type", JStr (tx_type t)); ("data", tx_data t);
        ("from", tx_from t); ("to", tx_to t); ("timestamp", JStr (tx_timestamp t));
        ("hash", JStr (tx_hash t));
        ("blockNumber", match tx_blockNumber t with
                        | Some n => num n
                        | None => JNull
                        end);
        ("status", JStr (tx_status t))].

Definition Checkpoint_json (c : Checkpoint) : jsval :=
  JObj [("stage", cp_stage c); ("actor", cp_actor c); ("location", cp_location c);
        ("timestamp", JStr (cp_timestamp c)); ("txHash", JStr (cp_txHash c))].

Definition VerificationEntry_json (v : VerificationEntry) : jsval :=
  JObj [("timestamp", JStr (ve_timestamp v)); ("result", JStr (ve_result v))].

Definition opt_prop {A : Type} (k : string) (f : A -> jsval) (x : option A) : props :=
  match x with
  | Some a => [(k, f a)]
  | None => []
  end.

Definition Medicine_json (m : Medicine) : jsval :=
  JObj (m_fields m ++
        [("registeredAt", JStr (m_registeredAt m)); ("status", JStr (m_status m));
         ("scanCount", num (m_scanCount m));
         ("supplyChain", JArr (List.map Checkpoint_json (m_supplyChain m)));
         ("verifications", JArr (List.map VerificationEntry_json (m_verifications m)))]
        ++ opt_prop "blockHash" JStr (m_blockHash m)
        ++ opt_prop "blockNumber" num (m_blockNumber m)).

Definition Alert_json (a : Alert) : jsval :=
  JObj [("id", JStr (al_id a)); ("batchNumber", al_batchNumber a);
        ("reason", al_reason a); ("timestamp", JStr (al_timestamp a));
        ("severity", JStr (al_severity a)); ("status", JStr (al_status a))].

(** The object [save()] serialises. *)
Definition Engine_json (e : Engine) : jsval :=
  JObj [("chain", JArr (List.map Block_json (chain e)));
        ("medicines",
         JArr (List.map (fun kv => JArr [fst kv; Medicine_json (snd kv)]) (medicines e)));
        ("transactions", JArr (List.map Transaction_json (transactions e)));
        ("alerts", JArr (List.map Alert_json (alerts e)));
        ("scanHistory", JArr (scanHistory e))].

(* ===================================================================== *)
(** ** The host and the run-to-completion monad *)
(* ===================================================================== *)

(** What the engine takes from its host: the clock ([Date.now()],
    [new Date()]), the text [Math.random().toString(36).substr(2, 8)] yields,
    [Date.parse] and [String.prototype.toLowerCase]. The [k]-th reading of
    the clock is [clock k]. *)
Record Host : Type := mkHost {
  clock : nat -> Z;
  random36 : nat -> string;
  Date_parse : string -> option Z;
  toLowerCase : string -> string
}.

(** The mutable world of a run: the engine object, the ['medichain_data']
    item of localStorage, and how many readings were taken so far. *)
Record St : Type := mkSt {
  engine : Engine;
  storage : option string;
  clock_reads : nat;
  random_reads : nat
}.

Inductive JsError : Type :=
| Error (message : string)
| TypeError.

(** How a call ends: it returns, it throws (the state is the one reached
    when the exception left the engine), or its nonce search is still
    running when the fuel is spent. [Untyped] is the model's own: the run
    has left what the model describes. The stored document read by
    [initialize] does not have the shape of the engine's records, or holds
    a number with a fraction or an exponent; or, among calls in flight, a
    registration has put a second object under the key of a batch. *)
Inductive Outcome (A : Type) : Type :=
| Ok (a : A) (s : St)
| Throw (e : JsError) (s : St)
| Pending
| Untyped.
Arguments Ok {A} a s.
Arguments Throw {A} e s.
Arguments Pending {A}.
Arguments Untyped {A}.

Definition M (A : Type) : Type := St -> Outcome A.

Definition ret {A : Type} (a : A) : M A := fun s => Ok a s.

Definition bind {A B : Type} (c : M A) (k : A -> M B) : M B :=
  fun s =>
    match c s with
    | Ok a s' => k a s'
    | Throw e s' => Throw e s'
    | Pending => Pending
    | Untyped => Untyped
    end.

Declare Scope engine_scope.
Delimit Scope engine_scope with engine.
Notation "'let*' x := c 'in' k" := (bind c (fun x => k))
  (at level 10, x name, c at level 100, k at level 200) : engine_scope.
Notation "c ;; k" := (bind c (fun _ => k))
  (at level 100, k at level 200, right associativity) : engine_scope.

Definition throw {A : Type} (e : JsError) : M A := fun s => Throw e s.

Definition this : M Engine := fun s => Ok (engine s) s.

Definition update (f : Engine -> Engine) : M unit :=
  fun s => Ok tt (mkSt (f (engine s)) (storage s) (clock_reads s) (random_reads s)).

(* ===================================================================== *)
(** ** The ledger engine of src/blockchain.js: operations *)
(* ===================================================================== *)

Section Engine.
Context (H : Host).
(** Iterations granted to each nonce search. *)
Context (fuel : nat).

Local Open Scope engine_scope.

(** [Date.now()], and the time value of [new Date()]. *)
Definition Date_now : M Z :=
  fun s => Ok (clock H (clock_reads s))
             (mkSt (engine s) (storage s) (S (clock_reads s)) (random_reads s)).

(** [new Date().toISOString()]. *)
Definition now_iso : M string :=
  let* ms := Date_now in ret (Time.toISOString ms).

(** [Math.random().toString(36).substr(2, 8)]. *)
Definition Math_random36 : M string :=
  fun s => Ok (random36 H (random_reads s))
             (mkSt (engine s) (storage s) (clock_reads s) (S (random_reads s))).

(** [new Date(v).getTime()]; [None] is [NaN], the time value of an invalid
    date. *)
Definition Date_value (v : jsval) : option Z :=
  match v with
  | JUndef => None
  | JNull => Some 0%Z
  | JBool b => Some (if b then 1 else 0)%Z
  | JNum n => if (Z.abs n <=? 8640000000000000)%Z then Some n else None
  | JStr s => Date_parse H s
  | JArr _ | JObj _ => Date_parse H (ToString v)
  end.

(** [save()]. *)
Definition save : M unit :=
  fun s => Ok tt (mkSt (engine s)
                       (Some (JSON.stringify_str (Engine_json (engine s))))
                       (clock_reads s) (random_reads s)).

(** [emit(event, data)] with no listener that touches the engine. *)
Definition emit (event : string) : M unit := ret tt.

(** [await newBlock.mineBlock(this.difficulty)]. *)
Definition mine (d : nat) (b : Block) : M Block :=
  fun s => match mineBlock fuel d b with
           | Some b' => Ok b' s
           | None => Pending
           end.

Definition createGenesisBlock : M unit :=
  let* ts := now_iso in
  let genesisBlock :=
    new_Block 0 ts
      (JObj [("type", JStr "genesis"); ("message", JStr "MediChain Genesis Block")])
      "0" in
  let genesisBlock := set_hash (calculateHash genesisBlock) genesisBlock in
  update (fun e => with_chain (chain e ++ [genesisBlock]) e) ;;
  save.

(** [this.chain[this.chain.length - 1]]; [None] is [undefined]. *)
Definition getLatestBlock (e : Engine) : option Block := List.last (List.map Some (chain e)) None.

Definition addBlock (data : jsval) : M Block :=
  let* e := this in
  let latestBlock := getLatestBlock e in
  let* ts := now_iso in
  match latestBlock with
  | None => throw TypeError
  | Some latest =>
      let newBlock := new_Block (N.of_nat (List.length (chain e))) ts data (b_hash latest) in
      let* newBlock := mine (difficulty e) newBlock in
      update (fun e => with_chain (chain e ++ [newBlock]) e) ;;
      save ;;
      emit "blockAdded" ;;
      ret newBlock
  end.

(** [new Transaction(type, data, from, to)]. *)
Definition new_Transaction (type : string) (data from to : jsval) : M Transaction :=
  let* ms := Date_now in
  let* r := Math_random36 in
  let* ts := now_iso in
  ret (mkTransaction ("tx_" +:+ Text.of_Z ms +:+ "_" +:+ r) type data from to ts
         "" None "pending").

(** [generateHash()]. *)
Definition generateHash (t : Transaction) : Transaction :=
  mkTransaction (tx_id t) (tx_type t) (tx_data t) (tx_from t) (tx_to t)
    (tx_timestamp t)
    ("0x" +:+ sha256 (tx_id t +:+ tx_type t +:+ JSON.stringify_str (tx_data t) +:+
                      tx_timestamp t))
    (tx_blockNumber t) (tx_status t).

(** [tx.blockNumber = block.index; tx.status = 'confirmed']. *)
Definition confirm (block : Block) (t : Transaction) : Transaction :=
  mkTransaction (tx_id t) (tx_type t) (tx_data t) (tx_from t) (tx_to t)
    (tx_timestamp t) (tx_hash t) (Some (b_index block)) "confirmed".

Definition push_transaction (t : Transaction) : M unit :=
  update (fun e => with_transactions (transactions e ++ [t]) e).

Definition registerMedicine (medicineData : props)
    : M (Medicine * Transaction * Block) :=
  let batchNumber := obj_get "batchNumber" medicineData in
  let* e := this in
  if JsMap.has batchNumber (medicines e) then
    throw (Error ("Batch " +:+ ToString batchNumber +:+
                  " already registered on blockchain"))
  else
    let* registeredAt := now_iso in
    let* made := now_iso in
    let* tx := new_Transaction "registration"
                 (JObj [("batchNumber", batchNumber);
                        ("medicineName", obj_get "medicineName" medicineData);
                        ("manufacturerId", obj_get "manufacturerId" medicineData)])
                 (obj_get "manufacturerId" medicineData) JNull in
    let tx := generateHash tx in
    let* block := addBlock
                    (JObj [("type", JStr "medicine_registration");
                           ("batchNumber", batchNumber);
                           ("medicineName", obj_get "medicineName" medicineData);
                           ("manufacturerId", obj_get "manufacturerId" medicineData);
                           ("txHash", JStr (tx_hash tx))]) in
    let tx := confirm block tx in
    let medicine :=
      mkMedicine
        (List.filter (fun kv => negb (is_engine_key (fst kv))) medicineData)
        registeredAt "active" 0
        [mkCheckpoint (JStr "Manufactured")
           (js_or (obj_get "manufacturerName" medicineData)
                  (obj_get "manufacturerId" medicineData))
           (JStr "Manufacturing Plant") made (tx_hash tx)]
        []
        (Some (b_hash block)) (Some (b_index block)) in
    update (fun e => with_medicines (JsMap.set batchNumber medicine (medicines e)) e) ;;
    push_transaction tx ;;
    save ;;
    emit "medicineRegistered" ;;
    ret (medicine, tx, block).

Definition createAlert (batchNumber reason : jsval) : M Alert :=
  let* ms := Date_now in
  let* ts := now_iso in
  let alert := mkAlert ("alert_" +:+ Text.of_Z ms) batchNumber reason ts "high" "active" in
  update (fun e => with_alerts (alerts e ++ [alert]) e) ;;
  let* tx := new_Transaction "alert"
               (JObj [("batchNumber", batchNumber); ("reason", reason)])
               (JStr "system") JNull in
  let tx := generateHash tx in
  let* block := addBlock
                  (JObj [("type", JStr "counterfeit_alert");
                         ("batchNumber", batchNumber); ("reason", reason);
                         ("txHash", JStr (tx_hash tx))]) in
  push_transaction (confirm block tx) ;;
  save ;;
  emit "alertCreated" ;;
  ret alert.

(** [expDate > now] on two [Date]s: a comparison of time values, false when
    the left one is [NaN]. *)
Definition date_gt (exp : option Z) (now : Z) : bool :=
  match exp with
  | Some t => (now <? t)%Z
  | None => false
  end.

Definition verdict (isAuthentic : bool) (yes no : string) : string :=
  if isAuthentic then yes else no.

Definition verifyMedicine (batchNumber : jsval) : M VerifyResult :=
  let* e := this in
  (* Check 1: Exists on blockchain *)
  match JsMap.get batchNumber (medicines e) with
  | None =>
      let checks := [mkCheck "Blockchain Record Exists" false "NOT found on blockchain"] in
      createAlert batchNumber (JStr "Medicine not found on blockchain") ;;
      let* tx := new_Transaction "verification"
                   (JObj [("batchNumber", batchNumber); ("result", JStr "COUNTERFEIT");
                          ("reason", JStr "Not found on blockchain")])
                   (JStr "verifier") JNull in
      let tx := generateHash tx in
      let* block := addBlock
                      (JObj [("type", JStr "verification_failed");
                             ("batchNumber", batchNumber);
                             ("txHash", JStr (tx_hash tx))]) in
      push_transaction (confirm block tx) ;;
      let* ts := now_iso in
      update (fun e => with_scanHistory
                (scanHistory e ++
                 [JObj [("batchNumber", batchNumber); ("result", JStr "counterfeit");
                        ("timestamp", JStr ts);
                        ("reason", JStr "Not found on blockchain")]]) e) ;;
      save ;;
      emit "verificationComplete" ;;
      ret (mkVerifyResult false checks None batchNumber)
  | Some medicine =>
      let checks := [mkCheck "Blockchain Record Exists" true "Medicine found on blockchain"] in
      let isAuthentic := true in
      (* Check 2: Batch number matches *)
      let checks := checks ++
        [mkCheck "Batch Number Matches" true ("Batch: " +:+ ToString batchNumber)] in
      (* Check 3: Expiry check *)
      let* now := Date_now in
      let expiryDate := m_get "expiryDate" medicine in
      let notExpired := date_gt (Date_value expiryDate) now in
      let checks := checks ++
        [if notExpired
         then mkCheck "Medicine Not Expired" true ("Expires: " +:+ ToString expiryDate)
         else mkCheck "Medicine Not Expired" false ("EXPIRED on " +:+ ToString expiryDate)] in
      let isAuthentic := isAuthentic && notExpired in
      (* Check 4: Not already sold *)
      let notSold := negb (String.eqb (m_status medicine) "sold") in
      let checks := checks ++
        [if notSold
         then mkCheck "Not Previously Sold" true ("Status: " +:+ m_status medicine)
         else mkCheck "Not Previously Sold" false "Medicine marked as SOLD"] in
      let isAuthentic := isAuthentic && notSold in
      (* Check 5: Supply chain valid *)
      let checkpoints := List.length (m_supplyChain medicine) in
      let checks := checks ++
        [if (0 <? checkpoints)%nat
         then mkCheck "Supply Chain Valid" true
                (Text.of_N (N.of_nat checkpoints) +:+ " checkpoint(s)")
         else mkCheck "Supply Chain Valid" false "No supply chain data"] in
      (* Check 6: Blockchain integrity *)
      let blockOk :=
        match m_blockNumber medicine with
        | Some blockIndex => (blockIndex <? N.of_nat (List.length (chain e)))%N
        | None => false
        end in
      let checks := checks ++
        [match m_blockNumber medicine with
         | Some blockIndex =>
             if blockOk
             then mkCheck "Blockchain Integrity" true
                    ("Block #" +:+ Text.of_N blockIndex +:+ " verified")
             else mkCheck "Blockchain Integrity" false "Block reference invalid"
         | None => mkCheck "Blockchain Integrity" false "Block reference invalid"
         end] in
      let isAuthentic := isAuthentic && blockOk in
      (* Update medicine scan count *)
      let* seen := now_iso in
      let medicine :=
        mkMedicine (m_fields medicine) (m_registeredAt medicine) (m_status medicine)
          (m_scanCount medicine + 1) (m_supplyChain medicine)
          (m_verifications medicine ++
           [mkVerificationEntry seen (verdict isAuthentic "authentic" "suspicious")])
          (m_blockHash medicine) (m_blockNumber medicine) in
      update (fun e => with_medicines (JsMap.set batchNumber medicine (medicines e)) e) ;;
      (* Create transaction *)
      let* tx := new_Transaction "verification"
                   (JObj [("batchNumber", batchNumber);
                          ("medicineName", m_get "medicineName" medicine);
                          ("result", JStr (verdict isAuthentic "AUTHENTIC" "SUSPICIOUS"))])
                   (JStr "verifier") JNull in
      let tx := generateHash tx in
      let* block := addBlock
                      (JObj [("type", JStr (verdict isAuthentic "verification_passed"
                                              "verification_failed"));
                             ("batchNumber", batchNumber);
                             ("txHash", JStr (tx_hash tx))]) in
      push_transaction (confirm block tx) ;;
      let* ts := now_iso in
      update (fun e => with_scanHistory
                (scanHistory e ++
                 [JObj [("batchNumber", batchNumber);
                        ("medicineName", m_get "medicineName" medicine);
                        ("result", JStr (verdict isAuthentic "authentic" "counterfeit"));
                        ("timestamp", JStr ts)]]) e) ;;
      (if isAuthentic then ret tt
       else (createAlert batchNumber (JStr "Verification checks failed") ;; ret tt)) ;;
      save ;;
      emit "verificationComplete" ;;
      ret (mkVerifyResult isAuthentic checks (Some medicine) batchNumber)
  end.

Definition transferMedicine (batchNumber stage actor location : jsval)
    : M (Medicine * Transaction) :=
  let* e := this in
  match JsMap.get batchNumber (medicines e) with
  | None => throw (Error "Medicine not found")
  | Some medicine =>
      let* tx := new_Transaction "transfer"
                   (JObj [("batchNumber", batchNumber); ("stage", stage);
                          ("actor", actor); ("location", location)])
                   actor JNull in
      let tx := generateHash tx in
      let* block := addBlock
                      (JObj [("type", JStr "supply_chain_transfer");
                             ("batchNumber", batchNumber); ("stage", stage);
                             ("actor", actor); ("txHash", JStr (tx_hash tx))]) in
      let tx := confirm block tx in
      push_transaction tx ;;
      let* ts := now_iso in
      let medicine :=
        mkMedicine (m_fields medicine) (m_registeredAt medicine) (m_status medicine)
          (m_scanCount medicine)
          (m_supplyChain medicine ++ [mkCheckpoint stage actor location ts (tx_hash tx)])
          (m_verifications medicine) (m_blockHash medicine) (m_blockNumber medicine) in
      update (fun e => with_medicines (JsMap.set batchNumber medicine (medicines e)) e) ;;
      save ;;
      emit "transfer" ;;
      ret (medicine, tx)
  end.

(** The body of the loop of [isChainValid], from block [i] on, [previous]
    being block [i - 1]. *)
Fixpoint isChainValid_from (previous : Block) (rest : list Block) : bool :=
  match rest with
  | [] => true
  | current :: rest' =>
      let block :=
        set_nonce (b_nonce current)
          (new_Block (b_index current) (b_timestamp current) (b_data current)
             (b_previousHash current)) in
      let recalculated := calculateHash block in
      if negb (String.eqb (b_hash current) recalculated) then false
      else if negb (String.eqb (b_previousHash current) (b_hash previous)) then false
      else isChainValid_from current rest'
  end.

Definition isChainValid (e : Engine) : bool :=
  match chain e with
  | [] => true
  | genesis :: rest => isChainValid_from genesis rest
  end.

(** [getMedicine(batchNumber)]; [None] is [null]. *)
Definition getMedicine (batchNumber : jsval) (e : Engine) : option Medicine :=
  JsMap.get batchNumber (medicines e).

(** [{ batchNumber: batch, ...data }]: the record with the key as its
    [batchNumber] unless it has that property itself. *)
Definition with_batchNumber (batch : jsval) (data : Medicine) : Medicine :=
  mkMedicine
    (List.fold_left (fun o kv => obj_set (fst kv) (snd kv) o) (m_fields data)
       [("batchNumber", batch)])
    (m_registeredAt data) (m_status data) (m_scanCount data) (m_supplyChain data)
    (m_verifications data) (m_blockHash data) (m_blockNumber data).

Definition getAllMedicines (e : Engine) : list Medicine :=
  List.map (fun kv => with_batchNumber (fst kv) (snd kv)) (medicines e).

(** [v.toLowerCase()]: a [TypeError] unless [v] is a string. *)
Definition call_toLowerCase (v : jsval) : JsError + string :=
  match v with
  | JStr s => inr (toLowerCase H s)
  | _ => inl TypeError
  end.

(** The predicate [search] filters with; [||] and [&&] evaluate their right
    operand only when needed. *)
Definition search_match (q : string) (m : Medicine) : JsError + bool :=
  match call_toLowerCase (m_get "batchNumber" m) with
  | inl e => inl e
  | inr b =>
      if Text.includes b q then inr true
      else
        match call_toLowerCase (m_get "medicineName" m) with
        | inl e => inl e
        | inr n =>
            if Text.includes n q then inr true
            else if truthy (m_get "manufacturerName" m) then
              match call_toLowerCase (m_get "manufacturerName" m) with
              | inl e => inl e
              | inr f => inr (Text.includes f q)
              end
            else inr false
        end
  end.

(** [array.filter(pred)] for a predicate that may throw. *)
Fixpoint filter_throwing {A : Type} (pred : A -> JsError + bool) (l : list A)
    : JsError + list A :=
  match l with
  | [] => inr []
  | x :: l' =>
      match pred x with
      | inl e => inl e
      | inr keep =>
          match filter_throwing pred l' with
          | inl e => inl e
          | inr r => inr (if keep then x :: r else r)
          end
      end
  end.

Definition search (query : jsval) (e : Engine) : JsError + list Medicine :=
  match call_toLowerCase query with
  | inl err => inl err
  | inr q => filter_throwing (search_match q) (getAllMedicines e)
  end.

End Engine.

(* ===================================================================== *)
(** ** JSON.parse *)
(* ===================================================================== *)

(** The parser covers the JSON grammar. A [jsval] number is an integer, so
    a number with a fraction or an exponent is read and then reported by
    [read] as [Unrepresented], apart from a syntax error: [JSON.parse]
    accepts [2.5] and [1e+21], and what the code does with them is not
    decided here. *)
Module JSONParse.
Local Open Scope N_scope.

Definition is_ws (c : ascii) : bool :=
  let n := N_of_ascii c in
  (n =? 32)%N || (n =? 9)%N || (n =? 10)%N || (n =? 13)%N.

Fixpoint skip_ws (s : string) : string :=
  match s with
  | String c s' => if is_ws c then skip_ws s' else s
  | EmptyString => s
  end.

Definition digit_val (c : ascii) : option N :=
  let n := N_of_ascii c in
  if (48 <=? n)%N && (n <=? 57)%N then Some (n - 48)%N else None.

Definition hex_val (c : ascii) : option N :=
  let n := N_of_ascii c in
  if (48 <=? n)%N && (n <=? 57)%N then Some (n - 48)%N
  else if (97 <=? n)%N && (n <=? 102)%N then Some (n - 87)%N
  else if (65 <=? n)%N && (n <=? 70)%N then Some (n - 55)%N
  else None.

Definition hex4_val (a b c d : ascii) : option N :=
  match hex_val a, hex_val b, hex_val c, hex_val d with
  | Some x, Some y, Some z, Some w => Some (x * 4096 + y * 256 + z * 16 + w)%N
  | _, _, _, _ => None
  end.

(** UTF-8 bytes of a code point (a lone surrogate is encoded like any
    other three-byte code point). *)
Definition utf8 (cp : N) : string :=
  let byte n := ascii_of_N n in
  if (cp <? 128)%N then String (byte cp) ""
  else if (cp <? 2048)%N then
    String (byte (192 + cp / 64)) (String (byte (128 + cp mod 64)) "")
  else if (cp <? 65536)%N then
    String (byte (224 + cp / 4096))
      (String (byte (128 + cp / 64 mod 64)) (String (byte (128 + cp mod 64)) ""))
  else
    String (byte (240 + cp / 262144))
      (String (byte (128 + cp / 4096 mod 64))
         (String (byte (128 + cp / 64 mod 64)) (String (byte (128 + cp mod 64)) ""))).

Definition is_high_surrogate (u : N) : bool := (55296 <=? u)%N && (u <=? 56319)%N.
Definition is_low_surrogate (u : N) : bool := (56320 <=? u)%N && (u <=? 57343)%N.

(** The escape letters that stand for one character. *)
Definition simple_escape (c : ascii) : option ascii :=
  let n := N_of_ascii c in
  if (n =? 34)%N then Some (ascii_of_N 34)
  else if (n =? 92)%N then Some (ascii_of_N 92)
  else if (n =? 47)%N then Some (ascii_of_N 47)
  else if (n =? 98)%N then Some (ascii_of_N 8)
  else if (n =? 102)%N then Some (ascii_of_N 12)
  else if (n =? 110)%N then Some (ascii_of_N 10)
  else if (n =? 114)%N then Some (ascii_of_N 13)
  else if (n =? 116)%N then Some (ascii_of_N 9)
  else None.

(** A low surrogate escape at the head of [s], with what follows it. *)
Definition low_surrogate_escape (s : string) : option (N * string) :=
  match s with
  | String b (String u (String h1 (String h2 (String h3 (String h4 rest))))) =>
      if (N_of_ascii b =? 92)%N && (N_of_ascii u =? 117)%N then
        match hex4_val h1 h2 h3 h4 with
        | Some lo => if is_low_surrogate lo then Some (lo, rest) else None
        | None => None
        end
      else None
  | _ => None
  end.

(** The characters of a string literal after its opening quote, up to and
    including the closing quote. *)
Fixpoint parse_chars (s : string) : option (string * string) :=
  match s with
  | EmptyString => None
  | String c r =>
      if (N_of_ascii c =? 34)%N then Some ("", r)
      else if (N_of_ascii c =? 92)%N then
        match r with
        | String e r' =>
            match simple_escape e with
            | Some ch =>
                match parse_chars r' with
                | Some (t, rest) => Some (String ch t, rest)
                | None => None
                end
            | None =>
                if (N_of_ascii e =? 117)%N then
                  match r' with
                  | String h1 (String h2 (String h3 (String h4 r''))) =>
                      match hex4_val h1 h2 h3 h4 with
                      | Some u =>
                          match
                            (if is_high_surrogate u then
                               match r'' with
                               | String _ (String _ (String _ (String _
                                   (String _ (String _ r3))))) =>
                                   match low_surrogate_escape r'' with
                                   | Some (lo, _) =>
                                       match parse_chars r3 with
                                       | Some (t, rest) =>
                                           Some (Some (utf8 (65536 + (u - 55296) * 1024
                                                            + (lo - 56320)) +:+ t, rest))
                                       | None => Some None
                                       end
                                   | None => None
                                   end
                               | _ => None
                               end
                             else None)
                          with
                          | Some paired => paired
                          | None =>
                              match parse_chars r'' with
                              | Some (t, rest) => Some (utf8 u +:+ t, rest)
                              | None => None
                              end
                          end
                      | None => None
                      end
                  | _ => None
                  end
                else None
            end
        | EmptyString => None
        end
      else if (N_of_ascii c <? 32)%N then None
      else
        match parse_chars r with
        | Some (t, rest) => Some (String c t, rest)
        | None => None
        end
  end.

(** The digits at the head of [s], accumulated onto [acc]. *)
Fixpoint parse_digits (acc : N) (s : string) : N * string :=
  match s with
  | String c r =>
      match digit_val c with
      | Some d => parse_digits (acc * 10 + d) r
      | None => (acc, s)
      end
  | EmptyString => (acc, s)
  end.

Definition starts_fraction (s : string) : bool :=
  match s with
  | String c _ =>
      let n := N_of_ascii c in (n =? 46)%N || (n =? 101)%N || (n =? 69)%N
  | EmptyString => false
  end.

(** An unsigned integer: [0], or a non-zero digit and more digits.
    [None] also where a fraction or an exponent follows: [parse_value]
    then reads the number with [after_number]. *)
Definition parse_nat (s : string) : option (N * string) :=
  match s with
  | String c r =>
      match digit_val c with
      | Some 0%N => if starts_fraction r then None else Some (0%N, r)
      | Some d =>
          let '(n, rest) := parse_digits d r in
          if starts_fraction rest then None else Some (n, rest)
      | None => None
      end
  | EmptyString => None
  end.

Definition parse_number (s : string) : option (Z * string) :=
  match s with
  | String c r =>
      if (N_of_ascii c =? 45)%N then
        match parse_nat r with
        | Some (n, rest) => Some ((- Z.of_N n)%Z, rest)
        | None => None
        end
      else
        match parse_nat s with
        | Some (n, rest) => Some (Z.of_N n, rest)
        | None => None
        end
  | EmptyString => None
  end.

(** *** Numbers with a fraction or an exponent

    [JSON.parse] reads them; a [jsval] number is an integer, so they are
    read here too, and reported as values this embedding does not hold. *)

Fixpoint skip_digits (s : string) : string :=
  match s with
  | String c r =>
      match digit_val c with
      | Some _ => skip_digits r
      | None => s
      end
  | EmptyString => s
  end.

(** What follows one digit or more. *)
Definition after_digits (s : string) : option string :=
  match s with
  | String c r =>
      match digit_val c with
      | Some _ => Some (skip_digits r)
      | None => None
      end
  | EmptyString => None
  end.

(** What follows the integer part: [0], or a non-zero digit and more
    digits. *)
Definition after_int (s : string) : option string :=
  match s with
  | String c r =>
      match digit_val c with
      | Some 0%N => Some r
      | Some _ => Some (skip_digits r)
      | None => None
      end
  | EmptyString => None
  end.

(** What follows the fraction, if there is one: a point and one digit or
    more. *)
Definition after_fraction (s : string) : option string :=
  match s with
  | String c r => if (N_of_ascii c =? 46)%N then after_digits r else Some s
  | EmptyString => Some s
  end.

(** What follows the exponent, if there is one: [e] or [E], a sign or
    none, and one digit or more. *)
Definition after_exponent (s : string) : option string :=
  match s with
  | String c r =>
      if ((N_of_ascii c =? 101) || (N_of_ascii c =? 69))%N then
        match r with
        | String sign r' =>
            if ((N_of_ascii sign =? 43) || (N_of_ascii sign =? 45))%N
            then after_digits r' else after_digits r
        | EmptyString => None
        end
      else Some s
  | EmptyString => Some s
  end.

(** What follows a number of the JSON grammar, whatever its form. *)
Definition after_number (s : string) : option string :=
  let unsigned :=
    match s with
    | String c r => if (N_of_ascii c =? 45)%N then r else s
    | EmptyString => s
    end in
  match after_int unsigned with
  | Some r1 =>
      match after_fraction r1 with
      | Some r2 => after_exponent r2
      | None => None
      end
  | None => None
  end.

(** The place of a number that was read and that no [jsval] holds. No
    JSON text denotes [undefined], so the mark cannot be mistaken for a
    value that was read. *)
Definition unrepresented : jsval := JUndef.

(** What follows the keyword [w] at the head of [s]. *)
Fixpoint keyword (w s : string) : option string :=
  match w, s with
  | EmptyString, _ => Some s
  | String a w', String b s' => if Ascii.eqb a b then keyword w' s' else None
  | String _ _, EmptyString => None
  end.

(** An object built from its members in source order: a repeated name
    keeps its first place and takes the last value. *)
Definition obj_of_members (ms : props) : props :=
  List.fold_left (fun o kv => obj_set (fst kv) (snd kv) o) ms [].

Fixpoint parse_value (fuel : nat) (s : string) : option (jsval * string) :=
  match fuel with
  | O => None
  | S fuel' =>
      match skip_ws s with
      | EmptyString => None
      | String c r =>
          let n := N_of_ascii c in
          if (n =? 34)%N then
            match parse_chars r with
            | Some (t, rest) => Some (JStr t, rest)
            | None => None
            end
          else if (n =? 91)%N then
            match skip_ws r with
            | String c' r' =>
                if (N_of_ascii c' =? 93)%N then Some (JArr [], r')
                else
                  match parse_elements fuel' r with
                  | Some (l, rest) => Some (JArr l, rest)
                  | None => None
                  end
            | EmptyString => None
            end
          else if (n =? 123)%N then
            match skip_ws r with
            | String c' r' =>
                if (N_of_ascii c' =? 125)%N then Some (JObj [], r')
                else
                  match parse_members fuel' r with
                  | Some (ms, rest) => Some (JObj (obj_of_members ms), rest)
                  | None => None
                  end
            | EmptyString => None
            end
          else if (n =? 110)%N then
            match keyword "null" (String c r) with
            | Some rest => Some (JNull, rest)
            | None => None
            end
          else if (n =? 116)%N then
            match keyword "true" (String c r) with
            | Some rest => Some (JBool true, rest)
            | None => None
            end
          else if (n =? 102)%N then
            match keyword "false" (String c r) with
            | Some rest => Some (JBool false, rest)
            | None => None
            end
          else
            match parse_number (String c r) with
            | Some (z, rest) => Some (JNum z, rest)
            | None =>
                match after_number (String c r) with
                | Some rest => Some (unrepresented, rest)
                | None => None
                end
            end
      end
  end
with parse_elements (fuel : nat) (s : string) : option (list jsval * string) :=
  match fuel with
  | O => None
  | S fuel' =>
      match parse_value fuel' s with
      | Some (v, r) =>
          match skip_ws r with
          | String c r' =>
              if (N_of_ascii c =? 44)%N then
                match parse_elements fuel' r' with
                | Some (l, rest) => Some (v :: l, rest)
                | None => None
                end
              else if (N_of_ascii c =? 93)%N then Some ([v], r')
              else None
          | EmptyString => None
          end
      | None => None
      end
  end
with parse_members (fuel : nat) (s : string) : option (props * string) :=
  match fuel with
  | O => None
  | S fuel' =>
      match skip_ws s with
      | String q r =>
          if (N_of_ascii q =? 34)%N then
            match parse_chars r with
            | Some (k, r1) =>
                match skip_ws r1 with
                | String colon r2 =>
                    if (N_of_ascii colon =? 58)%N then
                      match parse_value fuel' r2 with
                      | Some (v, r3) =>
                          match skip_ws r3 with
                          | String c r4 =>
                              if (N_of_ascii c =? 44)%N then
                                match parse_members fuel' r4 with
                                | Some (ms, rest) => Some ((k, v) :: ms, rest)
                                | None => None
                                end
                              else if (N_of_ascii c =? 125)%N then Some ([(k, v)], r4)
                              else None
                          | EmptyString => None
                          end
                      | None => None
                      end
                    else None
                | EmptyString => None
                end
            | None => None
            end
          else None
      | EmptyString => None
      end
  end.

(** The value the whole of [text] denotes, with [unrepresented] in the
    place of every number that has a fraction or an exponent; [None] when
    [text] is not JSON. *)
Definition parse (text : string) : option jsval :=
  match parse_value (S (String.length text)) text with
  | Some (v, rest) =>
      match skip_ws rest with
      | EmptyString => Some v
      | String _ _ => None
      end
  | None => None
  end.

(** No part of [v] is the mark [unrepresented]. *)
Fixpoint whole (v : jsval) : bool :=
  match v with
  | JUndef => false
  | JNull | JBool _ | JNum _ | JStr _ => true
  | JArr l =>
      (fix all (l : list jsval) : bool :=
         match l with
         | [] => true
         | x :: l' => whole x && all l'
         end) l
  | JObj o =>
      (fix all (o : props) : bool :=
         match o with
         | [] => true
         | (_, x) :: o' => whole x && all o'
         end) o
  end.

(** What [JSON.parse(text)] does, as far as this embedding can tell: it
    returns a value, or throws a [SyntaxError], or returns a value that
    holds a number [jsval] has no place for. *)
Inductive Reading : Type :=
| Value (v : jsval)
| SyntaxError
| Unrepresented.

Definition read (text : string) : Reading :=
  match parse text with
  | Some v => if whole v then Value v else Unrepresented
  | None => SyntaxError
  end.

End JSONParse.

(* ===================================================================== *)
(** ** Reading the stored document back: [initialize] *)
(* ===================================================================== *)

(** [JSON.parse] returns plain objects; the engine goes on using them as its
    blocks, records and transactions. The typed reading below recovers the
    records of this model from those objects. A document that is not shaped
    like what [save] writes has no typed reading ([None]). *)
Module Typed.

Definition as_str (v : jsval) : option string :=
  match v with
  | JStr s => Some s
  | _ => None
  end.

Definition as_N (v : jsval) : option N :=
  match v with
  | JNum z => if (0 <=? z)%Z then Some (Z.to_N z) else None
  | _ => None
  end.

Fixpoint as_list {A : Type} (f : jsval -> option A) (l : list jsval)
    : option (list A) :=
  match l with
  | [] => Some []
  | v :: l' =>
      match f v, as_list f l' with
      | Some a, Some r => Some (a :: r)
      | _, _ => None
      end
  end.

Definition as_array {A : Type} (f : jsval -> option A) (v : jsval)
    : option (list A) :=
  match v with
  | JArr l => as_list f l
  | _ => None
  end.

Definition to_Block (v : jsval) : option Block :=
  match v with
  | JObj o =>
      match as_N (obj_get "index" o), as_str (obj_get "timestamp" o),
            as_str (obj_get "previousHash" o), as_str (obj_get "hash" o),
            as_N (obj_get "nonce" o) with
      | Some i, Some ts, Some ph, Some h, Some n =>
          Some (mkBlock i ts (obj_get "data" o) ph h n)
      | _, _, _, _, _ => None
      end
  | _ => None
  end.

Definition to_Transaction (v : jsval) : option Transaction :=
  match v with
  | JObj o =>
      match as_str (obj_get "id" o), as_str (obj_get "type" o),
            as_str (obj_get "timestamp" o), as_str (obj_get "hash" o),
            as_str (obj_get "status" o),
            match obj_get "blockNumber" o with
            | JNull => Some None
            | w => option_map Some (as_N w)
            end with
      | Some id, Some ty, Some ts, Some h, Some st, Some bn =>
          Some (mkTransaction id ty (obj_get "data" o) (obj_get "from" o)
                  (obj_get "to" o) ts h bn st)
      | _, _, _, _, _, _ => None
      end
  | _ => None
  end.

Definition to_Checkpoint (v : jsval) : option Checkpoint :=
  match v with
  | JObj o =>
      match as_str (obj_get "timestamp" o), as_str (obj_get "txHash" o) with
      | Some ts, Some h =>
          Some (mkCheckpoint (obj_get "stage" o) (obj_get "actor" o)
                  (obj_get "location" o) ts h)
      | _, _ => None
      end
  | _ => None
  end.

Definition to_VerificationEntry (v : jsval) : option VerificationEntry :=
  match v with
  | JObj o =>
      match as_str (obj_get "timestamp" o), as_str (obj_get "result" o) with
      | Some ts, Some r => Some (mkVerificationEntry ts r)
      | _, _ => None
      end
  | _ => None
  end.

(** A property that may be missing. *)
Definition optional {A : Type} (f : jsval -> option A) (v : jsval)
    : option (option A) :=
  match v with
  | JUndef => Some None
  | _ => option_map Some (f v)
  end.

Definition to_Medicine (v : jsval) : option Medicine :=
  match v with
  | JObj o =>
      match as_str (obj_get "registeredAt" o), as_str (obj_get "status" o),
            as_N (obj_get "scanCount" o),
            as_array to_Checkpoint (obj_get "supplyChain" o),
            as_array to_VerificationEntry (obj_get "verifications" o),
            optional as_str (obj_get "blockHash" o),
            optional as_N (obj_get "blockNumber" o) with
      | Some ra, Some st, Some sc, Some chain, Some vs, Some bh, Some bn =>
          Some (mkMedicine
                  (List.filter (fun kv => negb (is_engine_key (fst kv))) o)
                  ra st sc chain vs bh bn)
      | _, _, _, _, _, _, _ => None
      end
  | _ => None
  end.

Definition to_Alert (v : jsval) : option Alert :=
  match v with
  | JObj o =>
      match as_str (obj_get "id" o), as_str (obj_get "timestamp" o),
            as_str (obj_get "severity" o), as_str (obj_get "status" o) with
      | Some id, Some ts, Some sev, Some st =>
          Some (mkAlert id (obj_get "batchNumber" o) (obj_get "reason" o) ts sev st)
      | _, _, _, _ => None
      end
  | _ => None
  end.

(** One element of the iterable given to [new Map]: its properties [0] and
    [1]; [None] when the element is not an object (a [TypeError]). *)
Definition entry_of (v : jsval) : option (jsval * jsval) :=
  match v with
  | JArr l => Some (List.nth 0 l JUndef, List.nth 1 l JUndef)
  | JObj o => Some (obj_get "0" o, obj_get "1" o)
  | _ => None
  end.

Definition to_entry (kv : jsval * jsval) : option (jsval * Medicine) :=
  match to_Medicine (snd kv) with
  | Some m => Some (fst kv, m)
  | None => None
  end.

Fixpoint to_entries (l : list (jsval * jsval)) : option (list (jsval * Medicine)) :=
  match l with
  | [] => Some []
  | kv :: l' =>
      match to_entry kv, to_entries l' with
      | Some e, Some r => Some (e :: r)
      | _, _ => None
      end
  end.

End Typed.

Section Initialize.
Context (H : Host).
Context (fuel : nat).

Local Open Scope engine_scope.

(** The typed reading of a parsed value, or [Untyped]. *)
Definition typed {A : Type} (x : option A) : M A :=
  match x with
  | Some a => ret a
  | None => fun _ => Untyped
  end.

(** [try { c } catch (e) { handler }]. *)
Definition try_catch {A : Type} (c : M A) (handler : M A) : M A :=
  fun s =>
    match c s with
    | Throw _ s' => handler s'
    | o => o
    end.

(** [data.k] on the parsed document. *)
Definition member (k : string) (data : jsval) : M jsval :=
  match data with
  | JUndef | JNull => throw TypeError
  | JObj o => ret (obj_get k o)
  | _ => ret JUndef
  end.

(** [new Map(v)] for the parsed [v]. *)
Definition new_Map (v : jsval) : M (list (jsval * Medicine)) :=
  match v with
  | JArr l =>
      match Typed.as_list Typed.entry_of l with
      | Some entries =>
          let* typed_entries := typed (Typed.to_entries entries) in
          ret (JsMap.of_entries typed_entries)
      | None => throw TypeError
      end
  | _ => throw TypeError
  end.

(** The assignments inside the [try] of [initialize]. *)
Definition load (data : jsval) : M unit :=
  let* c := member "chain" data in
  let* c := typed (Typed.as_array Typed.to_Block (js_or c (JArr []))) in
  update (with_chain c) ;;
  let* m := member "medicines" data in
  let* m := new_Map (js_or m (JArr [])) in
  update (with_medicines m) ;;
  let* t := member "transactions" data in
  let* t := typed (Typed.as_array Typed.to_Transaction (js_or t (JArr []))) in
  update (with_transactions t) ;;
  let* a := member "alerts" data in
  let* a := typed (Typed.as_array Typed.to_Alert (js_or a (JArr []))) in
  update (with_alerts a) ;;
  let* h := member "scanHistory" data in
  let* h := typed (Typed.as_array Some (js_or h (JArr []))) in
  update (with_scanHistory h).

Definition initialize : M unit :=
  let* s := (fun s => Ok s s) in
  match storage s with
  | Some saved =>
      try_catch
        (match JSONParse.read saved with
         | JSONParse.Value data => load data
         | JSONParse.SyntaxError => throw (Error "SyntaxError")
         | JSONParse.Unrepresented => fun _ => Untyped
         end)
        (createGenesisBlock H)
  | None => createGenesisBlock H
  end ;;
  let* e := this in
  (if (List.length (chain e) =? 0)%nat then createGenesisBlock H else ret tt) ;;
  emit "initialized".

(** ** Sequences of calls to the public mutating operations *)

Inductive Op : Type :=
| RegisterMedicine (medicineData : props)
| VerifyMedicine (batchNumber : jsval)
| TransferMedicine (batchNumber stage actor location : jsval)
| CreateAlert (batchNumber reason : jsval).

(** The state a call leaves, whether it returned or threw; [None] when it
    did neither. *)
Definition settled {A : Type} (o : Outcome A) : option St :=
  match o with
  | Ok _ s => Some s
  | Throw _ s => Some s
  | Pending | Untyped => None
  end.

Definition call (op : Op) (s : St) : option St :=
  match op with
  | RegisterMedicine d => settled (registerMedicine H fuel d s)
  | VerifyMedicine b => settled (verifyMedicine H fuel b s)
  | TransferMedicine b st a l => settled (transferMedicine H fuel b st a l s)
  | CreateAlert b r => settled (createAlert H fuel b r s)
  end.

(** Calls made one after the other, each awaited before the next. Calls
    made while another is suspended are those of [Async]. *)
Fixpoint calls (ops : list Op) (s : St) : option St :=
  match ops with
  | [] => Some s
  | op :: ops' =>
      match call op s with
      | Some s' => calls ops' s'
      | None => None
      end
  end.

(** The page as it loads: a new engine object, then [initialize()]. *)
Definition boot (saved : option string) : St := mkSt new_Engine saved 0 0.

End Initialize.
(* ===================================================================== *)
(** ** Calls in flight *)
(* ===================================================================== *)

(** The operations of the engine are [async] functions. A call runs until
    its first [await] and gives the thread back; each later stretch of it
    runs when what it awaited has settled, on the engine as the stretches
    of other calls have left it in the meantime. The monad [M] runs a call
    to its end in one piece: that is the call as a caller sees it who
    awaits it before doing anything else. Here a call is the sequence of
    its stretches: it has settled, or it is suspended at an [await], with
    the state it left and what it does when it is taken up again. *)
Inductive Run (A : Type) : Type :=
| Settled (o : Outcome A)
| Suspended (s : St) (resume : St -> Run A).
Arguments Settled {A} o.
Arguments Suspended {A} s resume.

Definition Async (A : Type) : Type := St -> Run A.

(** The record a call took from the map, read after an [await]. The call
    holds the object, not a copy: no operation removes an entry, and the
    runs of this model end where one would put another object under a key
    that is there (see [Async.registerMedicine]); so what the call finds in
    its object is what the map holds under the key at that time. *)
Definition held (batchNumber : jsval) (medicine : Medicine) : M Medicine :=
  fun s => Ok (default medicine (JsMap.get batchNumber (medicines (engine s)))) s.

Declare Scope async_scope.
Delimit Scope async_scope with async.

Module Async.

(** What follows a run: the rest of the function body, once the run has
    returned. An exception passes through every [await] on its way. *)
Fixpoint and_then {A B : Type} (r : Run A) (k : A -> Async B) : Run B :=
  match r with
  | Settled (Ok a s) => k a s
  | Settled (Throw e s) => Settled (Throw e s)
  | Settled Pending => Settled Pending
  | Settled Untyped => Settled Untyped
  | Suspended s resume => Suspended s (fun s' => and_then (resume s') k)
  end.

Definition bind {A B : Type} (c : Async A) (k : A -> Async B) : Async B :=
  fun s => and_then (c s) k.

(** Statements with no [await] in them run in one stretch. *)
Definition lift {A : Type} (c : M A) : Async A := fun s => Settled (c s).

Definition ret {A : Type} (a : A) : Async A := lift (ret a).

(** The thread is given back; the call goes on in a later turn of the
    event loop. *)
Definition pause : Async unit := fun s => Suspended s (fun s' => Settled (Ok tt s')).

(** [await c], [c] being a call of an [async] function or a promise of
    the host: the callee runs at once as far as its own first [await];
    after it has returned, the caller goes on in a later turn. *)
Definition await {A : Type} (c : Async A) : Async A :=
  bind c (fun a => bind pause (fun _ => ret a)).

Notation "'let*' x := c 'in' k" := (bind c (fun x => k))
  (at level 10, x name, c at level 100, k at level 200) : async_scope.
Notation "c ;; k" := (bind c (fun _ => k))
  (at level 100, k at level 200, right associativity) : async_scope.

Section Operations.
Context (H : Host).
(** Iterations granted to each nonce search. *)
Context (fuel : nat).

Local Open Scope async_scope.

(** [sha256(message)]: the digest is computed by the host
    ([crypto.subtle.digest]) and awaited. *)
Definition sha256 (message : string) : Async string :=
  let* hashHex := await (ret (sha256 message)) in
  ret hashHex.

(** [calculateHash()]: [return await sha256(str)]. *)
Definition calculateHash (b : Block) : Async string :=
  await (sha256 (Text.of_N (b_index b) +:+ b_previousHash b +:+ b_timestamp b +:+
                 JSON.stringify_str (b_data b) +:+ Text.of_N (b_nonce b))).

(** [mineBlock(difficulty)]. The block is the call's own until
    [addBlock] pushes it. [n] bounds the iterations. *)
Fixpoint mineBlock (n : nat) (difficulty : nat) (b : Block) : Async Block :=
  if meets difficulty (b_hash b) then ret b
  else
    match n with
    | O => lift (fun _ => Pending)
    | S n' =>
        let b1 := set_nonce (b_nonce b + 1) b in
        let* hash := await (calculateHash b1) in
        mineBlock n' difficulty (set_hash hash b1)
    end.

(** [generateHash()]. The transaction is the call's own until the call
    pushes it. *)
Definition generateHash (t : Transaction) : Async Transaction :=
  let* hash := await (sha256 (tx_id t +:+ tx_type t +:+
                              JSON.stringify_str (tx_data t) +:+ tx_timestamp t)) in
  ret (mkTransaction (tx_id t) (tx_type t) (tx_data t) (tx_from t) (tx_to t)
         (tx_timestamp t) ("0x" +:+ hash) (tx_blockNumber t) (tx_status t)).

(** [addBlock(data)]: the head and the length of the chain are read
    before the nonce search is awaited, the block is pushed after. *)
Definition addBlock (data : jsval) : Async Block :=
  let* e := lift this in
  let latestBlock := getLatestBlock e in
  let* ts := lift (now_iso H) in
  match latestBlock with
  | None => lift (throw TypeError)
  | Some latest =>
      let newBlock :=
        new_Block (N.of_nat (List.length (chain e))) ts data (b_hash latest) in
      let* newBlock := await (mineBlock fuel (difficulty e) newBlock) in
      lift (update (fun e => with_chain (chain e ++ [newBlock]) e)) ;;
      lift save ;;
      lift (emit "blockAdded") ;;
      ret newBlock
  end.

Definition createAlert (batchNumber reason : jsval) : Async Alert :=
  let* ms := lift (Date_now H) in
  let* ts := lift (now_iso H) in
  let alert := mkAlert ("alert_" +:+ Text.of_Z ms) batchNumber reason ts "high" "active" in
  lift (update (fun e => with_alerts (alerts e ++ [alert]) e)) ;;
  let* tx := lift (new_Transaction H "alert"
                     (JObj [("batchNumber", batchNumber); ("reason", reason)])
                     (JStr "system") JNull) in
  let* tx := await (generateHash tx) in
  let* block := await (addBlock
                         (JObj [("type", JStr "counterfeit_alert");
                                ("batchNumber", batchNumber); ("reason", reason);
                                ("txHash", JStr (tx_hash tx))])) in
  lift (push_transaction (confirm block tx)) ;;
  lift save ;;
  lift (emit "alertCreated") ;;
  ret alert.

(** [registerMedicine(medicineData)]. The test for a duplicate is made
    before the first [await] and the record is stored after the last:
    of two registrations of one batch in flight, the second to finish
    puts its object in the place of the first's, which calls that took
    it still hold. Values do not tell the two objects apart; the run
    ends there as [Untyped]. *)
Definition registerMedicine (medicineData : props)
    : Async (Medicine * Transaction * Block) :=
  let batchNumber := obj_get "batchNumber" medicineData in
  let* e := lift this in
  if JsMap.has batchNumber (medicines e) then
    lift (throw (Error ("Batch " +:+ ToString batchNumber +:+
                        " already registered on blockchain")))
  else
    let* registeredAt := lift (now_iso H) in
    let* made := lift (now_iso H) in
    let* tx := lift (new_Transaction H "registration"
                       (JObj [("batchNumber", batchNumber);
                              ("medicineName", obj_get "medicineName" medicineData);
                              ("manufacturerId", obj_get "manufacturerId" medicineData)])
                       (obj_get "manufacturerId" medicineData) JNull) in
    let* tx := await (generateHash tx) in
    let* block := await (addBlock
                           (JObj [("type", JStr "medicine_registration");
                                  ("batchNumber", batchNumber);
                                  ("medicineName", obj_get "medicineName" medicineData);
                                  ("manufacturerId",
                                   obj_get "manufacturerId" medicineData);
                                  ("txHash", JStr (tx_hash tx))])) in
    let tx := confirm block tx in
    let medicine :=
      mkMedicine
        (List.filter (fun kv => negb (is_engine_key (fst kv))) medicineData)
        registeredAt "active" 0
        [mkCheckpoint (JStr "Manufactured")
           (js_or (obj_get "manufacturerName" medicineData)
                  (obj_get "manufacturerId" medicineData))
           (JStr "Manufacturing Plant") made (tx_hash tx)]
        []
        (Some (b_hash block)) (Some (b_index block)) in
    let* e := lift this in
    if JsMap.has batchNumber (medicines e) then lift (fun _ => Untyped)
    else
      lift (update (fun e =>
              with_medicines (JsMap.set batchNumber medicine (medicines e)) e)) ;;
      lift (push_transaction tx) ;;
      lift save ;;
      lift (emit "medicineRegistered") ;;
      ret (medicine, tx, block).

(** [verifyMedicine(batchNumber)]. The six checks and the update of the
    record are made before the first [await]; the object returned is
    the record itself, as it is when the call returns. *)
Definition verifyMedicine (batchNumber : jsval) : Async VerifyResult :=
  let* e := lift this in
  (* Check 1: Exists on blockchain *)
  match JsMap.get batchNumber (medicines e) with
  | None =>
      let checks :=
        [mkCheck "Blockchain Record Exists" false "NOT found on blockchain"] in
      await (createAlert batchNumber (JStr "Medicine not found on blockchain")) ;;
      let* tx := lift (new_Transaction H "verification"
                         (JObj [("batchNumber", batchNumber);
                                ("result", JStr "COUNTERFEIT");
                                ("reason", JStr "Not found on blockchain")])
                         (JStr "verifier") JNull) in
      let* tx := await (generateHash tx) in
      let* block := await (addBlock
                             (JObj [("type", JStr "verification_failed");
                                    ("batchNumber", batchNumber);
                                    ("txHash", JStr (tx_hash tx))])) in
      lift (push_transaction (confirm block tx)) ;;
      let* ts := lift (now_iso H) in
      lift (update (fun e => with_scanHistory
              (scanHistory e ++
               [JObj [("batchNumber", batchNumber); ("result", JStr "counterfeit");
                      ("timestamp", JStr ts);
                      ("reason", JStr "Not found on blockchain")]]) e)) ;;
      lift save ;;
      lift (emit "verificationComplete") ;;
      ret (mkVerifyResult false checks None batchNumber)
  | Some medicine =>
      let checks :=
        [mkCheck "Blockchain Record Exists" true "Medicine found on blockchain"] in
      let isAuthentic := true in
      (* Check 2: Batch number matches *)
      let checks := checks ++
        [mkCheck "Batch Number Matches" true ("Batch: " +:+ ToString batchNumber)] in
      (* Check 3: Expiry check *)
      let* now := lift (Date_now H) in
      let expiryDate := m_get "expiryDate" medicine in
      let notExpired := date_gt (Date_value H expiryDate) now in
      let checks := checks ++
        [if notExpired
         then mkCheck "Medicine Not Expired" true ("Expires: " +:+ ToString expiryDate)
         else mkCheck "Medicine Not Expired" false
                ("EXPIRED on " +:+ ToString expiryDate)] in
      let isAuthentic := isAuthentic && notExpired in
      (* Check 4: Not already sold *)
      let notSold := negb (String.eqb (m_status medicine) "sold") in
      let checks := checks ++
        [if notSold
         then mkCheck "Not Previously Sold" true ("Status: " +:+ m_status medicine)
         else mkCheck "Not Previously Sold" false "Medicine marked as SOLD"] in
      let isAuthentic := isAuthentic && notSold in
      (* Check 5: Supply chain valid *)
      let checkpoints := List.length (m_supplyChain medicine) in
      let checks := checks ++
        [if (0 <? checkpoints)%nat
         then mkCheck "Supply Chain Valid" true
                (Text.of_N (N.of_nat checkpoints) +:+ " checkpoint(s)")
         else mkCheck "Supply Chain Valid" false "No supply chain data"] in
      (* Check 6: Blockchain integrity *)
      let blockOk :=
        match m_blockNumber medicine with
        | Some blockIndex => (blockIndex <? N.of_nat (List.length (chain e)))%N
        | None => false
        end in
      let checks := checks ++
        [match m_blockNumber medicine with
         | Some blockIndex =>
             if blockOk
             then mkCheck "Blockchain Integrity" true
                    ("Block #" +:+ Text.of_N blockIndex +:+ " verified")
             else mkCheck "Blockchain Integrity" false "Block reference invalid"
         | None => mkCheck "Blockchain Integrity" false "Block reference invalid"
         end] in
      let isAuthentic := isAuthentic && blockOk in
      (* Update medicine scan count *)
      let* seen := lift (now_iso H) in
      let medicine :=
        mkMedicine (m_fields medicine) (m_registeredAt medicine) (m_status medicine)
          (m_scanCount medicine + 1) (m_supplyChain medicine)
          (m_verifications medicine ++
           [mkVerificationEntry seen (verdict isAuthentic "authentic" "suspicious")])
          (m_blockHash medicine) (m_blockNumber medicine) in
      lift (update (fun e =>
              with_medicines (JsMap.set batchNumber medicine (medicines e)) e)) ;;
      (* Create transaction *)
      let* tx := lift (new_Transaction H "verification"
                         (JObj [("batchNumber", batchNumber);
                                ("medicineName", m_get "medicineName" medicine);
                                ("result",
                                 JStr (verdict isAuthentic "AUTHENTIC" "SUSPICIOUS"))])
                         (JStr "verifier") JNull) in
      let* tx := await (generateHash tx) in
      let* block := await (addBlock
                             (JObj [("type",
                                     JStr (verdict isAuthentic "verification_passed"
                                             "verification_failed"));
                                    ("batchNumber", batchNumber);
                                    ("txHash", JStr (tx_hash tx))])) in
      lift (push_transaction (confirm block tx)) ;;
      let* ts := lift (now_iso H) in
      let* medicine := lift (held batchNumber medicine) in
      lift (update (fun e => with_scanHistory
              (scanHistory e ++
               [JObj [("batchNumber", batchNumber);
                      ("medicineName", m_get "medicineName" medicine);
                      ("result", JStr (verdict isAuthentic "authentic" "counterfeit"));
                      ("timestamp", JStr ts)]]) e)) ;;
      (if isAuthentic then ret tt
       else (await (createAlert batchNumber (JStr "Verification checks failed")) ;;
             ret tt)) ;;
      lift save ;;
      lift (emit "verificationComplete") ;;
      let* medicine := lift (held batchNumber medicine) in
      ret (mkVerifyResult isAuthentic checks (Some medicine) batchNumber)
  end.

(** [transferMedicine(batchNumber, stage, actor, location)]: the
    checkpoint is pushed on the record after the block was awaited. *)
Definition transferMedicine (batchNumber stage actor location : jsval)
    : Async (Medicine * Transaction) :=
  let* e := lift this in
  match JsMap.get batchNumber (medicines e) with
  | None => lift (throw (Error "Medicine not found"))
  | Some medicine =>
      let* tx := lift (new_Transaction H "transfer"
                         (JObj [("batchNumber", batchNumber); ("stage", stage);
                                ("actor", actor); ("location", location)])
                         actor JNull) in
      let* tx := await (generateHash tx) in
      let* block := await (addBlock
                             (JObj [("type", JStr "supply_chain_transfer");
                                    ("batchNumber", batchNumber); ("stage", stage);
                                    ("actor", actor); ("txHash", JStr (tx_hash tx))])) in
      let tx := confirm block tx in
      lift (push_transaction tx) ;;
      let* ts := lift (now_iso H) in
      let* medicine := lift (held batchNumber medicine) in
      let medicine :=
        mkMedicine (m_fields medicine) (m_registeredAt medicine) (m_status medicine)
          (m_scanCount medicine)
          (m_supplyChain medicine ++ [mkCheckpoint stage actor location ts (tx_hash tx)])
          (m_verifications medicine) (m_blockHash medicine) (m_blockNumber medicine) in
      lift (update (fun e =>
              with_medicines (JsMap.set batchNumber medicine (medicines e)) e)) ;;
      lift save ;;
      lift (emit "transfer") ;;
      ret (medicine, tx)
  end.

(** A call of one of the four operations, its result dropped. *)
Definition call (op : Op) : Async unit :=
  match op with
  | RegisterMedicine d => registerMedicine d ;; ret tt
  | VerifyMedicine b => verifyMedicine b ;; ret tt
  | TransferMedicine b st a l => transferMedicine b st a l ;; ret tt
  | CreateAlert b r => createAlert b r ;; ret tt
  end.

End Operations.

(** *** The event loop *)

(** The state a stretch leaves; [None] when the nonce search ran out of
    fuel in it, or the run left the model. *)
Definition left_by {A : Type} (r : Run A) : option St :=
  match r with
  | Settled o => settled o
  | Suspended s _ => Some s
  end.

(** The calls a handler makes one after the other without awaiting them:
    each runs as far as its first [await] before the next is made. *)
Fixpoint start {A : Type} (calls : list (Async A)) (s : St)
    : option (list (Run A) * St) :=
  match calls with
  | [] => Some ([], s)
  | c :: calls' =>
      let r := c s in
      match left_by r with
      | Some s' =>
          match start calls' s' with
          | Some (pool, s'') => Some (r :: pool, s'')
          | None => None
          end
      | None => None
      end
  end.

(** One turn of the event loop: the call at place [i] is taken up from
    its [await] and runs to the next one, or to its end. A call that has
    settled has nothing left to run. *)
Definition turn {A : Type} (i : nat) (pool : list (Run A)) (s : St)
    : option (list (Run A) * St) :=
  match pool !! i with
  | Some (Suspended _ resume) =>
      let r := resume s in
      match left_by r with
      | Some s' => Some (<[i := r]> pool, s')
      | None => None
      end
  | Some (Settled _) | None => Some (pool, s)
  end.

(** The turns of a schedule: which call the loop takes up, turn after
    turn. *)
Fixpoint turns {A : Type} (schedule : list nat) (pool : list (Run A)) (s : St)
    : option (list (Run A) * St) :=
  match schedule with
  | [] => Some (pool, s)
  | i :: schedule' =>
      match turn i pool s with
      | Some (pool', s') => turns schedule' pool' s'
      | None => None
      end
  end.

(** What the calls have answered: [None] for one that is still
    suspended. *)
Definition answers {A : Type} (pool : list (Run A)) : list (option (Outcome A)) :=
  List.map (fun r => match r with
                     | Settled o => Some o
                     | Suspended _ _ => None
                     end) pool.

(** The calls are made, then the loop runs the schedule. *)
Definition run {A : Type} (calls : list (Async A)) (schedule : list nat) (s : St)
    : option (list (option (Outcome A)) * St) :=
  match start calls s with
  | Some (pool, s') =>
      match turns schedule pool s' with
      | Some (pool', s'') => Some (answers pool', s'')
      | None => None
      end
  | None => None
  end.

(** A call made and awaited: every stretch of it follows the one before
    with nothing in between. *)
Fixpoint awaited_run {A : Type} (r : Run A) : Outcome A :=
  match r with
  | Settled o => o
  | Suspended s resume => awaited_run (resume s)
  end.

Definition awaited {A : Type} (c : Async A) : M A := fun s => awaited_run (c s).

(** The schedule that takes up the calls in turn, [rounds] times over. *)
Fixpoint in_turn (calls rounds : nat) : list nat :=
  match rounds with
  | O => []
  | S rounds' => List.seq 0 calls ++ in_turn calls rounds'
  end.

(** The schedule that gives each call [length] turns at a time. *)
Fixpoint in_runs (calls length rounds : nat) : list nat :=
  match rounds with
  | O => []
  | S rounds' =>
      List.flat_map (fun i => List.repeat i length) (List.seq 0 calls)
        ++ in_runs calls length rounds'
  end.

End Async.

(* ===================================================================== *)
(** ** The contract of src/contracts/MediChain.sol *)
(* ===================================================================== *)

Module MediChainSol.
Local Open Scope N_scope.

Definition address : Type := N.

(** The largest [uint256]. *)
Definition max_uint256 : N := (2 ^ 256 - 1)%N.

Inductive MedicineStatus : Type := Active | Sold | Expired | Flagged.

Inductive SupplyStage : Type :=
| Manufactured | QualityChecked | Shipped | InTransit | Delivered | Dispensed.

Record Medicine : Type := mkMedicine {
  id : N;
  medicineName : string;
  batchNumber : string;
  manufacturerId : string;
  manufacturerName : string;
  mfgDate : string;
  expiryDate : string;
  medicineType : string;
  quantity : N;
  composition : string;
  shipmentDest : string;
  price : N;
  status : MedicineStatus;
  registeredBy : address;
  registeredAt : N;
  scanCount : N;
  exists_ : bool
}.

(** The value every key of a mapping holds until it is written. *)
Definition no_medicine : Medicine :=
  mkMedicine 0 "" "" "" "" "" "" "" 0 "" "" 0 Active 0 0 0 false.

Record SupplyChainEntry : Type := mkSupplyChainEntry {
  sc_stage : SupplyStage;
  sc_actor : string;
  sc_location : string;
  sc_timestamp : N;
  sc_updatedBy : address
}.

Record VerificationRecord : Type := mkVerificationRecord {
  v_verifier : address;
  v_timestamp : N;
  v_isAuthentic : bool;
  v_details : string
}.

Record CounterfeitAlert : Type := mkCounterfeitAlert {
  ca_id : N;
  ca_batchNumber : string;
  ca_reason : string;
  ca_reportedBy : address;
  ca_timestamp : N;
  ca_resolved : bool
}.

Inductive Event : Type :=
| MedicineRegistered (batchNumber medicineName manufacturerId : string)
    (registeredBy : address) (timestamp : N)
| MedicineVerified (batchNumber : string) (isAuthentic : bool)
    (verifier : address) (timestamp : N)
| SupplyChainUpdated (batchNumber : string) (stage : SupplyStage)
    (actor location : string) (timestamp : N)
| CounterfeitAlertRaised (alertId : N) (batchNumber reason : string)
    (reportedBy : address) (timestamp : N)
| MedicineStatusChanged (batchNumber : string) (newStatus : MedicineStatus)
    (timestamp : N)
| ManufacturerAuthorized (manufacturer : address) (timestamp : N)
| DistributorAuthorized (distributor : address) (timestamp : N)
| ShopAuthorized (shop : address) (timestamp : N).

(** The storage of the contract, and the log of the events it emitted. *)
Record Contract : Type := mkContract {
  owner : address;
  medicineCount : N;
  verificationCount : N;
  alertCount : N;
  medicines : gmap string Medicine;
  supplyChain : gmap string (list SupplyChainEntry);
  verifications : gmap string (list VerificationRecord);
  alerts : gmap N CounterfeitAlert;
  authorizedManufacturers : gmap address bool;
  authorizedDistributors : gmap address bool;
  authorizedShops : gmap address bool;
  allBatchNumbers : list string;
  events : list Event
}.

(** [msg.sender] and [block.timestamp] of a call. *)
Record Msg : Type := mkMsg {
  sender : address;
  timestamp : N
}.

(** A call returns, or reverts and leaves the storage as it was. *)
Inductive Result (A : Type) : Type :=
| Success (a : A) (c : Contract)
| Revert (reason : string)
| Panic (code : N).
Arguments Success {A} a c.
Arguments Revert {A} reason.
Arguments Panic {A} code.

(** [medicines[k]]. *)
Definition medicine_at (k : string) (c : Contract) : Medicine :=
  default no_medicine (medicines c !! k).

Definition flag_at (a : address) (m : gmap address bool) : bool :=
  default false (m !! a).

Definition list_at {A : Type} (k : string) (m : gmap string (list A)) : list A :=
  default [] (m !! k).

Definition set_medicines (m : gmap string Medicine) (c : Contract) : Contract :=
  mkContract (owner c) (medicineCount c) (verificationCount c) (alertCount c) m
    (supplyChain c) (verifications c) (alerts c) (authorizedManufacturers c)
    (authorizedDistributors c) (authorizedShops c) (allBatchNumbers c) (events c).

Definition set_status (st : MedicineStatus) (m : Medicine) : Medicine :=
  mkMedicine (id m) (medicineName m) (batchNumber m) (manufacturerId m)
    (manufacturerName m) (mfgDate m) (expiryDate m) (medicineType m) (quantity m)
    (composition m) (shipmentDest m) (price m) st (registeredBy m)
    (registeredAt m) (scanCount m) (exists_ m).

Definition set_scanCount (n : N) (m : Medicine) : Medicine :=
  mkMedicine (id m) (medicineName m) (batchNumber m) (manufacturerId m)
    (manufacturerName m) (mfgDate m) (expiryDate m) (medicineType m) (quantity m)
    (composition m) (shipmentDest m) (price m) (status m) (registeredBy m)
    (registeredAt m) n (exists_ m).

Definition emit_event (e : Event) (c : Contract) : Contract :=
  mkContract (owner c) (medicineCount c) (verificationCount c) (alertCount c)
    (medicines c) (supplyChain c) (verifications c) (alerts c)
    (authorizedManufacturers c) (authorizedDistributors c) (authorizedShops c)
    (allBatchNumbers c) (events c ++ [e]).

Definition push_verification (k : string) (r : VerificationRecord) (c : Contract)
    : Contract :=
  mkContract (owner c) (medicineCount c) (verificationCount c) (alertCount c)
    (medicines c) (supplyChain c)
    (<[k := list_at k (verifications c) ++ [r]]> (verifications c)) (alerts c)
    (authorizedManufacturers c) (authorizedDistributors c) (authorizedShops c)
    (allBatchNumbers c) (events c).

Definition push_supplyChain (k : string) (e : SupplyChainEntry) (c : Contract)
    : Contract :=
  mkContract (owner c) (medicineCount c) (verificationCount c) (alertCount c)
    (medicines c) (<[k := list_at k (supplyChain c) ++ [e]]> (supplyChain c))
    (verifications c) (alerts c)
    (authorizedManufacturers c) (authorizedDistributors c) (authorizedShops c)
    (allBatchNumbers c) (events c).

(** [alertCount++; alerts[alertCount] = CounterfeitAlert(...)]. *)
Definition raise_alert (msg : Msg) (batch reason : string) (c : Contract)
    : Contract :=
  let n := (alertCount c + 1)%N in
  mkContract (owner c) (medicineCount c) (verificationCount c) n
    (medicines c) (supplyChain c) (verifications c)
    (<[n := mkCounterfeitAlert n batch reason (sender msg) (timestamp msg) false]>
       (alerts c))
    (authorizedManufacturers c) (authorizedDistributors c) (authorizedShops c)
    (allBatchNumbers c) (events c).

(** [constructor()]. *)
Definition deploy (msg : Msg) : Contract :=
  mkContract (sender msg) 0 0 0 ∅ ∅ ∅ ∅
    {[ sender msg := true ]} {[ sender msg := true ]} {[ sender msg := true ]}
    [] [].

Definition authorizeManufacturer (msg : Msg) (manufacturer : address) (c : Contract)
    : Result unit :=
  if negb (sender msg =? owner c)%N then
    Revert "Only contract owner can perform this action"
  else
    Success tt
      (emit_event (ManufacturerAuthorized manufacturer (timestamp msg))
         (mkContract (owner c) (medicineCount c) (verificationCount c)
            (alertCount c) (medicines c) (supplyChain c) (verifications c)
            (alerts c) (<[manufacturer := true]> (authorizedManufacturers c))
            (authorizedDistributors c) (authorizedShops c) (allBatchNumbers c)
            (events c))).

Definition registerMedicine (msg : Msg)
    (_medicineName _batchNumber _manufacturerId _manufacturerName _mfgDate
       _expiryDate : string) (c : Contract) : Result unit :=
  if negb (flag_at (sender msg) (authorizedManufacturers c)
           || (sender msg =? owner c)%N) then
    Revert "Not an authorized manufacturer"
  else if exists_ (medicine_at _batchNumber c) then
    Revert "Batch number already registered"
  else if negb (0 <? String.length _batchNumber)%nat then
    Revert "Batch number cannot be empty"
  else if negb (0 <? String.length _medicineName)%nat then
    Revert "Medicine name cannot be empty"
  else if (medicineCount c =? max_uint256)%N then Panic 17
  else
    let count := (medicineCount c + 1)%N in
    let old := medicine_at _batchNumber c in
    let med :=
      mkMedicine count _medicineName _batchNumber _manufacturerId
        _manufacturerName _mfgDate _expiryDate (medicineType old) (quantity old)
        (composition old) (shipmentDest old) (price old) Active (sender msg)
        (timestamp msg) 0 true in
    let c1 :=
      mkContract (owner c) count (verificationCount c) (alertCount c)
        (<[_batchNumber := med]> (medicines c)) (supplyChain c) (verifications c)
        (alerts c) (authorizedManufacturers c) (authorizedDistributors c)
        (authorizedShops c) (allBatchNumbers c ++ [_batchNumber]) (events c) in
    let c2 :=
      push_supplyChain _batchNumber
        (mkSupplyChainEntry Manufactured _manufacturerName "Manufacturing Plant"
           (timestamp msg) (sender msg)) c1 in
    Success tt
      (emit_event (MedicineRegistered _batchNumber _medicineName _manufacturerId
                     (sender msg) (timestamp msg)) c2).

Definition verifyMedicine (msg : Msg) (_batchNumber : string) (c : Contract)
    : Result (bool * string) :=
  if (verificationCount c =? max_uint256)%N then Panic 17
  else
    let c :=
      mkContract (owner c) (medicineCount c) (verificationCount c + 1)
        (alertCount c) (medicines c) (supplyChain c) (verifications c) (alerts c)
        (authorizedManufacturers c) (authorizedDistributors c)
        (authorizedShops c) (allBatchNumbers c) (events c) in
    if negb (exists_ (medicine_at _batchNumber c)) then
      if (alertCount c =? max_uint256)%N then Panic 17
      else
        let c := raise_alert msg _batchNumber "Medicine not found on blockchain" c in
        let c :=
          push_verification _batchNumber
            (mkVerificationRecord (sender msg) (timestamp msg) false
               "NOT FOUND on blockchain") c in
        let c :=
          emit_event (CounterfeitAlertRaised (alertCount c) _batchNumber
                        "Not found on blockchain" (sender msg) (timestamp msg)) c in
        let c :=
          emit_event (MedicineVerified _batchNumber false (sender msg)
                        (timestamp msg)) c in
        Success
          (false, "WARNING: Medicine NOT found on blockchain. Possible counterfeit!")
          c
    else
      let med := medicine_at _batchNumber c in
      if (scanCount med =? max_uint256)%N then Panic 17
      else
        let med := set_scanCount (scanCount med + 1) med in
        let c := set_medicines (<[_batchNumber := med]> (medicines c)) c in
        match status med with
        | Flagged =>
            let c :=
              push_verification _batchNumber
                (mkVerificationRecord (sender msg) (timestamp msg) false
                   "Medicine FLAGGED as suspicious") c in
            Success (false, "WARNING: Medicine has been FLAGGED as suspicious!")
              (emit_event (MedicineVerified _batchNumber false (sender msg)
                             (timestamp msg)) c)
        | Sold =>
            let c :=
              push_verification _batchNumber
                (mkVerificationRecord (sender msg) (timestamp msg) false
                   "Medicine already marked as SOLD") c in
            Success
              (false, "WARNING: Medicine already marked as SOLD. Possible duplicate!")
              (emit_event (MedicineVerified _batchNumber false (sender msg)
                             (timestamp msg)) c)
        | Active | Expired =>
            let c :=
              push_verification _batchNumber
                (mkVerificationRecord (sender msg) (timestamp msg) true
                   "All verification checks passed") c in
            Success (true, "Medicine is AUTHENTIC. All blockchain checks passed.")
              (emit_event (MedicineVerified _batchNumber true (sender msg)
                             (timestamp msg)) c)
        end.

Definition markAsSold (msg : Msg) (_batchNumber : string) (c : Contract)
    : Result unit :=
  if negb (exists_ (medicine_at _batchNumber c)) then
    Revert "Medicine not found on blockchain"
  else
    let med := set_status Sold (medicine_at _batchNumber c) in
    Success tt
      (emit_event (MedicineStatusChanged _batchNumber Sold (timestamp msg))
         (set_medicines (<[_batchNumber := med]> (medicines c)) c)).

Definition flagMedicine (msg : Msg) (_batchNumber _reason : string) (c : Contract)
    : Result unit :=
  let c :=
    if exists_ (medicine_at _batchNumber c)
    then set_medicines
           (<[_batchNumber := set_status Flagged (medicine_at _batchNumber c)]>
              (medicines c)) c
    else c in
  if (alertCount c =? max_uint256)%N then Panic 17
  else
    let c := raise_alert msg _batchNumber _reason c in
    let c :=
      emit_event (CounterfeitAlertRaised (alertCount c) _batchNumber _reason
                    (sender msg) (timestamp msg)) c in
    Success tt
      (emit_event (MedicineStatusChanged _batchNumber Flagged (timestamp msg)) c).

(** [getMedicine]: a view; it reverts for a batch that is not there. *)
Definition getMedicine (_batchNumber : string) (c : Contract) : Result Medicine :=
  if negb (exists_ (medicine_at _batchNumber c)) then Revert "Medicine not found"
  else Success (medicine_at _batchNumber c) c.

End MediChainSol.

(* ===================================================================== *)
(** ** Predicates used in the statements *)
(* ===================================================================== *)

(** Block [cur] carries the digest of its own stored fields. *)
Definition hash_recomputes (cur : Block) : Prop :=
  b_hash cur =
  calculateHash (set_nonce (b_nonce cur)
                   (new_Block (b_index cur) (b_timestamp cur) (b_data cur)
                      (b_previousHash cur))).

(** Every block after the first carries its own digest and the hash of the
    block before it. *)
Definition chain_linked (c : list Block) : Prop :=
  forall (i : nat) (prev cur : Block),
    c !! i = Some prev -> c !! (S i) = Some cur ->
    hash_recomputes cur /\ b_previousHash cur = b_hash prev.

(** The invariant of an initialised engine. *)
Definition chain_sound (e : Engine) : Prop :=
  chain e <> [] /\ isChainValid e = true /\ (1 <= difficulty e)%nat.

(** [c] keeps [I] true of the engine however it ends. *)
Definition keeps {A : Type} (I : Engine -> Prop) (c : M A) : Prop :=
  forall s, I (engine s) ->
    match c s with
    | Ok _ s' => I (engine s')
    | Throw _ s' => I (engine s')
    | Pending | Untyped => True
    end.

(** [c], started where [P] holds, does not throw; when it returns, [Q] holds
    of its result and the state it leaves. *)
Definition returns {A : Type} (P : St -> Prop) (c : M A) (Q : A -> St -> Prop) : Prop :=
  forall s, P s ->
    match c s with
    | Ok a s' => Q a s'
    | Pending => True
    | Throw _ _ | Untyped => False
    end.

(** Relative to [s0], the engine of [s] has [dc] more blocks, [da] more
    alerts and [dt] more transactions. *)
Definition grown (s0 : St) (dc da dt : nat) (s : St) : Prop :=
  chain (engine s) <> [] /\
  List.length (chain (engine s)) = (List.length (chain (engine s0)) + dc)%nat /\
  List.length (alerts (engine s)) = (List.length (alerts (engine s0)) + da)%nat /\
  List.length (transactions (engine s)) =
    (List.length (transactions (engine s0)) + dt)%nat.

(** The names and outcomes of a list of checks. *)
Definition outcomes (checks : list Check) : list (string * bool) :=
  List.map (fun c => (ck_name c, ck_passed c)) checks.

(** The engine was initialised: its chain has a block. *)
Definition live (s : St) : Prop := chain (engine s) <> [].

(** The six checks of [verifyMedicine] on a record that is there, with the
    outcome of each: what [now] and the chain length make of the record. *)
Definition six_checks (H : Host) (now : Z) (chain_length : nat) (m : Medicine)
    : list (string * bool) :=
  [("Blockchain Record Exists", true);
   ("Batch Number Matches", true);
   ("Medicine Not Expired", date_gt (Date_value H (m_get "expiryDate" m)) now);
   ("Not Previously Sold", negb (String.eqb (m_status m) "sold"));
   ("Supply Chain Valid", (0 <? List.length (m_supplyChain m))%nat);
   ("Blockchain Integrity",
    match m_blockNumber m with
    | Some i => (i <? N.of_nat chain_length)%N
    | None => false
    end)].

(** The verdict: every check but the advisory fifth must pass. *)
Definition verdict_of (checks : list (string * bool)) : bool :=
  List.forallb (fun c => String.eqb (fst c) "Supply Chain Valid" || snd c) checks.

(** The record as [search] sees it has string names (and a manufacturer
    name that is a string when it is there at all). *)
Definition named (m : Medicine) : Prop :=
  (exists b, m_get "batchNumber" m = JStr b) /\
  (exists n, m_get "medicineName" m = JStr n) /\
  (truthy (m_get "manufacturerName" m) = true ->
   exists f, m_get "manufacturerName" m = JStr f).

(** The status the engine writes for a status of the contract. *)
Definition status_name (st : MediChainSol.MedicineStatus) : string :=
  match st with
  | MediChainSol.Active => "active"
  | MediChainSol.Sold => "sold"
  | MediChainSol.Expired => "expired"
  | MediChainSol.Flagged => "flagged"
  end.

(** The engine and the contract hold the same thing under batch [b]: both
    nothing, or both a record, with the same status. *)
Definition same_record (e : Engine) (c : MediChainSol.Contract) (b : string) : Prop :=
  match JsMap.get (JStr b) (medicines e) with
  | None => MediChainSol.exists_ (MediChainSol.medicine_at b c) = false
  | Some m =>
      MediChainSol.exists_ (MediChainSol.medicine_at b c) = true /\
      m_status m = status_name (MediChainSol.status (MediChainSol.medicine_at b c))
  end.

(** Whenever [c] returns, [Q] holds of its result and the state it leaves. *)
Definition yields {A : Type} (c : M A) (Q : A -> St -> Prop) : Prop :=
  forall s, match c s with
            | Ok a s' => Q a s'
            | _ => True
            end.

(** A call awaited by its caller does what [c] does, on an engine whose
    medicine map is [m]. *)
Definition agrees {A : Type} (m : list (jsval * Medicine)) (a : Async A) (c : M A) : Prop :=
  forall s, medicines (engine s) = m -> Async.awaited a s = c s.

(** The verdict in the answer of a verification. *)
Definition verdict_in (o : Outcome VerifyResult) : option bool :=
  match o with
  | Ok r _ => Some (vr_isAuthentic r)
  | _ => None
  end.

(* ===================================================================== *)
(** ** JSON values *)
(* ===================================================================== *)

(** No name occurs twice. *)
Fixpoint unique (ks : list string) : bool :=
  match ks with
  | [] => true
  | k :: ks' => negb (List.existsb (String.eqb k) ks') && unique ks'
  end.

(** The values [JSON.stringify] writes without loss, as far as [jsval] has
    them: no [undefined] anywhere, and objects whose property names are
    distinct. A number of [jsval] is an integer; numbers with a fraction
    are JSON values too, and are not among these. *)
Fixpoint json_value (v : jsval) : bool :=
  match v with
  | JUndef => false
  | JNull | JBool _ | JNum _ | JStr _ => true
  | JArr l =>
      (fix all (l : list jsval) : bool :=
         match l with
         | [] => true
         | x :: l' => json_value x && all l'
         end) l
  | JObj o =>
      unique (List.map fst o) &&
      (fix all (o : props) : bool :=
         match o with
         | [] => true
         | (_, x) :: o' => json_value x && all o'
         end) o
  end.

(** Fuel that is enough to parse the text of a value. *)
Fixpoint weight (v : jsval) : nat :=
  match v with
  | JArr l =>
      S ((fix sum (l : list jsval) : nat :=
            match l with
            | [] => O
            | x :: l' => S (weight x + sum l')
            end) l)
  | JObj o =>
      S ((fix sum (o : props) : nat :=
            match o with
            | [] => O
            | (_, x) :: o' => S (weight x + sum o')
            end) o)
  | _ => 1%nat
  end.

Definition weight_list (l : list jsval) : nat :=
  List.fold_right (fun x n => S (weight x + n)) O l.

Definition weight_props (o : props) : nat :=
  List.fold_right (fun kv n => S (weight (snd kv) + n)) O o.

(** The text of an element of an array. *)
Definition element_text (x : jsval) : string :=
  match JSON.stringify x with
  | Some t => t
  | None => "null"
  end.

(** The texts of the members of an object: those whose value is not
    [undefined]. *)
Fixpoint member_texts (o : props) : list string :=
  match o with
  | [] => []
  | (k, x) :: o' =>
      match JSON.stringify x with
      | Some t => (JSON.quote k +:+ ":" +:+ t) :: member_texts o'
      | None => member_texts o'
      end
  end.

(** What may follow the text of a value: nothing, or a comma, or a closing
    bracket or brace. *)
Definition delimited (rest : string) : Prop :=
  match rest with
  | EmptyString => True
  | String c _ =>
      N_of_ascii c = 44%N \/ N_of_ascii c = 93%N \/ N_of_ascii c = 125%N
  end.

(** The keys of a map are pairwise different. *)
Fixpoint distinct_keys {V : Type} (m : list (jsval * V)) : bool :=
  match m with
  | [] => true
  | (k, _) :: m' => negb (JsMap.has k m') && distinct_keys m'
  end.

(** The caller's properties of a record carry none of the engine's own
    property names. *)
Definition own_fields (m : Medicine) : bool :=
  List.forallb (fun kv => negb (is_engine_key (fst kv))) (m_fields m).

(** A state that [save] writes without loss: every value in it is a JSON
    value, the keys of the medicine map are pairwise different, and the
    engine is the initialised engine of the page (a chain with a block, no
    pending transaction, difficulty 2). *)
Definition storable (e : Engine) : bool :=
  json_value (Engine_json e) && distinct_keys (medicines e) &&
  List.forallb (fun kv => own_fields (snd kv)) (medicines e) &&
  negb (List.length (chain e) =? 0)%nat &&
  (List.length (pendingTransactions e) =? 0)%nat && (difficulty e =? 2)%nat.

(** The character of a decimal digit. *)
Definition digit_char (m : N) : ascii := ascii_of_N (48 + m).

(** A text that starts like a value: not with white space, not with a
    closing bracket. *)
Definition starts_value (t : string) : Prop :=
  exists c t', t = String c t' /\ JSONParse.is_ws c = false /\
               (N_of_ascii c =? 93)%N = false.

(** [v] is written, and read back from what was written, whatever follows. *)
Definition reads_back (v : jsval) : Prop :=
  json_value v = true ->
  exists t, JSON.stringify v = Some t /\ starts_value t /\
            forall (fuel : nat) (rest : string),
              (weight v <= fuel)%nat -> delimited rest ->
              JSONParse.parse_value fuel (t +:+ rest) = Some (v, rest).

(* ===================================================================== *)
(** ** What the public operations keep true of the engine *)
(* ===================================================================== *)

Definition block_ok (b : Block) : bool := json_value (b_data b).

Definition checkpoint_ok (c : Checkpoint) : bool :=
  json_value (cp_stage c) && json_value (cp_actor c) && json_value (cp_location c).

(** A record as [registerMedicine] makes it from JSON values: the caller's
    properties are distinct JSON values under names that are not the
    engine's, and the name of the medicine is among them. *)
Definition record_ok (m : Medicine) : bool :=
  own_fields m && unique (List.map fst (m_fields m)) &&
  List.forallb (fun kv => json_value (snd kv)) (m_fields m) &&
  List.forallb checkpoint_ok (m_supplyChain m) &&
  obj_has "medicineName" (m_fields m).

Definition entry_ok (kv : jsval * Medicine) : bool :=
  json_value (fst kv) && record_ok (snd kv).

Definition tx_ok (t : Transaction) : bool :=
  json_value (tx_data t) && json_value (tx_from t) && json_value (tx_to t).

Definition alert_ok (a : Alert) : bool :=
  json_value (al_batchNumber a) && json_value (al_reason a).

(** The engine of the page after any number of calls made with JSON
    values. *)
Definition tidy (e : Engine) : bool :=
  List.forallb block_ok (chain e) && List.forallb entry_ok (medicines e) &&
  distinct_keys (medicines e) && List.forallb tx_ok (transactions e) &&
  List.forallb alert_ok (alerts e) && List.forallb json_value (scanHistory e) &&
  negb (List.length (chain e) =? 0)%nat &&
  (List.length (pendingTransactions e) =? 0)%nat && (difficulty e =? 2)%nat.

Definition Tidy (e : Engine) : Prop := tidy e = true.

(** A value that is its own identity as a key of a [Map] and survives the
    stored text as it is: a string, a number, a boolean or [null]. *)
Definition primitive (v : jsval) : bool :=
  match v with
  | JNull | JBool _ | JNum _ | JStr _ => true
  | JUndef | JArr _ | JObj _ => false
  end.

(** A call whose arguments are JSON values; a registration has a batch
    number that is a primitive, and names the medicine and the
    manufacturer. *)
Definition op_ok (op : Op) : bool :=
  match op with
  | RegisterMedicine d =>
      json_value (JObj d) && primitive (obj_get "batchNumber" d) &&
      obj_has "medicineName" d && obj_has "manufacturerId" d
  | VerifyMedicine b => json_value b
  | TransferMedicine b st a l =>
      json_value b && json_value st && json_value a && json_value l
  | CreateAlert b r => json_value b && json_value r
  end.

(** [c] keeps [I] true of the engine, and what it returns satisfies [Q]. *)
Definition ensures {A : Type} (I : Engine -> Prop) (c : M A) (Q : A -> Prop) : Prop :=
  forall s, I (engine s) ->
    match c s with
    | Ok a s' => I (engine s') /\ Q a
    | Throw _ s' => I (engine s')
    | Pending | Untyped => True
    end.

(* ===================================================================== *)
(** ** Concrete inputs used by the witnesses and counterexamples *)
(* ===================================================================== *)

Module Sample.

Definition genesis_hash : string :=
  "550ba857b01c288623fe30c548d74ad614bc1f65dd10a8fdcb8246952e947775".

Definition alert_payload : jsval :=
  JObj [("type", JStr "counterfeit_alert"); ("batchNumber", JStr "B-404");
        ("reason", JStr "Medicine not found on blockchain");
        ("txHash", JStr "0x00")].

(** A candidate block whose digest with nonce 0 already starts with two
    zeros. *)
Definition lucky_block : Block :=
  new_Block 1 "2026-11-02T00:00:05.053Z" alert_payload genesis_hash.

(** What [mineBlock(2)] turns it into. *)
Definition lucky_block_mined : Block :=
  mkBlock 1 "2026-11-02T00:00:05.053Z" alert_payload genesis_hash
    "000dd1fded5ae847240e2a84b9f3e3571380e3601ad7f1e6be22d0bf9d9a06da" 3.

(** A candidate block mined at the second attempt. *)
Definition plain_block : Block :=
  new_Block 1 "2026-11-02T00:00:00.112Z" alert_payload genesis_hash.

Definition plain_block_mined : Block :=
  mkBlock 1 "2026-11-02T00:00:00.112Z" alert_payload genesis_hash
    "0055f67655c2f87ab85f8f635fade9d0dc2cc26fccf242c205e99c77bbe7d679" 2.

(** A host for the examples. Its [Date.parse] reads the date-only form
    [YYYY-MM-DD] (UTC midnight) and answers [NaN] to anything else; its
    [toLowerCase] lowers the ASCII letters. *)
Definition digit (c : ascii) : option Z :=
  option_map Z.of_N (JSONParse.digit_val c).

Definition days_from_civil (y m d : Z) : Z :=
  let y := (if m <=? 2 then y - 1 else y)%Z in
  let era := (y / 400)%Z in
  let yoe := (y - era * 400)%Z in
  let doy := ((153 * (if 2 <? m then m - 3 else m + 9) + 2) / 5 + d - 1)%Z in
  let doe := (yoe * 365 + yoe / 4 - yoe / 100 + doy)%Z in
  (era * 146097 + doe - 719468)%Z.

Definition iso_date (s : string) : option Z :=
  match List.map digit (list_ascii_of_string s) with
  | [Some y1; Some y2; Some y3; Some y4; None; Some m1; Some m2; None;
     Some d1; Some d2] =>
      let y := (y1 * 1000 + y2 * 100 + y3 * 10 + y4)%Z in
      let m := (m1 * 10 + m2)%Z in
      let d := (d1 * 10 + d2)%Z in
      if String.eqb (String.substring 4 1 s) "-" && String.eqb (String.substring 7 1 s) "-"
         && (1 <=? m)%Z && (m <=? 12)%Z && (1 <=? d)%Z
         && (let '(y', m', d') := Time.civil (days_from_civil y m d) in
             (y' =? y)%Z && (m' =? m)%Z && (d' =? d)%Z)
      then Some (days_from_civil y m d * 86400000)%Z
      else None
  | _ => None
  end.

Definition ascii_lower (c : ascii) : ascii :=
  let n := N_of_ascii c in
  if (65 <=? n)%N && (n <=? 90)%N then ascii_of_N (n + 32) else c.

Fixpoint lower (s : string) : string :=
  match s with
  | EmptyString => ""
  | String c s' => String (ascii_lower c) (lower s')
  end.

(** The host whose clock gives [readings] in turn, and one millisecond more
    per reading after the last of them. *)
Definition host (readings : list Z) : Host :=
  mkHost
    (fun k => (List.nth k readings
                 (List.last readings 0%Z + Z.of_nat (k - List.length readings) + 1))%Z)
    (fun k => List.nth k ["k3f9x2ab"; "0t7dq1zm"; "z81hb4yw"; "5p0c3n6e"] "9a8b7c6d")
    iso_date lower.

(** What the registration form of the dashboard sends. *)
Definition amoxicillin (batch expiry : string) : props :=
  [("medicineName", JStr "Amoxicillin"); ("batchNumber", JStr batch);
   ("manufacturerId", JStr "MFG-7"); ("manufacturerName", JStr "Acme Pharma");
   ("mfgDate", JStr "2026-01-15"); ("expiryDate", JStr expiry);
   ("type", JStr "tablet"); ("quantity", JNum 100);
   ("composition", JStr "Amoxicillin 500mg"); ("shipmentDest", JStr "Pune");
   ("price", JStr "12.50")].

(** The genesis block of the examples. *)
Definition genesis : Block :=
  mkBlock 0 "2026-11-02T00:00:00.000Z"
    (JObj [("type", JStr "genesis"); ("message", JStr "MediChain Genesis Block")])
    "0" genesis_hash 0.

(** A record that was sold and has expired. *)
Definition sold_record : Medicine :=
  mkMedicine (amoxicillin "B-009" "2020-01-01") "2019-03-01T08:00:00.000Z" "sold" 3
    [mkCheckpoint (JStr "Manufactured") (JStr "Acme Pharma")
       (JStr "Manufacturing Plant") "2019-03-01T08:00:00.000Z" "0x00"]
    [] (Some genesis_hash) (Some 0%N).

(** An initialised engine holding that record. *)
Definition shelf : St :=
  mkSt (mkEngine [genesis] [] [(JStr "B-009", sold_record)] [] [] [] 2) None 0 0.

(** The first reading of the clock in the examples:
    2026-11-02T00:00:00.000Z. *)
Definition t0 : Z := 1793577600000.

Definition state_of {A : Type} (o : Outcome A) (otherwise : St) : St :=
  match o with
  | Ok _ s => s
  | _ => otherwise
  end.

(** *** Register, verify, verify an unknown batch *)

Definition main_host : Host :=
  host [1793577600000; 1793577600001; 1793577600002; 1793577600003; 1793577600004;
        1793577600070; 1793577600071; 1793577600072; 1793577600073; 1793577600074;
        1793577600163; 1793577600164; 1793577600165; 1793577600166; 1793577600167;
        1793577600168; 1793577600391; 1793577600392; 1793577600393; 1793577600395]%Z.

Definition main_ops : list Op :=
  [RegisterMedicine (amoxicillin "B-001" "2027-11-01");
   VerifyMedicine (JStr "B-001"); VerifyMedicine (JStr "UNKNOWN-1")].

Definition main_boot : St :=
  Eval vm_compute in state_of (initialize main_host (boot None)) (boot None).

Definition main_final : St :=
  Eval vm_compute in default main_boot (calls main_host 2 main_ops main_boot).

(** *** Verifying the sold, expired record *)

Definition shelf_host : Host :=
  host [1793577660000; 1793577660001; 1793577660002; 1793577660003; 1793577660343;
        1793577660344; 1793577660345; 1793577660346; 1793577660347; 1793577660348;
        1793577660394]%Z.

(** *** Verifying an unknown batch on a new engine *)

Definition unknown_host : Host :=
  host [1793577600000; 1793577600001; 1793577600002; 1793577600003; 1793577600004;
        1793577600087; 1793577600088; 1793577600089; 1793577600160]%Z.

Definition unknown_boot : St :=
  Eval vm_compute in state_of (initialize unknown_host (boot None)) (boot None).

Definition unknown_after : St :=
  Eval vm_compute in
    state_of (verifyMedicine unknown_host 2 (JStr "UNKNOWN-1") unknown_boot) unknown_boot.

(** *** Registering a batch that has expired, in the engine and in the
    contract *)

Definition expired_host : Host :=
  host [1793577600000; 1793577600001; 1793577600002; 1793577600003; 1793577600004;
        1793577600166; 1793577600167; 1793577600168; 1793577600169; 1793577600170;
        1793577600222; 1793577600223; 1793577600224; 1793577600225; 1793577600226;
        1793577600227; 1793577600510]%Z.

Definition expired_boot : St :=
  Eval vm_compute in state_of (initialize expired_host (boot None)) (boot None).

Definition expired_registered : St :=
  Eval vm_compute in
    state_of (registerMedicine expired_host 2 (amoxicillin "B-002" "2020-01-01")
                expired_boot) expired_boot.

Definition alice : MediChainSol.Msg := MediChainSol.mkMsg 1002%N 1793577600%N.

Definition contract_of {A : Type} (r : MediChainSol.Result A)
    (otherwise : MediChainSol.Contract) : MediChainSol.Contract :=
  match r with
  | MediChainSol.Success _ c => c
  | _ => otherwise
  end.

Definition expired_contract : MediChainSol.Contract :=
  contract_of
    (MediChainSol.registerMedicine alice "Amoxicillin" "B-002" "MFG-7" "Acme Pharma"
       "2026-01-15" "2020-01-01" (MediChainSol.deploy alice))
    (MediChainSol.deploy alice).

(** *** Registering with an empty batch identifier and an empty name *)

Definition blank_host : Host :=
  host [1793577600000; 1793577600001; 1793577600002; 1793577600003; 1793577600004;
        1793577600060]%Z.

Definition blank_data : props :=
  [("medicineName", JStr ""); ("batchNumber", JStr ""); ("manufacturerId", JStr "MFG-7");
   ("manufacturerName", JStr "Acme Pharma"); ("mfgDate", JStr "2026-01-15");
   ("expiryDate", JStr "2027-11-01")].

Definition blank_boot : St :=
  Eval vm_compute in state_of (initialize blank_host (boot None)) (boot None).

Definition blank_after : St :=
  Eval vm_compute in
    state_of (registerMedicine blank_host 2 blank_data blank_boot) blank_boot.

(** *** Registering without a medicine name *)

Definition nameless_host : Host :=
  host [1793577600000; 1793577600001; 1793577600002; 1793577600003; 1793577600004;
        1793577600043]%Z.

Definition nameless_data : props :=
  [("batchNumber", JStr "B-7"); ("manufacturerId", JStr "MFG-7");
   ("expiryDate", JStr "2027-11-01")].

Definition nameless_boot : St :=
  Eval vm_compute in state_of (initialize nameless_host (boot None)) (boot None).

Definition nameless_after : St :=
  Eval vm_compute in
    state_of (registerMedicine nameless_host 2 nameless_data nameless_boot)
      nameless_boot.

(** *** Registering with a composition list that has an unfilled entry
    and with no price set, then loading the page again *)

Definition listed_data : props :=
  [("medicineName", JStr "Amoxicillin"); ("batchNumber", JStr "B-001");
   ("manufacturerId", JStr "MFG-7"); ("manufacturerName", JStr "Acme Pharma");
   ("mfgDate", JStr "2026-01-15"); ("expiryDate", JStr "2027-11-01");
   ("type", JStr "tablet"); ("quantity", JNum 100);
   ("composition", JArr [JStr "Amoxicillin 500mg"; JUndef]);
   ("shipmentDest", JStr "Pune"); ("price", JUndef)].

Definition listed_after : St :=
  Eval vm_compute in
    state_of (registerMedicine main_host 2 listed_data main_boot) main_boot.

Definition listed_reloaded : St :=
  Eval vm_compute in
    state_of (initialize main_host (boot (storage listed_after))) listed_after.

(** *** One scan of the code of a registered batch: the scanner page
    verifies the batch twice, the second call made while the first is
    suspended *)

Definition scan_host : Host :=
  host [1793577600000; 1793577600001; 1793577600002; 1793577600003; 1793577600004;
        1793577600070; 1793577600071; 1793577600072; 1793577600073; 1793577600074;
        1793577600075; 1793577600076; 1793577600077; 1793577600078; 1793577600163;
        1793577600255]%Z.

Definition scan_boot : St :=
  Eval vm_compute in state_of (initialize scan_host (boot None)) (boot None).

Definition scan_registered : St :=
  Eval vm_compute in
    state_of (registerMedicine scan_host 2 (amoxicillin "B-001" "2027-11-01") scan_boot)
      scan_boot.

Definition scan_calls : list (Async VerifyResult) :=
  [Async.verifyMedicine scan_host 2 (JStr "B-001");
   Async.verifyMedicine scan_host 2 (JStr "B-001")].

Definition scan_final : St :=
  Eval vm_compute in
    match Async.run scan_calls (Async.in_turn 2 24) scan_registered with
    | Some (_, s) => s
    | None => scan_registered
    end.

End Sample.

(* ===================================================================== *)
(** * Facts *)
(* ===================================================================== *)

(** ** Test vectors for the platform functions *)

Example sha256_abc :
  sha256 "abc" = "ba7816bf8f01cfea414140de5dae2223b00361a396177a9cb410ff61f20015ad".
Proof. vm_compute. reflexivity. Qed.

Example sha256_empty :
  sha256 "" = "e3b0c44298fc1c149afbf4c8996fb92427ae41e4649b934ca495991b7852b855".
Proof. vm_compute. reflexivity. Qed.

Example sha256_two_blocks :
  sha256 "abcdbcdecdefdefgefghfghighijhijkijkljklmklmnlmnomnopnopq"
  = "248d6a61d20638b8e5c026930c3e6039a33ce45964ff2167f6ecedd419db06c1".
Proof. vm_compute. reflexivity. Qed.

Example of_N_samples :
  (Text.of_N 0, Text.of_N 7, Text.of_N 10, Text.of_N 1234567890123)
  = ("0", "7", "10", "1234567890123").
Proof. vm_compute. reflexivity. Qed.

Example stringify_sample :
  JSON.stringify
    (JObj [("type", JStr "genesis"); ("n", JNum (-12)); ("gone", JUndef);
           ("l", JArr [JUndef; JBool true;
                       JStr (Text.quoted "a'b" +:+ String (ascii_of_N 10) "")])])
  = Some (Text.quoted "{'type':'genesis','n':-12,'l':[null,true,'a\'b\n']}").
Proof. vm_compute. reflexivity. Qed.

Example toISOString_samples :
  List.map Time.toISOString
    [0; 1700000000000; 951868799999; 1709164800123; -1; 4102444800000]%Z
  = [ "1970-01-01T00:00:00.000Z"; "2023-11-14T22:13:20.000Z";
      "2000-02-29T23:59:59.999Z"; "2024-02-29T00:00:00.123Z";
      "1969-12-31T23:59:59.999Z"; "2100-01-01T00:00:00.000Z" ].
Proof. vm_compute. reflexivity. Qed.

(* ===================================================================== *)
(** ** Proof of work *)
(* ===================================================================== *)

Section Mining.

Lemma digest_at_set_hash (b : Block) (h : string) (n : N) :
  digest_at (set_hash h b) n = digest_at b n.
Proof. reflexivity. Qed.

Lemma digest_at_set_nonce (b : Block) (k n : N) :
  digest_at (set_nonce k b) n = digest_at b n.
Proof. reflexivity. Qed.

Lemma meets_empty (d : nat) : (1 <= d)%nat -> meets d "" = false.
Proof. destruct d as [|d]; [lia | reflexivity]. Qed.

(** The loop, entered with a hash that misses the target: it stops at the
    first nonce above the current one whose digest meets the target. *)
Lemma mineBlock_loop (fuel d : nat) :
  forall b b',
    meets d (b_hash b) = false ->
    (mineBlock fuel d b = Some b' <->
     exists n, (b_nonce b < n <= b_nonce b + N.of_nat fuel)%N /\
               b' = mined_at b n /\
               meets d (digest_at b n) = true /\
               forall m, (b_nonce b < m < n)%N -> meets d (digest_at b m) = false).
Proof.
  induction fuel as [|fuel IH]; intros b b' Hmiss.
  - simpl. rewrite Hmiss. split; [discriminate|].
    intros (n & Hn & _). lia.
  - cbn [mineBlock]. rewrite Hmiss.
    set (b1 := set_nonce (b_nonce b + 1) b).
    set (b2 := set_hash (calculateHash b1) b1).
    destruct (meets d (b_hash b2)) eqn:Hnext.
    + (* the very next nonce does it *)
      assert (Hstop : mineBlock fuel d b2 = Some b2).
      { destruct fuel; cbn [mineBlock]; rewrite Hnext; reflexivity. }
      rewrite Hstop. split.
      * intros [= <-]. exists (b_nonce b + 1)%N.
        repeat split; try lia; exact Hnext.
      * intros (n & Hn & -> & Hok & Hleast).
        destruct (N.eq_dec n (b_nonce b + 1)%N) as [->|Hne]; [reflexivity|].
        assert (Hc : meets d (digest_at b (b_nonce b + 1)%N) = false)
          by (apply Hleast; lia).
        change (digest_at b (b_nonce b + 1)%N) with (b_hash b2) in Hc.
        congruence.
    + rewrite (IH b2 b' Hnext). change (b_nonce b2) with (b_nonce b + 1)%N.
      split.
      * intros (n & Hn & -> & Hok & Hleast). exists n.
        repeat split; try lia; try exact Hok.
        intros m Hm.
        destruct (N.eq_dec m (b_nonce b + 1)%N) as [->|Hne]; [exact Hnext|].
        apply Hleast; lia.
      * intros (n & Hn & -> & Hok & Hleast).
        assert (n <> b_nonce b + 1)%N.
        { intros ->. change (digest_at b (b_nonce b + 1)%N) with (b_hash b2) in Hok.
          congruence. }
        exists n. repeat split; try lia; try exact Hok.
        intros m Hm. change (meets d (digest_at b m) = false).
        apply Hleast; lia.
Qed.

End Mining.

(** C7, as the code has it. For a difficulty of at least one, [mineBlock] on
    a freshly constructed block tries the nonces 1, 2, 3, ... in turn (nonce 0
    is never hashed) and returns, as soon as the fuel reaches it, the block
    carrying the least nonce [n >= 1] whose digest over index, previousHash,
    timestamp, payload and [n] starts with [difficulty] zero characters,
    together with that digest; it returns nothing else. *)
Theorem mineBlock_least_nonce_from_one :
  forall (fuel difficulty : nat) (index : N) (timestamp : string) (data : jsval)
         (previousHash : string) (b' : Block),
    (1 <= difficulty)%nat ->
    let b := new_Block index timestamp data previousHash in
    mineBlock fuel difficulty b = Some b' <->
    (b' = mkBlock index timestamp data previousHash
            (digest_at b (b_nonce b')) (b_nonce b') /\
     (b_nonce b' <= N.of_nat fuel)%N /\
     least_nonce_from 1 difficulty b b').
Proof.
  intros fuel d index ts data prev b' Hd b.
  rewrite (mineBlock_loop fuel d b b' (meets_empty d Hd)).
  unfold least_nonce_from. change (b_nonce b) with 0%N. split.
  - intros (n & Hn & -> & Hok & Hleast). cbn [mined_at b_nonce set_hash set_nonce].
    repeat split; try lia; try exact Hok.
    intros m Hm. apply Hleast. lia.
  - intros (Hb & Hfuel & Hone & Hok & Hleast). exists (b_nonce b').
    repeat split; try lia; try exact Hok.
    + rewrite Hb at 1. reflexivity.
    + intros m Hm. apply Hleast. lia.
Qed.

(** The theorem at work: a block mined at the second attempt. *)
Lemma mineBlock_least_nonce_from_one_witness :
  mineBlock 5 2 Sample.plain_block = Some Sample.plain_block_mined.
Proof.
  apply (proj2 (mineBlock_least_nonce_from_one 5 2 1 "2026-11-02T00:00:00.112Z"
                  Sample.alert_payload Sample.genesis_hash Sample.plain_block_mined
                  ltac:(lia))).
  split; [vm_compute; reflexivity|].
  split; [vm_compute; discriminate|].
  split; [vm_compute; discriminate|].
  split; [vm_compute; reflexivity|].
  intros m Hm. change (b_nonce Sample.plain_block_mined) with 2%N in Hm.
  assert (m = 1%N) as -> by lia.
  vm_compute; reflexivity.
Defined.

(** C7 as stated fails: the digest of [Sample.lucky_block] with nonce 0
    already starts with two zeros, yet [mineBlock(2)] returns nonce 3, which
    is not the least nonce from 0 on. *)
Lemma mineBlock_skips_nonce_zero :
  mineBlock 5 2 Sample.lucky_block = Some Sample.lucky_block_mined /\
  meets 2 (digest_at Sample.lucky_block 0) = true /\
  ~ least_nonce_from 0 2 Sample.lucky_block Sample.lucky_block_mined.
Proof.
  split; [vm_compute; reflexivity|].
  split; [vm_compute; reflexivity|].
  intros (_ & _ & Hleast).
  specialize (Hleast 0%N ltac:(vm_compute; split; [discriminate | reflexivity])).
  vm_compute in Hleast. discriminate.
Qed.

(* ===================================================================== *)
(** ** Values, objects and maps *)
(* ===================================================================== *)

Section ValueFacts.

Lemma jsval_eqb_refl (x : jsval) : jsval_eqb x x = true.
Proof.
  induction x as [| |b|z|s|l IH|o IH] using jsval_ind; cbn [jsval_eqb].
  - reflexivity.
  - reflexivity.
  - destruct b; reflexivity.
  - apply Z.eqb_refl.
  - apply String.eqb_refl.
  - induction IH as [|x l Hx _ IHl]; [reflexivity|]. rewrite Hx. exact IHl.
  - induction IH as [|[k x] o Hx _ IHo]; [reflexivity|].
    cbn [snd] in Hx. rewrite String.eqb_refl, Hx. exact IHo.
Qed.

Lemma jsval_eqb_eq (x y : jsval) : jsval_eqb x y = true <-> x = y.
Proof.
  split; [|intros <-; apply jsval_eqb_refl].
  revert y.
  induction x as [| |b|z|s|l IH|o IH] using jsval_ind;
    intros [| |b'|z'|s'|l'|o']; cbn [jsval_eqb]; try discriminate; try reflexivity.
  - intros Hb. apply Bool.eqb_prop in Hb. congruence.
  - intros Hz. apply Z.eqb_eq in Hz. congruence.
  - intros Hs. apply String.eqb_eq in Hs. congruence.
  - intros Hl. f_equal. revert l' Hl.
    induction IH as [|x l Hx _ IHl]; intros [|y l'] Hl; try discriminate;
      [reflexivity|].
    apply andb_prop in Hl as [Hxy Hl]. f_equal; [apply Hx; exact Hxy|].
    apply IHl; exact Hl.
  - intros Ho. f_equal. revert o' Ho.
    induction IH as [|[k x] o Hx _ IHo]; intros [|[k' y] o'] Ho; try discriminate;
      [reflexivity|].
    apply andb_prop in Ho as [Hk Ho]. apply andb_prop in Hk as [Hk Hxy].
    apply String.eqb_eq in Hk. cbn [snd] in Hx. apply Hx in Hxy. subst.
    f_equal. apply IHo; exact Ho.
Qed.

Lemma jsval_eqb_neq (x y : jsval) : jsval_eqb x y = false <-> x <> y.
Proof.
  rewrite <- jsval_eqb_eq. destruct (jsval_eqb x y); split; congruence.
Qed.

Lemma obj_get_filter (k : string) (keep : string -> bool) (o : props) :
  keep k = true ->
  obj_get k (List.filter (fun kv => keep (fst kv)) o) = obj_get k o.
Proof.
  intros Hk. induction o as [|[k' v] o IH]; [reflexivity|].
  cbn [List.filter fst obj_get].
  destruct (String.eqb k k') eqn:Heq.
  - apply String.eqb_eq in Heq. subst k'. rewrite Hk. cbn [obj_get].
    rewrite String.eqb_refl. reflexivity.
  - destruct (keep k'); [cbn [obj_get]; rewrite Heq|]; exact IH.
Qed.

End ValueFacts.

Section JsMapFacts.
Context {V : Type}.

Lemma get_set_same (k : jsval) (v : V) (m : list (jsval * V)) :
  JsMap.get k (JsMap.set k v m) = Some v.
Proof.
  induction m as [|[k' v'] m IH]; cbn [JsMap.set JsMap.get].
  - rewrite jsval_eqb_refl. reflexivity.
  - destruct (jsval_eqb k k') eqn:Heq; cbn [JsMap.get]; rewrite Heq;
      [reflexivity | exact IH].
Qed.

End JsMapFacts.

(* ===================================================================== *)
(** ** The chain stays valid *)
(* ===================================================================== *)

Section ChainFacts.
Context (H : Host) (fuel : nat).

Local Open Scope engine_scope.

Lemma keeps_ret {A} (I : Engine -> Prop) (a : A) : keeps I (ret a).
Proof. intros s Hs; exact Hs. Qed.

Lemma keeps_throw {A} (I : Engine -> Prop) (e : JsError) : keeps I (@throw A e).
Proof. intros s Hs; exact Hs. Qed.

Lemma keeps_bind {A B} (I : Engine -> Prop) (c : M A) (k : A -> M B) :
  keeps I c -> (forall a, keeps I (k a)) -> keeps I (bind c k).
Proof.
  intros Hc Hk s Hs. unfold bind. specialize (Hc s Hs).
  destruct (c s) as [a s'| e s'| |]; trivial.
  apply Hk; exact Hc.
Qed.

Lemma keeps_this (I : Engine -> Prop) : keeps I this.
Proof. intros s Hs; exact Hs. Qed.

Lemma keeps_Date_now (I : Engine -> Prop) : keeps I (Date_now H).
Proof. intros s Hs; exact Hs. Qed.

Lemma keeps_now_iso (I : Engine -> Prop) : keeps I (now_iso H).
Proof. intros s Hs; exact Hs. Qed.

Lemma keeps_random (I : Engine -> Prop) : keeps I (Math_random36 H).
Proof. intros s Hs; exact Hs. Qed.

Lemma keeps_save (I : Engine -> Prop) : keeps I save.
Proof. intros s Hs; exact Hs. Qed.

Lemma keeps_emit (I : Engine -> Prop) (ev : string) : keeps I (emit ev).
Proof. intros s Hs; exact Hs. Qed.

Lemma keeps_update (I : Engine -> Prop) (f : Engine -> Engine) :
  (forall e, I e -> I (f e)) -> keeps I (update f).
Proof. intros Hf s Hs; apply Hf; exact Hs. Qed.

Lemma keeps_new_Transaction (I : Engine -> Prop) ty d f t :
  keeps I (new_Transaction H ty d f t).
Proof. intros s Hs; exact Hs. Qed.

(** *** Appending a mined block *)

Lemma last_cons {A} (x : A) (l : list A) (d : A) :
  List.last (x :: l) d = List.last l x.
Proof.
  revert x d. induction l as [|y l IH]; intros x d; [reflexivity|].
  change (List.last (x :: y :: l) d) with (List.last (y :: l) d).
  rewrite (IH y d), (IH y x). reflexivity.
Qed.

Lemma isChainValid_from_app (prev : Block) (rest : list Block) (nb : Block) :
  isChainValid_from prev (rest ++ [nb]) =
  isChainValid_from prev rest &&
  isChainValid_from (List.last rest prev) [nb].
Proof.
  revert prev. induction rest as [|cur rest IH]; intros prev.
  - cbn [app List.last isChainValid_from andb]. reflexivity.
  - cbn [app isChainValid_from].
    destruct (negb (String.eqb (b_hash cur) _)); [reflexivity|].
    destruct (negb (String.eqb (b_previousHash cur) _)); [reflexivity|].
    rewrite IH, (last_cons cur rest prev). reflexivity.
Qed.

Lemma last_map_Some (c : list Block) (d : Block) :
  c <> [] -> List.last (List.map Some c) None = Some (List.last c d).
Proof.
  induction c as [|x c IH]; [congruence|]. intros _.
  destruct c as [|y c]; [reflexivity|].
  change (List.last (List.map Some (x :: y :: c)) None)
    with (List.last (List.map Some (y :: c)) None).
  change (List.last (x :: y :: c) d) with (List.last (y :: c) d).
  apply IH. congruence.
Qed.

Lemma mined_block_sound (d : nat) (b b' : Block) :
  (1 <= d)%nat -> b_hash b = "" -> b_nonce b = 0%N ->
  mineBlock fuel d b = Some b' ->
  hash_recomputes b' /\ b_previousHash b' = b_previousHash b /\
  b_index b' = b_index b.
Proof.
  intros Hd Hh Hn Hm.
  apply mineBlock_loop in Hm; [|rewrite Hh; apply meets_empty; exact Hd].
  destruct Hm as (n & _ & -> & _ & _). repeat split.
Qed.

Lemma hash_recomputes_valid (prev nb : Block) :
  hash_recomputes nb -> b_previousHash nb = b_hash prev ->
  isChainValid_from prev [nb] = true.
Proof.
  intros Hh Hp. cbn [isChainValid_from].
  unfold hash_recomputes in Hh. rewrite <- Hh, Hp.
  rewrite !String.eqb_refl. reflexivity.
Qed.

Lemma keeps_addBlock (data : jsval) : keeps chain_sound (addBlock H fuel data).
Proof.
  intros s (Hne & Hvalid & Hd).
  cbv [addBlock bind this now_iso Date_now mine update save emit ret].
  cbn [engine].
  destruct (chain (engine s)) as [|g rest] eqn:Hc; [congruence|].
  unfold getLatestBlock. rewrite Hc.
  rewrite (last_map_Some (g :: rest) g) by congruence.
  match goal with
  | |- context [mineBlock fuel ?d ?b] =>
      destruct (mineBlock fuel d b) as [nb|] eqn:Hm; [|exact I]
  end.
  apply mined_block_sound in Hm; [|exact Hd|reflexivity|reflexivity].
  destruct Hm as (Hh & Hp & _). cbn [b_previousHash new_Block] in Hp.
  cbn [engine with_chain chain difficulty]. rewrite Hc.
  split; [destruct rest; discriminate|]. split; [|exact Hd].
  unfold isChainValid in *. rewrite Hc in Hvalid.
  cbn [chain with_chain]. change (isChainValid_from g (rest ++ [nb]) = true).
  rewrite isChainValid_from_app, Hvalid. cbn [andb].
  apply hash_recomputes_valid; [exact Hh|].
  rewrite Hp, last_cons. reflexivity.
Qed.

Lemma chain_sound_with_medicines m e :
  chain_sound e -> chain_sound (with_medicines m e).
Proof. exact (fun x => x). Qed.
Lemma chain_sound_with_transactions t e :
  chain_sound e -> chain_sound (with_transactions t e).
Proof. exact (fun x => x). Qed.
Lemma chain_sound_with_alerts a e :
  chain_sound e -> chain_sound (with_alerts a e).
Proof. exact (fun x => x). Qed.
Lemma chain_sound_with_scanHistory h e :
  chain_sound e -> chain_sound (with_scanHistory h e).
Proof. exact (fun x => x). Qed.

End ChainFacts.

Create HintDb keeps.
#[local] Hint Resolve keeps_ret keeps_throw keeps_this keeps_Date_now keeps_now_iso
  keeps_random keeps_save keeps_emit keeps_new_Transaction keeps_addBlock
  chain_sound_with_medicines chain_sound_with_transactions chain_sound_with_alerts
  chain_sound_with_scanHistory : keeps.

(** Walks the code of an operation: one rule per construct. *)
Ltac keeps_step :=
  match goal with
  | |- keeps _ (bind _ _) => apply keeps_bind; [|intros ?]
  | |- keeps _ (update _) => apply keeps_update; intros ? ?
  | |- keeps _ (push_transaction _) => apply keeps_update; intros ? ?
  | |- keeps _ (if ?b then _ else _) => destruct b
  | |- keeps _ (match ?x with _ => _ end) => destruct x
  | |- _ => solve [eauto with keeps]
  end.

Section Operations.
Context (H : Host) (fuel : nat).

Lemma keeps_createAlert b r : keeps chain_sound (createAlert H fuel b r).
Proof. unfold createAlert. repeat keeps_step. Qed.

Lemma keeps_registerMedicine d : keeps chain_sound (registerMedicine H fuel d).
Proof. unfold registerMedicine. repeat keeps_step. Qed.

Lemma keeps_transferMedicine b st a l :
  keeps chain_sound (transferMedicine H fuel b st a l).
Proof. unfold transferMedicine. repeat keeps_step. Qed.

Lemma keeps_verifyMedicine b : keeps chain_sound (verifyMedicine H fuel b).
Proof.
  pose proof keeps_createAlert as Ha.
  unfold verifyMedicine. repeat keeps_step.
Qed.

Lemma call_sound (op : Op) (s s' : St) :
  chain_sound (engine s) -> call H fuel op s = Some s' -> chain_sound (engine s').
Proof.
  intros Hs Hcall. destruct op as [d|b|b st a l|b r]; cbn [call] in Hcall.
  - pose proof (keeps_registerMedicine d s Hs) as Hk.
    destruct (registerMedicine H fuel d s); cbn in Hcall; congruence.
  - pose proof (keeps_verifyMedicine b s Hs) as Hk.
    destruct (verifyMedicine H fuel b s); cbn in Hcall; congruence.
  - pose proof (keeps_transferMedicine b st a l s Hs) as Hk.
    destruct (transferMedicine H fuel b st a l s); cbn in Hcall; congruence.
  - pose proof (keeps_createAlert b r s Hs) as Hk.
    destruct (createAlert H fuel b r s); cbn in Hcall; congruence.
Qed.

Lemma calls_sound (ops : list Op) :
  forall s s', chain_sound (engine s) -> calls H fuel ops s = Some s' ->
               chain_sound (engine s').
Proof.
  induction ops as [|op ops IH]; intros s s' Hs Hrun; cbn [calls] in Hrun.
  - congruence.
  - destruct (call H fuel op s) as [s1|] eqn:Hc; [|discriminate].
    eapply IH; [|exact Hrun]. eapply call_sound; eauto.
Qed.

(** What [isChainValid] computes. *)
Lemma isChainValid_from_linked (rest : list Block) :
  forall prev, isChainValid_from prev rest = true -> chain_linked (prev :: rest).
Proof.
  induction rest as [|cur rest IH]; intros prev Hv i p c Hp Hc.
  - destruct i; discriminate.
  - cbn [isChainValid_from] in Hv.
    destruct (String.eqb (b_hash cur) _) eqn:Hh; [|discriminate].
    destruct (String.eqb (b_previousHash cur) (b_hash prev)) eqn:Hl; [|discriminate].
    cbn [negb] in Hv.
    destruct i as [|i].
    + cbn in Hp, Hc. injection Hp as <-. injection Hc as <-.
      split; [apply String.eqb_eq; exact Hh | apply String.eqb_eq; exact Hl].
    + apply (IH cur Hv i p c); [exact Hp | exact Hc].
Qed.

End Operations.

Section Boot.
Context (H : Host) (fuel : nat).

Lemma keeps_try_catch {A} (I : Engine -> Prop) (c handler : M A) :
  keeps I c -> keeps I handler -> keeps I (try_catch c handler).
Proof.
  intros Hc Hh s Hs. unfold try_catch. specialize (Hc s Hs).
  destruct (c s) as [a s'|e s'| |]; try exact Hc. apply Hh; exact Hc.
Qed.

Lemma keeps_typed {A} (I : Engine -> Prop) (x : option A) : keeps I (typed x).
Proof. destruct x; intros s Hs; [exact Hs | exact Logic.I]. Qed.

Lemma keeps_member (I : Engine -> Prop) k data : keeps I (member k data).
Proof. destruct data; intros st Hst; exact Hst. Qed.

Lemma keeps_new_Map (I : Engine -> Prop) v : keeps I (new_Map v).
Proof.
  unfold new_Map. destruct v; try (intros st Hst; exact Hst).
  destruct (Typed.as_list Typed.entry_of l); [|intros st Hst; exact Hst].
  apply keeps_bind; [apply keeps_typed | intros a st Hst; exact Hst].
Qed.

(** Nothing in [initialize] touches the difficulty. *)
Lemma keeps_difficulty_initialize (d : nat) :
  keeps (fun e => difficulty e = d) (initialize H).
Proof.
  assert (Hg : keeps (fun e => difficulty e = d) (createGenesisBlock H)).
  { unfold createGenesisBlock. repeat keeps_step. }
  unfold initialize. apply keeps_bind; [intros s Hs; exact Hs | intros s0].
  apply keeps_bind; [|intros _].
  - destruct (storage s0) as [saved|]; [|exact Hg].
    apply keeps_try_catch; [|exact Hg].
    destruct (JSONParse.read saved);
      [|apply keeps_throw|intros st Hst; exact Logic.I].
    unfold load.
    repeat first [ apply keeps_member | apply keeps_typed | apply keeps_new_Map
                 | keeps_step ]; assumption.
  - repeat keeps_step; exact Hg.
Qed.

Lemma single_block_sound (e : Engine) :
  List.length (chain e) = 1%nat -> difficulty e = 2%nat -> chain_sound e.
Proof.
  intros Hlen Hd. unfold chain_sound, isChainValid.
  destruct (chain e) as [|g [|x rest]]; try discriminate.
  repeat split; [congruence | lia].
Qed.

End Boot.

(** Calls awaited one after the other keep the chain valid. Start from a
    new engine object that [initialize()] left with a one-block chain (the
    genesis block), and make any finite sequence of calls to
    [registerMedicine], [verifyMedicine], [transferMedicine] and
    [createAlert], each awaited before the next. On the state they leave,
    [isChainValid()] returns [true]: every block after the first has a stored
    hash equal to the digest recomputed from its stored index, previousHash,
    timestamp, data and nonce, and a previousHash equal to the stored hash of
    the block before it. *)
Theorem chain_valid_after_calls :
  forall (H : Host) (fuel : nat) (saved : option string) (s0 : St)
         (ops : list Op) (s : St),
    initialize H (boot saved) = Ok tt s0 ->
    List.length (chain (engine s0)) = 1%nat ->
    calls H fuel ops s0 = Some s ->
    isChainValid (engine s) = true /\ chain_linked (chain (engine s)).
Proof.
  intros H fuel saved s0 ops s Hinit Hone Hrun.
  assert (Hd : difficulty (engine s0) = 2%nat).
  { pose proof (keeps_difficulty_initialize H 2 (boot saved) eq_refl) as Hk.
    rewrite Hinit in Hk. exact Hk. }
  pose proof (calls_sound H fuel ops s0 s (single_block_sound _ Hone Hd) Hrun)
    as (Hne & Hvalid & _).
  split; [exact Hvalid|].
  unfold isChainValid in Hvalid.
  destruct (chain (engine s)) as [|g rest]; [congruence|].
  apply isChainValid_from_linked; exact Hvalid.
Qed.
(* ===================================================================== *)
(** ** Calls in flight *)
(* ===================================================================== *)

(** *** A call awaited by its caller *)

Section Agreement.
Context (H : Host) (fuel : nat).

Lemma awaited_and_then {A B} (r : Run A) (k : A -> Async B) :
  Async.awaited_run (Async.and_then r k) =
  match Async.awaited_run r with
  | Ok a s => Async.awaited_run (k a s)
  | Throw e s => Throw e s
  | Pending => Pending
  | Untyped => Untyped
  end.
Proof.
  induction r as [o|s resume IH]; cbn [Async.and_then Async.awaited_run].
  - destruct o; reflexivity.
  - apply IH.
Qed.

Lemma awaited_bind {A B} (a : Async A) (k : A -> Async B) (s : St) :
  Async.awaited (Async.bind a k) s = bind (Async.awaited a) (fun x => Async.awaited (k x)) s.
Proof. unfold Async.awaited, Async.bind, bind. apply awaited_and_then. Qed.

Lemma awaited_await {A} (a : Async A) (s : St) :
  Async.awaited (Async.await a) s = Async.awaited a s.
Proof.
  unfold Async.await. rewrite awaited_bind. unfold bind.
  destruct (Async.awaited a s); reflexivity.
Qed.

Lemma agrees_lift {A} m (c : M A) : agrees m (Async.lift c) c.
Proof. intros s _. reflexivity. Qed.

Lemma agrees_ret {A} m (a : A) : agrees m (Async.ret a) (ret a).
Proof. intros s _. reflexivity. Qed.

Lemma agrees_await {A} m (a : Async A) (c : M A) :
  agrees m a c -> agrees m (Async.await a) c.
Proof. intros Ha s Hs. rewrite awaited_await. apply Ha, Hs. Qed.

Lemma agrees_bind {A B} m (a : Async A) (c : M A) (k : A -> Async B) (k' : A -> M B) :
  agrees m a c -> keeps (fun e => medicines e = m) c ->
  (forall x, agrees m (k x) (k' x)) ->
  agrees m (Async.bind a k) (bind c k').
Proof.
  intros Ha Hc Hk s Hs. rewrite awaited_bind. unfold bind.
  rewrite (Ha s Hs). specialize (Hc s Hs).
  destruct (c s) as [x s'|e s'| |]; try reflexivity.
  apply Hk, Hc.
Qed.

(** A step that changes the medicine map. *)
Lemma agrees_update {B} m m' (f : Engine -> Engine) (k : unit -> Async B)
    (k' : unit -> M B) :
  (forall e, medicines e = m -> medicines (f e) = m') ->
  agrees m' (k tt) (k' tt) ->
  agrees m (Async.bind (Async.lift (update f)) k) (bind (update f) k').
Proof.
  intros Hf Hk s Hs. rewrite awaited_bind. unfold bind.
  cbn. apply Hk. cbn. apply Hf, Hs.
Qed.

Lemma agrees_this {B} m (k : Engine -> Async B) (k' : Engine -> M B) :
  (forall e, medicines e = m -> agrees m (k e) (k' e)) ->
  agrees m (Async.bind (Async.lift this) k) (bind this k').
Proof.
  intros Hk s Hs. rewrite awaited_bind. unfold bind. cbn.
  apply (Hk (engine s) Hs s Hs).
Qed.

(** A reading the awaited call does not need. *)
Lemma agrees_this_left {B} m (k : Engine -> Async B) (c : M B) :
  (forall e, medicines e = m -> agrees m (k e) c) ->
  agrees m (Async.bind (Async.lift this) k) c.
Proof.
  intros Hk s Hs. rewrite awaited_bind. unfold bind. cbn.
  apply (Hk (engine s) Hs s Hs).
Qed.

Lemma agrees_held {B} m (b : jsval) (medicine : Medicine) (k : Medicine -> Async B)
    (c : M B) :
  JsMap.get b m = Some medicine ->
  agrees m (k medicine) c ->
  agrees m (Async.bind (Async.lift (held b medicine)) k) c.
Proof.
  intros Hget Hk s Hs. rewrite awaited_bind. unfold bind. cbn.
  rewrite Hs, Hget. cbn. apply Hk, Hs.
Qed.

(** A callee that touches nothing and returns [v]. *)
Lemma agrees_pure {A B} m (a : Async A) (v : A) (k : A -> Async B) (c : M B) :
  (forall s, Async.awaited a s = Ok v s) ->
  agrees m (k v) c ->
  agrees m (Async.bind a k) c.
Proof.
  intros Ha Hk s Hs. rewrite awaited_bind. unfold bind. rewrite Ha. apply Hk, Hs.
Qed.

Lemma awaited_sha256 (message : string) (s : St) :
  Async.awaited (Async.sha256 message) s = Ok (sha256 message) s.
Proof. reflexivity. Qed.

Lemma awaited_calculateHash (b : Block) (s : St) :
  Async.awaited (Async.calculateHash b) s = Ok (calculateHash b) s.
Proof. reflexivity. Qed.

Lemma awaited_generateHash (t : Transaction) (s : St) :
  Async.awaited (Async.await (Async.generateHash t)) s = Ok (generateHash t) s.
Proof. reflexivity. Qed.

Lemma awaited_mineBlock (n d : nat) (b : Block) (s : St) :
  Async.awaited (Async.mineBlock n d b) s = mine n d b s.
Proof.
  revert b. induction n as [|n IH]; intros b; unfold mine; cbn [Async.mineBlock mineBlock].
  - destruct (meets d (b_hash b)); reflexivity.
  - destruct (meets d (b_hash b)); [reflexivity|].
    rewrite awaited_bind. unfold bind. rewrite awaited_await, awaited_calculateHash.
    apply IH.
Qed.

Lemma keeps_mine (I : Engine -> Prop) (n d : nat) (b : Block) : keeps I (mine n d b).
Proof. intros s Hs. unfold mine. destruct (mineBlock n d b); trivial. Qed.

End Agreement.

(** Walks an operation that leaves the medicine map alone. *)
Ltac frame_step :=
  match goal with
  | |- keeps _ (bind _ _) => apply keeps_bind; [|intros ?]
  | |- keeps _ (update _) => apply keeps_update; intros ? Hframe; exact Hframe
  | |- keeps _ (push_transaction _) => apply keeps_update; intros ? Hframe; exact Hframe
  | |- keeps _ (mine _ _ _) => apply keeps_mine
  | |- keeps _ (if ?b then _ else _) => destruct b
  | |- keeps _ (match ?x with _ => _ end) => destruct x
  | |- keeps _ _ =>
      first [ apply keeps_this | apply keeps_now_iso | apply keeps_Date_now
            | apply keeps_random | apply keeps_save | apply keeps_emit
            | apply keeps_ret | apply keeps_throw | apply keeps_new_Transaction
            | solve [eauto] ]
  end.

Section Frame.
Context (H : Host) (fuel : nat) (m : list (jsval * Medicine)).

Lemma frame_addBlock (data : jsval) :
  keeps (fun e => medicines e = m) (addBlock H fuel data).
Proof. unfold addBlock. cbv zeta. repeat frame_step. Qed.

Lemma frame_createAlert (b r : jsval) :
  keeps (fun e => medicines e = m) (createAlert H fuel b r).
Proof.
  pose proof frame_addBlock as Ha.
  unfold createAlert. cbv zeta. repeat frame_step.
Qed.

End Frame.

(** Walks a call in step with the same call awaited. *)
Ltac agree_step :=
  match goal with
  | |- agrees _ (Async.bind (Async.lift this) _) (bind this _) =>
      apply agrees_this; intros ? ?
  | |- agrees _ (Async.bind (Async.lift (update _)) _) (bind (update _) _) =>
      eapply agrees_update;
        [let Hm := fresh "Hmap" in intros ? Hm; cbn; rewrite ?Hm; reflexivity|]
  | |- agrees _ (Async.bind (Async.lift (push_transaction _)) _)
         (bind (push_transaction _) _) =>
      eapply agrees_update;
        [let Hm := fresh "Hmap" in intros ? Hm; cbn; rewrite ?Hm; reflexivity|]
  | |- agrees _ (Async.bind (Async.await (Async.generateHash _)) _) _ =>
      eapply agrees_pure; [intros ?; apply awaited_generateHash|]; cbv beta
  | |- agrees _ (Async.bind (Async.lift (held _ _)) _) _ =>
      eapply agrees_held; [solve [eassumption | apply get_set_same]|]; cbv beta
  | Hhas : JsMap.has ?b ?m = false
    |- agrees ?m (Async.bind (Async.lift this) _) (bind (update _) _) =>
      apply agrees_this_left;
      let Hm := fresh "Hmap" in intros ? Hm; cbv beta; rewrite Hm, Hhas
  | |- agrees _ (Async.bind _ _) (bind _ _) =>
      apply agrees_bind; [| |intros ?]
  | |- agrees _ (Async.lift _) _ => apply agrees_lift
  | |- agrees _ (Async.ret _) (ret _) => apply agrees_ret
  | |- agrees _ (Async.await (Async.mineBlock _ _ _)) (mine _ _ _) =>
      apply agrees_await; intros ? _; apply awaited_mineBlock
  | |- agrees _ (Async.await _) _ => apply agrees_await
  | |- agrees _ (match ?x with _ => _ end) (match ?x with _ => _ end) => destruct x
  | |- agrees _ (if ?b then _ else _) (if ?b then _ else _) => destruct b
  | |- agrees _ _ _ => solve [auto]
  | |- keeps _ _ => solve [repeat frame_step]
  end.

Section Calls.
Context (H : Host) (fuel : nat).

Lemma agrees_addBlock m (data : jsval) :
  agrees m (Async.addBlock H fuel data) (addBlock H fuel data).
Proof.
  unfold Async.addBlock, addBlock. cbv zeta.
  repeat agree_step.
Qed.

Lemma agrees_createAlert m (b r : jsval) :
  agrees m (Async.createAlert H fuel b r) (createAlert H fuel b r).
Proof.
  pose proof (frame_addBlock H fuel m) as Hf.
  pose proof (agrees_addBlock m) as Ha.
  unfold Async.createAlert, createAlert. cbv zeta.
  repeat agree_step.
Qed.

Lemma agrees_transferMedicine m (b st a l : jsval) :
  agrees m (Async.transferMedicine H fuel b st a l) (transferMedicine H fuel b st a l).
Proof.
  pose proof (frame_addBlock H fuel m) as Hf.
  pose proof (agrees_addBlock m) as Ha.
  unfold Async.transferMedicine, transferMedicine. cbv zeta.
  apply agrees_this; intros e He. rewrite He.
  destruct (JsMap.get b m) as [medicine|] eqn:Hget; [|apply agrees_lift].
  repeat agree_step.
Qed.

Lemma agrees_registerMedicine m (d : props) :
  agrees m (Async.registerMedicine H fuel d) (registerMedicine H fuel d).
Proof.
  pose proof (frame_addBlock H fuel m) as Hf.
  pose proof (agrees_addBlock m) as Ha.
  unfold Async.registerMedicine, registerMedicine. cbv zeta.
  apply agrees_this; intros e He. rewrite He.
  destruct (JsMap.has (obj_get "batchNumber" d) m) eqn:Hhas; [apply agrees_lift|].
  repeat agree_step.
Qed.

Lemma agrees_verifyMedicine m (b : jsval) :
  agrees m (Async.verifyMedicine H fuel b) (verifyMedicine H fuel b).
Proof.
  pose proof (frame_addBlock H fuel) as Hf.
  pose proof (frame_createAlert H fuel) as Hfa.
  pose proof agrees_addBlock as Ha.
  pose proof agrees_createAlert as Hc.
  unfold Async.verifyMedicine, verifyMedicine. cbv zeta.
  apply agrees_this; intros e He. rewrite He.
  destruct (JsMap.get b m) as [medicine|] eqn:Hget.
  - repeat agree_step.
  - repeat agree_step.
Qed.

(** A call of an operation, awaited, is the call [calls] makes. *)
Lemma awaited_call (op : Op) (s : St) :
  settled (Async.awaited (Async.call H fuel op) s) = call H fuel op s.
Proof.
  destruct op as [d|b|b st a l|b r]; unfold Async.call, call;
    rewrite awaited_bind; unfold bind.
  - rewrite (agrees_registerMedicine _ d s eq_refl).
    destruct (registerMedicine H fuel d s); reflexivity.
  - rewrite (agrees_verifyMedicine _ b s eq_refl).
    destruct (verifyMedicine H fuel b s); reflexivity.
  - rewrite (agrees_transferMedicine _ b st a l s eq_refl).
    destruct (transferMedicine H fuel b st a l s); reflexivity.
  - rewrite (agrees_createAlert _ b r s eq_refl).
    destruct (createAlert H fuel b r s); reflexivity.
Qed.

End Calls.

(** One call in the loop, taken up until it has settled, is the call
    awaited. *)
Lemma turns_alone {A : Type} (r : Run A) :
  forall s s', Async.left_by r = Some s -> settled (Async.awaited_run r) = Some s' ->
  exists n, Async.turns (List.repeat 0%nat n) [r] s
            = Some ([Settled (Async.awaited_run r)], s').
Proof.
  induction r as [o|s0 resume IH]; intros s s' Hleft Hend.
  - exists 0%nat. cbn in *. congruence.
  - cbn in Hleft. injection Hleft as <-. cbn [Async.awaited_run] in *.
    destruct (Async.left_by (resume s0)) as [s1|] eqn:Hl.
    + destruct (IH s0 s1 s' Hl Hend) as [n Hn]. exists (S n).
      cbn. rewrite Hl. exact Hn.
    + destruct (resume s0) as [[]|]; cbn in *; congruence.
Qed.

(** *** Calls that overlap *)

(** C1. The chain does not stay valid under every sequence of calls: the
    operations are [async] functions with nothing to keep a call from
    starting while another is suspended, and [addBlock] reads the head and
    the length of the chain before it awaits the nonce search and pushes
    the block after. A new engine is initialised and a batch registered,
    each call awaited: [isChainValid()] is [true]. Then the code of the
    batch is scanned, and the scanner page calls [verifyMedicine] twice,
    the second time while the first call is suspended; the event loop
    takes the two calls up in turn. Both calls return, both answer that
    the medicine is authentic, and they leave a chain of four blocks with
    the indices 0, 1, 2, 2, the last two with the same [previousHash]:
    [isChainValid()] is [false]. The loop reaches the same state when it
    gives each call three turns at a time. *)
Theorem overlapping_calls_break_chain :
  initialize Sample.scan_host (boot None) = Ok tt Sample.scan_boot /\
  calls Sample.scan_host 2 [RegisterMedicine (Sample.amoxicillin "B-001" "2027-11-01")]
    Sample.scan_boot = Some Sample.scan_registered /\
  isChainValid (engine Sample.scan_registered) = true /\
  exists answers,
    Async.run Sample.scan_calls (Async.in_turn 2 24) Sample.scan_registered
      = Some (answers, Sample.scan_final) /\
    List.map (option_map verdict_in) answers = [Some (Some true); Some (Some true)] /\
    List.map b_index (chain (engine Sample.scan_final)) = [0; 1; 2; 2]%N /\
    List.map b_previousHash (List.skipn 2 (chain (engine Sample.scan_final)))
      = List.map b_hash (List.skipn 1 (chain (engine Sample.scan_registered))) ++
        List.map b_hash (List.skipn 1 (chain (engine Sample.scan_registered))) /\
    isChainValid (engine Sample.scan_final) = false /\
    exists answers',
      Async.run Sample.scan_calls (Async.in_runs 2 3 8) Sample.scan_registered
        = Some (answers', Sample.scan_final) /\
      List.map (option_map verdict_in) answers' = [Some (Some true); Some (Some true)].
Proof.
  split; [vm_compute; reflexivity|]. split; [vm_compute; reflexivity|].
  split; [vm_compute; reflexivity|].
  eexists. split; [vm_compute; reflexivity|].
  do 4 (split; [reflexivity|]).
  eexists. split; [vm_compute; reflexivity|]. reflexivity.
Qed.

(* ===================================================================== *)
(** ** Verification, registration and lookup *)
(* ===================================================================== *)

Section MapFacts.
Context {V : Type}.

Lemma has_get (k : jsval) (m : list (jsval * V)) :
  JsMap.has k m = match JsMap.get k m with Some _ => true | None => false end.
Proof.
  induction m as [|[k' v] m IH]; [reflexivity|].
  cbn [JsMap.has JsMap.get]. destruct (jsval_eqb k k'); [reflexivity | exact IH].
Qed.

Lemma has_false_get (k : jsval) (m : list (jsval * V)) :
  JsMap.has k m = false -> JsMap.get k m = None.
Proof. rewrite has_get. destruct (JsMap.get k m); [discriminate | reflexivity]. Qed.

End MapFacts.

Section Effects.
Context (H : Host) (fuel : nat).

Local Open Scope engine_scope.

Lemma returns_ret {A} (P : St -> Prop) (Q : A -> St -> Prop) (a : A) :
  (forall s, P s -> Q a s) -> returns P (ret a) Q.
Proof. intros HQ s Hs. apply HQ; exact Hs. Qed.

Lemma returns_bind {A B} (P : St -> Prop) (R : A -> St -> Prop)
    (Q : B -> St -> Prop) (c : M A) (k : A -> M B) :
  returns P c R -> (forall a, returns (R a) (k a) Q) -> returns P (bind c k) Q.
Proof.
  intros Hc Hk s Hs. unfold bind. specialize (Hc s Hs).
  destruct (c s) as [a s'|e s'| |]; try exact Hc. apply Hk; exact Hc.
Qed.

(** A step that keeps the three lists. *)
Lemma returns_same {A} (s0 : St) (dc da dt : nat) (c : M A) :
  (forall s, exists a s', c s = Ok a s' /\ chain (engine s') = chain (engine s) /\
                          alerts (engine s') = alerts (engine s) /\
                          transactions (engine s') = transactions (engine s)) ->
  returns (grown s0 dc da dt) c (fun _ => grown s0 dc da dt).
Proof.
  intros Hc s Hs. destruct (Hc s) as (a & s' & -> & Hch & Hal & Htx).
  unfold grown in *. rewrite Hch, Hal, Htx. exact Hs.
Qed.

Lemma returns_addBlock (s0 : St) (dc da dt : nat) (data : jsval) :
  returns (grown s0 dc da dt) (addBlock H fuel data)
    (fun _ => grown s0 (S dc) da dt).
Proof.
  intros s (Hne & Hc & Ha & Ht).
  cbv [addBlock bind this now_iso Date_now mine update save emit ret].
  cbn [engine]. unfold getLatestBlock.
  destruct (chain (engine s)) as [|g rest] eqn:Hch; [congruence|].
  rewrite (last_map_Some (g :: rest) g) by congruence.
  match goal with
  | |- context [mineBlock fuel ?d ?b] =>
      destruct (mineBlock fuel d b) as [nb|]; [|exact Logic.I]
  end.
  unfold grown. cbn [engine with_chain chain alerts transactions].
  rewrite Hch. repeat split; try assumption.
  - destruct rest; discriminate.
  - rewrite length_app. cbn [List.length] in *. lia.
Qed.

Lemma returns_push_transaction (s0 : St) (dc da dt : nat) (t : Transaction) :
  returns (grown s0 dc da dt) (push_transaction t) (fun _ => grown s0 dc da (S dt)).
Proof.
  intros s (Hne & Hc & Ha & Ht). unfold grown.
  cbn [push_transaction update engine with_transactions chain alerts transactions].
  repeat split; try assumption. rewrite length_app. cbn [List.length]. lia.
Qed.

Lemma returns_push_alert (s0 : St) (dc da dt : nat) (a : Alert) :
  returns (grown s0 dc da dt)
    (update (fun e => with_alerts (alerts e ++ [a]) e))
    (fun _ => grown s0 dc (S da) dt).
Proof.
  intros s (Hne & Hc & Ha & Ht). unfold grown.
  cbn [update engine with_alerts chain alerts transactions].
  repeat split; try assumption. rewrite length_app. cbn [List.length]. lia.
Qed.

End Effects.

(** Walks straight-line code, counting what it appends. *)
Ltac returns_step H fuel :=
  match goal with
  | |- returns _ (bind (addBlock _ _ _) _) _ =>
      eapply returns_bind; [apply (returns_addBlock H fuel)|intros ?]
  | |- returns _ (bind (push_transaction _) _) _ =>
      eapply returns_bind; [apply returns_push_transaction|intros ?]
  | |- returns _ (bind (update (fun e => with_alerts _ e)) _) _ =>
      eapply returns_bind; [apply returns_push_alert|intros ?]
  | |- returns _ (bind _ _) _ =>
      eapply returns_bind;
      [apply returns_same; intros ?; eexists; eexists;
       split; [reflexivity|repeat split]
      |intros ?]
  end.

Section Verification.
Context (H : Host) (fuel : nat).

Lemma returns_createAlert (s0 : St) (dc da dt : nat) (b r : jsval) :
  returns (grown s0 dc da dt) (createAlert H fuel b r)
    (fun _ => grown s0 (S dc) (S da) (S dt)).
Proof.
  unfold createAlert, new_Transaction.
  repeat returns_step H fuel.
  apply returns_ret. intros s Hs; exact Hs.
Qed.

End Verification.

(** The effect of [verifyMedicine] on an identifier the map does not hold. *)
Lemma verifyMedicine_on_unknown :
  forall (H : Host) (fuel : nat) (s : St) (batchNumber : jsval),
    JsMap.has batchNumber (medicines (engine s)) = false ->
    chain (engine s) <> [] ->
    match verifyMedicine H fuel batchNumber s with
    | Ok r s' =>
        vr_isAuthentic r = false /\ vr_medicine r = None /\
        vr_checks r =
          [mkCheck "Blockchain Record Exists" false "NOT found on blockchain"] /\
        List.length (alerts (engine s')) = S (List.length (alerts (engine s))) /\
        List.length (chain (engine s')) = S (S (List.length (chain (engine s)))) /\
        List.length (transactions (engine s')) =
          S (S (List.length (transactions (engine s))))
    | Pending => True
    | Throw _ _ | Untyped => False
    end.
Proof.
  intros H fuel s b Habsent Hne.
  unfold verifyMedicine. unfold bind at 1. unfold this.
  rewrite (has_false_get _ _ Habsent).
  match goal with
  | |- match ?c s with _ => _ end =>
      assert (Hr : returns (grown s 0 0 0) c
                (fun r s' =>
                   vr_isAuthentic r = false /\ vr_medicine r = None /\
                   vr_checks r = [mkCheck "Blockchain Record Exists" false
                                    "NOT found on blockchain"] /\
                   grown s 2 1 2 s'));
      [|specialize (Hr s); destruct (c s) as [r s'|e s'| |]]
  end.
  - eapply returns_bind; [apply returns_createAlert|intros ?].
    unfold new_Transaction. repeat returns_step H fuel.
    apply returns_ret. intros s1 Hs1. repeat split; apply Hs1.
  - destruct Hr as (Ha & Hm & Hc & _ & Hlc & Hla & Hlt).
    + unfold grown. repeat split; [exact Hne | lia..].
    + repeat split; try assumption; lia.
  - apply Hr. unfold grown. repeat split; [exact Hne | lia..].
  - exact Logic.I.
  - apply Hr. unfold grown. repeat split; [exact Hne | lia..].
Qed.

Section Present.
Context (H : Host) (fuel : nat).

Local Open Scope engine_scope.

Lemma grown_refl (s : St) : live s -> grown s 0 0 0 s.
Proof. intros Hl. unfold grown. repeat split; [exact Hl | lia..]. Qed.

Lemma live_addBlock (data : jsval) :
  returns live (addBlock H fuel data) (fun _ => live).
Proof.
  intros s Hs. pose proof (returns_addBlock H fuel s 0 0 0 data s (grown_refl s Hs)) as Hr.
  destruct (addBlock H fuel data s); try exact Hr. apply Hr.
Qed.

Lemma live_createAlert (b r : jsval) :
  returns live (createAlert H fuel b r) (fun _ => live).
Proof.
  intros s Hs.
  pose proof (returns_createAlert H fuel s 0 0 0 b r s (grown_refl s Hs)) as Hr.
  destruct (createAlert H fuel b r s); try exact Hr. apply Hr.
Qed.

(** A step that keeps the chain. *)
Lemma live_same {A} (c : M A) :
  (forall s, exists a s', c s = Ok a s' /\ chain (engine s') = chain (engine s)) ->
  returns live c (fun _ => live).
Proof.
  intros Hc s Hs. destruct (Hc s) as (a & s' & -> & Hch).
  unfold live. rewrite Hch. exact Hs.
Qed.

End Present.

Ltac live_step H fuel :=
  cbv beta;
  match goal with
  | |- returns _ (bind (addBlock _ _ _) _) _ =>
      eapply returns_bind; [apply (live_addBlock H fuel)|intros ?]
  | |- returns _ (bind (createAlert _ _ _ _) _) _ =>
      eapply returns_bind; [apply (live_createAlert H fuel)|intros ?]
  | |- returns _ (bind (if ?b then _ else _) _) _ =>
      eapply returns_bind with (R := fun _ => live); [destruct b|intros ?]
  | |- returns _ (bind _ _) _ =>
      eapply returns_bind;
      [apply live_same; intros ?; eexists; eexists; split; reflexivity
      |intros ?]
  | |- returns _ (ret _) _ => apply returns_ret; intros ? ?
  end.

(** What [verifyMedicine] reports. *)
Lemma verifyMedicine_report :
  forall (H : Host) (fuel : nat) (s : St) (batchNumber : jsval),
    chain (engine s) <> [] ->
    match verifyMedicine H fuel batchNumber s with
    | Ok r s' =>
        match JsMap.get batchNumber (medicines (engine s)) with
        | Some m =>
            let now := clock H (clock_reads s) in
            let expected := six_checks H now (List.length (chain (engine s))) m in
            outcomes (vr_checks r) = expected /\
            vr_isAuthentic r = verdict_of expected /\
            (date_gt (Date_value H (m_get "expiryDate" m)) now = false ->
             m_status m = "sold" ->
             In ("Medicine Not Expired", false) (outcomes (vr_checks r)) /\
             In ("Not Previously Sold", false) (outcomes (vr_checks r)) /\
             vr_isAuthentic r = false)
        | None =>
            outcomes (vr_checks r) = [("Blockchain Record Exists", false)] /\
            vr_isAuthentic r = false
        end
    | Pending => True
    | Throw _ _ | Untyped => False
    end.
Proof.
  intros H fuel s b Hne.
  destruct (JsMap.get b (medicines (engine s))) as [m|] eqn:Hget.
  - unfold verifyMedicine. unfold bind at 1. unfold this. rewrite Hget.
    unfold bind at 1. unfold Date_now.
    set (now := clock H (clock_reads s)).
    set (expected := six_checks H now (List.length (chain (engine s))) m).
    match goal with
    | |- match ?c ?s1 with _ => _ end =>
        assert (Hr : returns live c
                  (fun r _ => outcomes (vr_checks r) = expected /\
                              vr_isAuthentic r = verdict_of expected));
        [|specialize (Hr s1 Hne); destruct (c s1) as [r s'|e s'| |]; try exact Hr]
    end.
    + unfold new_Transaction. repeat live_step H fuel; try assumption.
      split.
      * unfold expected, six_checks, outcomes. cbn [List.map app].
        cbn [engine].
        destruct (date_gt _ now), (negb (String.eqb (m_status m) "sold")),
          (0 <? List.length (m_supplyChain m))%nat, (m_blockNumber m) as [i|];
          try destruct (i <? _)%N; reflexivity.
      * unfold expected, six_checks, verdict_of. cbn [engine vr_isAuthentic].
        cbn [List.forallb fst snd String.eqb Ascii.eqb Bool.eqb orb andb].
        destruct (date_gt _ now), (negb (String.eqb (m_status m) "sold")),
          (0 <? List.length (m_supplyChain m))%nat, (m_blockNumber m) as [i|];
          try destruct (i <? _)%N; reflexivity.
    + destruct Hr as (Hout & Hauth). split; [exact Hout|]. split; [exact Hauth|].
      intros Hexp Hsold. rewrite Hout, Hauth. unfold expected, six_checks.
      rewrite Hexp, Hsold. cbn. auto 10.
  - pose proof (verifyMedicine_on_unknown H fuel s b) as Habs.
    rewrite has_get, Hget in Habs. specialize (Habs eq_refl Hne).
    destruct (verifyMedicine H fuel b s) as [r s'|e s'| |]; try exact Habs.
    destruct Habs as (Ha & _ & Hc & _). rewrite Hc. split; [reflexivity | exact Ha].
Qed.

(** C3, as the code has it. On an initialised engine (non-empty chain) whose
    medicine map does not hold the batch identifier, [verifyMedicine] does
    not throw; when its two nonce searches finish it returns
    [isAuthentic = false] with [medicine = null] and the single failed check,
    and it leaves exactly one more alert, exactly TWO more blocks (the
    [counterfeit_alert] block of [createAlert], then the
    [verification_failed] block) and two more transactions. *)
Theorem verifyMedicine_absent :
  forall (H : Host) (fuel : nat) (s : St) (batchNumber : jsval),
    JsMap.has batchNumber (medicines (engine s)) = false ->
    chain (engine s) <> [] ->
    match verifyMedicine H fuel batchNumber s with
    | Ok r s' =>
        vr_isAuthentic r = false /\ vr_medicine r = None /\
        vr_checks r =
          [mkCheck "Blockchain Record Exists" false "NOT found on blockchain"] /\
        List.length (alerts (engine s')) = S (List.length (alerts (engine s))) /\
        List.length (chain (engine s')) = S (S (List.length (chain (engine s)))) /\
        List.length (transactions (engine s')) =
          S (S (List.length (transactions (engine s))))
    | Pending => True
    | Throw _ _ | Untyped => False
    end.
Proof. exact verifyMedicine_on_unknown. Qed.

(** C2. On an initialised engine whose medicine map holds the batch
    identifier, [verifyMedicine] does not throw, and when it returns its
    [checks] are the six named checks, in order, each with its own outcome:
    no check is skipped because an earlier one failed, and [isAuthentic] is
    their aggregate (every check but the advisory "Supply Chain Valid" must
    pass). So a record whose expiry is not after the current time and whose
    status is ['sold'] reports two failed checks, "Medicine Not Expired" and
    "Not Previously Sold", and [isAuthentic = false]. When the map does not
    hold the identifier, the only check reported is the failed first one. *)
Theorem verifyMedicine_checks :
  forall (H : Host) (fuel : nat) (s : St) (batchNumber : jsval),
    chain (engine s) <> [] ->
    match verifyMedicine H fuel batchNumber s with
    | Ok r s' =>
        match JsMap.get batchNumber (medicines (engine s)) with
        | Some m =>
            let now := clock H (clock_reads s) in
            let expected := six_checks H now (List.length (chain (engine s))) m in
            outcomes (vr_checks r) = expected /\
            vr_isAuthentic r = verdict_of expected /\
            (date_gt (Date_value H (m_get "expiryDate" m)) now = false ->
             m_status m = "sold" ->
             In ("Medicine Not Expired", false) (outcomes (vr_checks r)) /\
             In ("Not Previously Sold", false) (outcomes (vr_checks r)) /\
             vr_isAuthentic r = false)
        | None =>
            outcomes (vr_checks r) = [("Blockchain Record Exists", false)] /\
            vr_isAuthentic r = false
        end
    | Pending => True
    | Throw _ _ | Untyped => False
    end.
Proof. exact verifyMedicine_report. Qed.

(* ===================================================================== *)
(** ** Rejected registrations and lookups *)
(* ===================================================================== *)

(** C5. When the medicine map already holds the batch identifier of
    [medicineData], [registerMedicine] throws the duplicate-batch error and
    the state it leaves is the state it found: the same block log, the same
    transaction list, the same medicine map (and the same stored document).
    The contract does the same for an authorised sender: the call reverts
    with "Batch number already registered", and a reverted call changes
    nothing. *)
Theorem registerMedicine_duplicate :
  forall (H : Host) (fuel : nat) (s : St) (medicineData : props)
         (msg : MediChainSol.Msg) (c : MediChainSol.Contract)
         (name batch mid mname mfg exp : string),
    JsMap.has (obj_get "batchNumber" medicineData) (medicines (engine s)) = true ->
    MediChainSol.flag_at (MediChainSol.sender msg)
      (MediChainSol.authorizedManufacturers c)
    || (MediChainSol.sender msg =? MediChainSol.owner c)%N = true ->
    MediChainSol.exists_ (MediChainSol.medicine_at batch c) = true ->
    registerMedicine H fuel medicineData s =
      Throw (Error ("Batch " +:+ ToString (obj_get "batchNumber" medicineData) +:+
                    " already registered on blockchain")) s
    /\ MediChainSol.registerMedicine msg name batch mid mname mfg exp c =
       MediChainSol.Revert "Batch number already registered".
Proof.
  intros H fuel s d msg c name batch mid mname mfg exp Hhas Hauth Hex. split.
  - unfold registerMedicine, bind, this. cbn [engine]. rewrite Hhas. reflexivity.
  - unfold MediChainSol.registerMedicine. rewrite Hauth, Hex. reflexivity.
Qed.

(** C10. For a batch identifier that is not in the store, [getMedicine] of
    the engine returns [null] (it is a total function: it cannot fail),
    while [getMedicine] of the contract reverts with "Medicine not found". *)
Theorem getMedicine_absent :
  forall (e : Engine) (c : MediChainSol.Contract) (batchNumber : string),
    JsMap.has (JStr batchNumber) (medicines e) = false ->
    MediChainSol.exists_ (MediChainSol.medicine_at batchNumber c) = false ->
    getMedicine (JStr batchNumber) e = None /\
    MediChainSol.getMedicine batchNumber c = MediChainSol.Revert "Medicine not found".
Proof.
  intros e c b Hjs Hsol. split.
  - unfold getMedicine. apply has_false_get; exact Hjs.
  - unfold MediChainSol.getMedicine. rewrite Hsol. reflexivity.
Qed.

(* ===================================================================== *)
(** ** Search *)
(* ===================================================================== *)

Section SearchFacts.
Context (H : Host).

Lemma filter_throwing_total {A} (pred : A -> JsError + bool) (l : list A) :
  (forall x, In x l -> exists b, pred x = inr b) ->
  exists r, filter_throwing pred l = inr r.
Proof.
  induction l as [|x l IH]; intros Hall; [exists []; reflexivity|].
  destruct (Hall x (or_introl eq_refl)) as (b & Hb).
  destruct IH as (r & Hr); [intros y Hy; apply Hall; right; exact Hy|].
  cbn [filter_throwing]. rewrite Hb, Hr. eexists; reflexivity.
Qed.

Lemma filter_throwing_raises {A} (pred : A -> JsError + bool) (l : list A) (x : A) :
  (forall y e, pred y = inl e -> e = TypeError) ->
  In x l -> pred x = inl TypeError ->
  filter_throwing pred l = inl TypeError.
Proof.
  intros Honly Hin Hx. induction l as [|y l IH]; [contradiction|].
  cbn [filter_throwing]. destruct (pred y) as [e|keep] eqn:Hy.
  - rewrite (Honly y e Hy). reflexivity.
  - destruct Hin as [->|Hin]; [congruence|]. rewrite (IH Hin). reflexivity.
Qed.

Lemma call_toLowerCase_error (v : jsval) (e : JsError) :
  call_toLowerCase H v = inl e -> e = TypeError.
Proof. destruct v; cbn; congruence. Qed.

Lemma search_match_error (q : string) (m : Medicine) (e : JsError) :
  search_match H q m = inl e -> e = TypeError.
Proof.
  unfold search_match.
  destruct (call_toLowerCase H (m_get "batchNumber" m)) as [e1|b] eqn:Hb.
  { intros [= <-]. eapply call_toLowerCase_error; exact Hb. }
  destruct (Text.includes b q); [discriminate|].
  destruct (call_toLowerCase H (m_get "medicineName" m)) as [e2|n] eqn:Hn.
  { intros [= <-]. eapply call_toLowerCase_error; exact Hn. }
  destruct (Text.includes n q); [discriminate|].
  destruct (truthy (m_get "manufacturerName" m)); [|discriminate].
  destruct (call_toLowerCase H (m_get "manufacturerName" m)) as [e3|f] eqn:Hf.
  { intros [= <-]. eapply call_toLowerCase_error; exact Hf. }
  discriminate.
Qed.

Lemma search_match_named (q : string) (m : Medicine) :
  named m -> exists b, search_match H q m = inr b.
Proof.
  intros ((b & Hb) & (n & Hn) & Hf). unfold search_match.
  rewrite Hb, Hn. cbn [call_toLowerCase].
  destruct (Text.includes _ q); [eexists; reflexivity|].
  destruct (Text.includes _ q); [eexists; reflexivity|].
  destruct (truthy (m_get "manufacturerName" m)); [|eexists; reflexivity].
  destruct (Hf eq_refl) as (f & ->). eexists; reflexivity.
Qed.

Lemma search_match_nameless (q : string) (m : Medicine) :
  m_get "medicineName" m = JUndef ->
  (forall b, m_get "batchNumber" m = JStr b ->
             Text.includes (toLowerCase H b) q = false) ->
  search_match H q m = inl TypeError.
Proof.
  intros Hn Hb. unfold search_match.
  destruct (m_get "batchNumber" m) as [| |x|z|b|l|o]; try reflexivity.
  cbn [call_toLowerCase]. rewrite (Hb b eq_refl), Hn. reflexivity.
Qed.

Lemma yields_bind {A B} (c : M A) (k : A -> M B) (Q : B -> St -> Prop) :
  (forall a, yields (k a) Q) -> yields (bind c k) Q.
Proof.
  intros Hk s. unfold bind. destruct (c s) as [a s1|e s1| |]; try exact Logic.I.
  apply Hk.
Qed.

(** [registerMedicine] stores what it was given: a missing name stays
    missing. *)
Lemma registerMedicine_stores (fuel : nat) (medicineData : props) :
  obj_get "medicineName" medicineData = JUndef ->
  yields (registerMedicine H fuel medicineData)
    (fun r s' =>
       JsMap.get (obj_get "batchNumber" medicineData) (medicines (engine s'))
         = Some (fst (fst r)) /\
       m_get "medicineName" (fst (fst r)) = JUndef).
Proof.
  intros Hname. unfold registerMedicine.
  apply yields_bind; intros e.
  destruct (JsMap.has _ _); [intros s; exact Logic.I|].
  do 4 (apply yields_bind; intros ?).
  intros s. cbv [bind update push_transaction save emit ret].
  cbn [fst engine medicines with_medicines with_transactions].
  split; [apply get_set_same|].
  unfold m_get. cbn [m_fields].
  rewrite (obj_get_filter "medicineName" (fun k => negb (is_engine_key k))
             medicineData eq_refl).
  exact Hname.
Qed.

(** On an initialised engine a registration of a new batch does not
    throw, whatever the data. *)
Lemma registerMedicine_returns (fuel : nat) (medicineData : props) (s : St) :
  JsMap.has (obj_get "batchNumber" medicineData) (medicines (engine s)) = false ->
  chain (engine s) <> [] ->
  match registerMedicine H fuel medicineData s with
  | Ok _ _ | Pending => True
  | Throw _ _ | Untyped => False
  end.
Proof.
  intros Hnew Hne. unfold registerMedicine. unfold bind at 1. unfold this.
  rewrite Hnew.
  match goal with
  | |- match ?c s with _ => _ end =>
      assert (Hr : returns live c (fun _ _ => True));
      [|specialize (Hr s Hne); destruct (c s); try exact Hr; exact Logic.I]
  end.
  unfold new_Transaction, push_transaction.
  repeat live_step H fuel; try assumption. exact Logic.I.
Qed.

End SearchFacts.

(** C9. [search] is total when every stored record, as [search] sees it, has
    a string [batchNumber] and a string [medicineName] (part 1; a missing
    [manufacturerName] is allowed: that operand is guarded). [registerMedicine]
    does not check that [medicineName] is there: on an initialised engine,
    called for a new batch without it, it does not throw, and when its nonce
    search finishes it returns, having stored under the batch number a record
    whose [medicineName] is [undefined] (part 2). On a state holding such a
    record, [search(query)] throws a [TypeError] instead of returning a list,
    for every query the record's batch number does not already match
    (part 3). *)
Theorem search_needs_medicineName :
  forall (H : Host) (fuel : nat),
    (forall (e : Engine) (q : string),
        (forall k m, In (k, m) (medicines e) -> named (with_batchNumber k m)) ->
        exists l, search H (JStr q) e = inr l) /\
    (forall (s : St) (medicineData : props),
        obj_get "medicineName" medicineData = JUndef ->
        JsMap.has (obj_get "batchNumber" medicineData) (medicines (engine s)) = false ->
        chain (engine s) <> [] ->
        match registerMedicine H fuel medicineData s with
        | Ok r s' =>
            JsMap.get (obj_get "batchNumber" medicineData) (medicines (engine s'))
              = Some (fst (fst r)) /\
            m_get "medicineName" (fst (fst r)) = JUndef
        | Pending => True
        | Throw _ _ | Untyped => False
        end) /\
    (forall (e : Engine) (q : string) (k : jsval) (m : Medicine),
        In (k, m) (medicines e) ->
        m_get "medicineName" (with_batchNumber k m) = JUndef ->
        (forall b, m_get "batchNumber" (with_batchNumber k m) = JStr b ->
                   Text.includes (toLowerCase H b) (toLowerCase H q) = false) ->
        search H (JStr q) e = inl TypeError).
Proof.
  intros H fuel. split; [|split].
  - intros e q Hall. unfold search. cbn [call_toLowerCase].
    apply filter_throwing_total. intros x Hx. unfold getAllMedicines in Hx.
    apply in_map_iff in Hx as ([k m] & <- & Hin).
    apply search_match_named. apply (Hall k m Hin).
  - intros s d Hname Hnew Hne.
    pose proof (registerMedicine_stores H fuel d Hname s) as Hy.
    pose proof (registerMedicine_returns H fuel d s Hnew Hne) as Hr.
    destruct (registerMedicine H fuel d s); [exact Hy | exact Hr | exact Logic.I | exact Hr].
  - intros e q k m Hin Hname Hbatch. unfold search. cbn [call_toLowerCase].
    apply (filter_throwing_raises _ _ (with_batchNumber k m)).
    + intros y err. apply search_match_error.
    + unfold getAllMedicines. apply in_map_iff. exists (k, m). split; [reflexivity | exact Hin].
    + apply search_match_nameless; assumption.
Qed.

(* ===================================================================== *)
(** ** The engine and the contract side by side *)
(* ===================================================================== *)

Section Contract.
Import MediChainSol.

Lemma sol_verify_absent (msg : Msg) (b : string) (c c' : Contract) a :
  exists_ (medicine_at b c) = false ->
  MediChainSol.verifyMedicine msg b c = Success a c' -> fst a = false.
Proof.
  intros Hex. unfold MediChainSol.verifyMedicine.
  destruct (verificationCount c =? max_uint256)%N; [intros; discriminate|].
  unfold medicine_at in *. cbn [medicines]. rewrite Hex. cbn [negb alertCount].
  destruct (alertCount c =? max_uint256)%N; [intros; discriminate|].
  intros [= <- _]. reflexivity.
Qed.

Lemma sol_verify_present (msg : Msg) (b : string) (c c' : Contract) a :
  exists_ (medicine_at b c) = true ->
  MediChainSol.verifyMedicine msg b c = Success a c' ->
  fst a = match status (medicine_at b c) with
          | Flagged | Sold => false
          | Active | Expired => true
          end.
Proof.
  intros Hex. unfold MediChainSol.verifyMedicine.
  destruct (verificationCount c =? max_uint256)%N; [intros; discriminate|].
  unfold medicine_at in *. cbn [medicines]. rewrite Hex. cbn [negb].
  destruct (scanCount _ =? max_uint256)%N; [intros; discriminate|].
  cbn [status set_scanCount].
  destruct (status (default no_medicine (medicines c !! b)));
    intros [= <- _]; reflexivity.
Qed.

End Contract.

(** C4. The two implementations do not compute the same verdict. Let the
    engine and the contract hold the same record under a batch number, with
    status active in both, and let its expiry date not lie after the time
    the engine reads. The engine does not throw, and when its nonce search
    finishes it returns [isAuthentic = false], with the failed check
    "Medicine Not Expired". The contract, on the same record, returns
    [isAuthentic = true] with "Medicine is AUTHENTIC. All blockchain checks
    passed.": it tests the statuses [Flagged] and [Sold] only, never the
    expiry date, and nothing in it sets the status [Expired]. *)
Theorem contract_ignores_expiry :
  forall (H : Host) (fuel : nat) (s : St) (msg : MediChainSol.Msg)
         (c : MediChainSol.Contract) (b : string) (m : Medicine),
    chain (engine s) <> [] ->
    JsMap.get (JStr b) (medicines (engine s)) = Some m ->
    same_record (engine s) c b ->
    m_status m = "active" ->
    date_gt (Date_value H (m_get "expiryDate" m)) (clock H (clock_reads s)) = false ->
    MediChainSol.verificationCount c <> MediChainSol.max_uint256 ->
    MediChainSol.scanCount (MediChainSol.medicine_at b c) <> MediChainSol.max_uint256 ->
    match verifyMedicine H fuel (JStr b) s with
    | Ok r _ =>
        vr_isAuthentic r = false /\
        In ("Medicine Not Expired", false) (outcomes (vr_checks r))
    | Pending => True
    | Throw _ _ | Untyped => False
    end /\
    exists c',
      MediChainSol.verifyMedicine msg b c =
      MediChainSol.Success (true, "Medicine is AUTHENTIC. All blockchain checks passed.") c'.
Proof.
  intros H fuel s msg c b m Hne Hget Hsame Hactive Hexpired Hvc Hsc.
  unfold same_record in Hsame. rewrite Hget in Hsame. destruct Hsame as (Hex & Hst).
  split.
  - pose proof (verifyMedicine_report H fuel s (JStr b) Hne) as Hrep.
    destruct (verifyMedicine H fuel (JStr b) s) as [r s'|e s'| |]; try exact Hrep.
    rewrite Hget in Hrep. destruct Hrep as (Hout & Hauth & _).
    rewrite Hauth, Hout. unfold six_checks, verdict_of. rewrite Hexpired.
    cbn [List.forallb fst snd String.eqb Ascii.eqb Bool.eqb orb andb].
    split; [reflexivity|]. right. right. left. reflexivity.
  - assert (Hstatus : MediChainSol.status (MediChainSol.medicine_at b c)
                      = MediChainSol.Active).
    { rewrite Hactive in Hst.
      destruct (MediChainSol.status (MediChainSol.medicine_at b c));
        [reflexivity | discriminate..]. }
    apply N.eqb_neq in Hvc, Hsc.
    unfold MediChainSol.verifyMedicine. rewrite Hvc.
    unfold MediChainSol.medicine_at in *. cbn [MediChainSol.medicines].
    rewrite Hex, Hsc. cbn [negb MediChainSol.status MediChainSol.set_scanCount].
    rewrite Hstatus. eexists. reflexivity.
Qed.

(* ===================================================================== *)
(** ** The theorems at concrete inputs *)
(* ===================================================================== *)

Example genesis_hash_is_the_digest :
  calculateHash Sample.genesis = Sample.genesis_hash.
Proof. vm_compute. reflexivity. Qed.

(** Awaited calls at work: a new engine, then a registration, a
    verification and the verification of an unknown batch leave five
    blocks, all valid. *)
Lemma chain_valid_after_calls_witness :
  List.length (chain (engine Sample.main_final)) = 5%nat /\
  isChainValid (engine Sample.main_final) = true /\
  chain_linked (chain (engine Sample.main_final)).
Proof.
  split; [reflexivity|].
  apply (chain_valid_after_calls Sample.main_host 2 None Sample.main_boot
           Sample.main_ops Sample.main_final).
  - vm_compute. reflexivity.
  - reflexivity.
  - vm_compute. reflexivity.
Defined.

(** C2 at work: the sold, expired record fails exactly the third and the
    fourth check. *)
Lemma verifyMedicine_checks_witness :
  match verifyMedicine Sample.shelf_host 2 (JStr "B-009") Sample.shelf with
  | Ok r _ =>
      outcomes (vr_checks r) =
        [("Blockchain Record Exists", true); ("Batch Number Matches", true);
         ("Medicine Not Expired", false); ("Not Previously Sold", false);
         ("Supply Chain Valid", true); ("Blockchain Integrity", true)] /\
      vr_isAuthentic r = false
  | _ => False
  end.
Proof.
  pose proof (verifyMedicine_checks Sample.shelf_host 2 Sample.shelf (JStr "B-009")
                ltac:(discriminate)) as Hw.
  assert (Hrun : exists r s',
             verifyMedicine Sample.shelf_host 2 (JStr "B-009") Sample.shelf = Ok r s')
    by (eexists; eexists; vm_compute; reflexivity).
  destruct Hrun as (r & s' & Hrun). rewrite Hrun in Hw |- *.
  change (JsMap.get (JStr "B-009") (medicines (engine Sample.shelf)))
    with (Some Sample.sold_record) in Hw.
  destruct Hw as (Hout & _ & Hboth).
  split; [rewrite Hout; vm_compute; reflexivity|].
  apply Hboth; reflexivity.
Defined.

(** C3 as stated fails: verifying an unknown batch on a new engine takes the
    chain from one block to three, not to two. *)
Lemma verifyMedicine_absent_appends_two_blocks :
  JsMap.has (JStr "UNKNOWN-1") (medicines (engine Sample.unknown_boot)) = false /\
  (exists r, verifyMedicine Sample.unknown_host 2 (JStr "UNKNOWN-1") Sample.unknown_boot
             = Ok r Sample.unknown_after /\
             vr_isAuthentic r = false /\ vr_medicine r = None) /\
  List.length (chain (engine Sample.unknown_boot)) = 1%nat /\
  List.length (alerts (engine Sample.unknown_after)) = 1%nat /\
  List.length (chain (engine Sample.unknown_after)) = 3%nat /\
  List.map (fun b => obj_get "type" match b_data b with JObj o => o | _ => [] end)
    (chain (engine Sample.unknown_after))
  = [JStr "genesis"; JStr "counterfeit_alert"; JStr "verification_failed"].
Proof.
  split; [reflexivity|]. split.
  - eexists. split; [vm_compute; reflexivity|]. split; reflexivity.
  - repeat split.
Qed.

(** C3 (amended) at work on the same call. *)
Lemma verifyMedicine_absent_witness :
  match verifyMedicine Sample.unknown_host 2 (JStr "UNKNOWN-1") Sample.unknown_boot with
  | Ok r s' =>
      vr_isAuthentic r = false /\
      List.length (chain (engine s')) =
        S (S (List.length (chain (engine Sample.unknown_boot))))
  | _ => False
  end.
Proof.
  pose proof (verifyMedicine_absent Sample.unknown_host 2 Sample.unknown_boot
                (JStr "UNKNOWN-1") eq_refl ltac:(discriminate)) as Hw.
  assert (Hrun : exists r s',
             verifyMedicine Sample.unknown_host 2 (JStr "UNKNOWN-1") Sample.unknown_boot
             = Ok r s')
    by (eexists; eexists; vm_compute; reflexivity).
  destruct Hrun as (r & s' & Hrun). rewrite Hrun in Hw |- *.
  destruct Hw as (Ha & _ & _ & _ & Hc & _). split; assumption.
Defined.

(** C4 at work. The same registration, with an expiry date in the past, is
    made in the engine and in the contract; the two then hold the same
    record, and the engine's verdict is [false] (check 3 fails) while the
    contract's is [true]. *)
Lemma contract_ignores_expiry_witness :
  same_record (engine Sample.expired_registered) Sample.expired_contract "B-002" /\
  (exists r s',
      verifyMedicine Sample.expired_host 2 (JStr "B-002") Sample.expired_registered
      = Ok r s' /\ vr_isAuthentic r = false) /\
  (exists c',
      MediChainSol.verifyMedicine Sample.alice "B-002" Sample.expired_contract
      = MediChainSol.Success
          (true, "Medicine is AUTHENTIC. All blockchain checks passed.") c').
Proof.
  assert (Hsame : same_record (engine Sample.expired_registered)
                    Sample.expired_contract "B-002")
    by (vm_compute; split; reflexivity).
  assert (Hget : exists m,
             JsMap.get (JStr "B-002") (medicines (engine Sample.expired_registered))
             = Some m /\ m_status m = "active" /\
             date_gt (Date_value Sample.expired_host (m_get "expiryDate" m))
               (clock Sample.expired_host (clock_reads Sample.expired_registered))
             = false)
    by (eexists; split; [reflexivity | split; [reflexivity | vm_compute; reflexivity]]).
  destruct Hget as (m & Hget & Hactive & Hexpired).
  destruct (contract_ignores_expiry Sample.expired_host 2 Sample.expired_registered
              Sample.alice Sample.expired_contract "B-002" m
              ltac:(discriminate) Hget Hsame Hactive Hexpired
              ltac:(vm_compute; discriminate) ltac:(vm_compute; discriminate))
    as (Hjs & Hsol).
  split; [exact Hsame|]. split; [|exact Hsol].
  assert (Hrun : exists r s',
             verifyMedicine Sample.expired_host 2 (JStr "B-002")
               Sample.expired_registered = Ok r s')
    by (eexists; eexists; vm_compute; reflexivity).
  destruct Hrun as (r & s' & Hrun). rewrite Hrun in Hjs.
  exists r, s'. split; [exact Hrun | apply Hjs].
Defined.

(** C5 at work: the shelf already holds B-009, the contract already holds
    B-002. *)
Lemma registerMedicine_duplicate_witness :
  registerMedicine Sample.shelf_host 2 (Sample.amoxicillin "B-009" "2027-11-01")
    Sample.shelf
  = Throw (Error "Batch B-009 already registered on blockchain") Sample.shelf /\
  MediChainSol.registerMedicine Sample.alice "Amoxicillin" "B-002" "MFG-7"
    "Acme Pharma" "2026-01-15" "2027-11-01" Sample.expired_contract
  = MediChainSol.Revert "Batch number already registered".
Proof.
  apply (registerMedicine_duplicate Sample.shelf_host 2 Sample.shelf
           (Sample.amoxicillin "B-009" "2027-11-01") Sample.alice
           Sample.expired_contract "Amoxicillin" "B-002" "MFG-7" "Acme Pharma"
           "2026-01-15" "2027-11-01").
  - reflexivity.
  - vm_compute. reflexivity.
  - vm_compute. reflexivity.
Defined.

(** C10 at work: a batch neither store has heard of. *)
Lemma getMedicine_absent_witness :
  getMedicine (JStr "B-404") (engine Sample.shelf) = None /\
  MediChainSol.getMedicine "B-404" Sample.expired_contract
  = MediChainSol.Revert "Medicine not found".
Proof.
  apply (getMedicine_absent (engine Sample.shelf) Sample.expired_contract "B-404").
  - reflexivity.
  - vm_compute. reflexivity.
Defined.

(** C6: what the engine does with an empty batch identifier and an empty
    name. Nothing is rejected: the call returns, a block is mined and
    appended, a transaction is recorded and the record is stored under the
    empty key. The contract, given the same fields by its owner, reverts with
    "Batch number cannot be empty". *)
Theorem registerMedicine_accepts_empty_batch :
  (exists r, registerMedicine Sample.blank_host 2 Sample.blank_data Sample.blank_boot
             = Ok r Sample.blank_after) /\
  List.length (chain (engine Sample.blank_boot)) = 1%nat /\
  List.length (chain (engine Sample.blank_after)) = 2%nat /\
  List.length (transactions (engine Sample.blank_after)) = 1%nat /\
  JsMap.has (JStr "") (medicines (engine Sample.blank_boot)) = false /\
  JsMap.has (JStr "") (medicines (engine Sample.blank_after)) = true /\
  MediChainSol.registerMedicine Sample.alice "" "" "MFG-7" "Acme Pharma" "2026-01-15"
    "2027-11-01" (MediChainSol.deploy Sample.alice)
  = MediChainSol.Revert "Batch number cannot be empty".
Proof.
  split; [eexists; vm_compute; reflexivity|].
  do 5 (split; [reflexivity|]). vm_compute. reflexivity.
Qed.

(** C9 at work: on a new engine a registration without a name goes through
    and stores a record without one, and the search for "amox" then throws;
    on the state of the main example, where every record has its names, the
    same search returns a list. *)
Lemma search_needs_medicineName_witness :
  (exists r, registerMedicine Sample.nameless_host 2 Sample.nameless_data
               Sample.nameless_boot = Ok r Sample.nameless_after /\
             JsMap.get (JStr "B-7") (medicines (engine Sample.nameless_after))
             = Some (fst (fst r)) /\
             m_get "medicineName" (fst (fst r)) = JUndef) /\
  search Sample.nameless_host (JStr "amox") (engine Sample.nameless_after)
  = inl TypeError /\
  (exists l, search Sample.main_host (JStr "amox") (engine Sample.main_final) = inr l).
Proof.
  destruct (search_needs_medicineName Sample.nameless_host 2) as (_ & Hstores & Hraises).
  destruct (search_needs_medicineName Sample.main_host 2) as (Htotal & _ & _).
  split; [|split].
  - specialize (Hstores Sample.nameless_boot Sample.nameless_data eq_refl eq_refl
                  ltac:(discriminate)).
    assert (Hrun : exists r,
               registerMedicine Sample.nameless_host 2 Sample.nameless_data
                 Sample.nameless_boot = Ok r Sample.nameless_after)
      by (eexists; vm_compute; reflexivity).
    destruct Hrun as (r & Hrun). rewrite Hrun in Hstores.
    exists r. split; [exact Hrun|]. exact Hstores.
  - destruct (medicines (engine Sample.nameless_after)) as [|[k m] rest] eqn:Hm;
      [discriminate|].
    apply (Hraises (engine Sample.nameless_after) "amox" k m).
    + rewrite Hm. left. reflexivity.
    + injection Hm as <- <- _. reflexivity.
    + injection Hm as <- <- _. intros b [= <-]. vm_compute. reflexivity.
  - apply Htotal. intros k m [[= <- <-]|[]].
    repeat split; [eexists; reflexivity | eexists; reflexivity|].
    intros _. eexists; reflexivity.
Defined.

(* ===================================================================== *)
(** ** JSON.parse reads back what JSON.stringify writes *)
(* ===================================================================== *)

Section TextFacts.

Lemma append_cons (c : ascii) (s t : string) :
  String c s +:+ t = String c (s +:+ t).
Proof. reflexivity. Qed.

Lemma append_empty_l (t : string) : "" +:+ t = t.
Proof. reflexivity. Qed.

Lemma append_assoc (s t u : string) : (s +:+ t) +:+ u = s +:+ (t +:+ u).
Proof.
  induction s as [|c s IH]; [reflexivity|].
  rewrite !append_cons, IH. reflexivity.
Qed.

Lemma append_empty_r (s : string) : s +:+ "" = s.
Proof.
  induction s as [|c s IH]; [reflexivity|]. rewrite append_cons, IH. reflexivity.
Qed.

Lemma length_append (s t : string) :
  String.length (s +:+ t) = (String.length s + String.length t)%nat.
Proof.
  induction s as [|c s IH]; [reflexivity|].
  rewrite append_cons. cbn [String.length]. rewrite IH. reflexivity.
Qed.

(** *** String literals *)

(** One escaped character is read back as that character. *)
Lemma parse_chars_escape (c : ascii) (tail : string) :
  JSONParse.parse_chars (JSON.escape c +:+ tail) =
  match JSONParse.parse_chars tail with
  | Some (t, rest) => Some (String c t, rest)
  | None => None
  end.
Proof.
  destruct c as [[] [] [] [] [] [] [] []]; reflexivity.
Qed.

Lemma parse_chars_quote (s rest : string) :
  JSONParse.parse_chars (JSON.escape_all s +:+ String Text.dquote rest)
  = Some (s, rest).
Proof.
  induction s as [|c s IH]; [reflexivity|].
  cbn [JSON.escape_all]. rewrite append_assoc, parse_chars_escape, IH.
  reflexivity.
Qed.

Lemma quote_append (s rest : string) :
  JSON.quote s +:+ rest =
  String Text.dquote (JSON.escape_all s +:+ String Text.dquote rest).
Proof.
  unfold JSON.quote. rewrite append_cons, append_assoc. reflexivity.
Qed.

(** *** Keywords *)

Lemma keyword_append (w rest : string) :
  JSONParse.keyword w (w +:+ rest) = Some rest.
Proof.
  induction w as [|c w IH]; [destruct rest; reflexivity|].
  rewrite append_cons. cbn [JSONParse.keyword].
  rewrite Ascii.eqb_refl. exact IH.
Qed.

End TextFacts.

Section NumberFacts.
Local Open Scope N_scope.

Lemma ten_cases (m : N) :
  m < 10 -> m = 0 \/ m = 1 \/ m = 2 \/ m = 3 \/ m = 4 \/ m = 5 \/ m = 6 \/
            m = 7 \/ m = 8 \/ m = 9.
Proof. lia. Qed.

Lemma digit_val_digit_char (m : N) :
  m < 10 -> JSONParse.digit_val (digit_char m) = Some m.
Proof.
  intros Hm.
  destruct (ten_cases m Hm) as [->|[->|[->|[->|[->|[->|[->|[->|[->| ->]]]]]]]]];
    reflexivity.
Qed.

Lemma digits_fuel_step (f : nat) (n : N) (acc : string) :
  Text.digits_fuel (S f) n acc =
  if n <? 10 then String (digit_char (n mod 10)) acc
  else Text.digits_fuel f (n / 10) (String (digit_char (n mod 10)) acc).
Proof. reflexivity. Qed.

Lemma tenth_below (f : nat) (n : N) :
  n < 2 ^ N.of_nat (S f) -> n / 10 < 2 ^ N.of_nat f.
Proof.
  intros Hn. rewrite Nat2N.inj_succ, N.pow_succ_r' in Hn.
  apply N.Div0.div_lt_upper_bound. lia.
Qed.

(** Reading the digits of [n] multiplies what was read before by a power
    of ten and adds [n]. *)
Lemma parse_digits_fuel (f : nat) :
  forall (n : N) (acc : string) (a : N) (rest : string),
    n < 2 ^ N.of_nat f ->
    exists k, JSONParse.parse_digits a (Text.digits_fuel f n acc +:+ rest)
              = JSONParse.parse_digits (a * 10 ^ k + n) (acc +:+ rest).
Proof.
  induction f as [|f IH]; intros n acc a rest Hn.
  - exists 0. cbn [Text.digits_fuel]. cbn in Hn.
    replace (a * 10 ^ 0 + n) with a by lia. reflexivity.
  - rewrite digits_fuel_step. destruct (n <? 10) eqn:Hsmall.
    + apply N.ltb_lt in Hsmall. exists 1.
      rewrite append_cons. cbn [JSONParse.parse_digits].
      rewrite digit_val_digit_char by (apply N.mod_lt; lia).
      rewrite N.mod_small by exact Hsmall.
      replace (a * 10 ^ 1 + n) with (a * 10 + n) by lia. reflexivity.
    + destruct (IH (n / 10) (String (digit_char (n mod 10)) acc) a rest
                  (tenth_below f n Hn)) as (k & Hk).
      exists (k + 1). rewrite Hk, append_cons. cbn [JSONParse.parse_digits].
      rewrite digit_val_digit_char by (apply N.mod_lt; lia).
      f_equal. rewrite N.pow_add_r.
      pose proof (N.div_mod n 10 ltac:(lia)). lia.
Qed.

(** The first digit written for a positive number is not zero. *)
Lemma digits_fuel_head (f : nat) :
  forall (n : N) (acc : string),
    0 < n -> n < 2 ^ N.of_nat f ->
    exists m t, Text.digits_fuel f n acc = String (digit_char m) t /\ 0 < m < 10.
Proof.
  induction f as [|f IH]; intros n acc Hpos Hn.
  - cbn in Hn. lia.
  - rewrite digits_fuel_step. destruct (n <? 10) eqn:Hsmall.
    + apply N.ltb_lt in Hsmall. exists (n mod 10), acc.
      rewrite N.mod_small by exact Hsmall. split; [reflexivity | lia].
    + apply N.ltb_ge in Hsmall.
      apply IH; [|apply tenth_below; exact Hn].
      apply N.div_str_pos. lia.
Qed.

Lemma below_of_N_fuel (n : N) :
  0 < n -> n < 2 ^ N.of_nat (S (N.to_nat (N.log2 n))).
Proof.
  intros Hpos. rewrite Nat2N.inj_succ, N2Nat.id.
  apply (N.log2_spec n Hpos).
Qed.

Lemma delimited_not_digit (rest : string) (n : N) :
  delimited rest -> JSONParse.parse_digits n rest = (n, rest).
Proof.
  destruct rest as [|c rest]; [reflexivity|]. cbn [delimited JSONParse.parse_digits].
  unfold JSONParse.digit_val.
  intros [-> | [-> | ->]]; reflexivity.
Qed.

Lemma delimited_not_fraction (rest : string) :
  delimited rest -> JSONParse.starts_fraction rest = false.
Proof.
  destruct rest as [|c rest]; [reflexivity|]. cbn [delimited JSONParse.starts_fraction].
  intros [-> | [-> | ->]]; reflexivity.
Qed.

Lemma parse_nat_of_N (n : N) (rest : string) :
  delimited rest ->
  JSONParse.parse_nat (Text.of_N n +:+ rest) = Some (n, rest).
Proof.
  intros Hrest. destruct (N.eq_dec n 0) as [->|Hn].
  - change (Text.of_N 0) with "0". rewrite append_cons, append_empty_l.
    cbn [JSONParse.parse_nat]. change (JSONParse.digit_val "0") with (Some 0).
    cbv iota. rewrite delimited_not_fraction by exact Hrest. reflexivity.
  - assert (Hpos : 0 < n) by lia. unfold Text.of_N.
    destruct (digits_fuel_head _ n "" Hpos (below_of_N_fuel n Hpos))
      as (m & t & Hhead & Hm).
    destruct (parse_digits_fuel _ n "" 0 rest (below_of_N_fuel n Hpos)) as (k & Hk).
    rewrite Hhead in Hk |- *. rewrite append_cons in Hk |- *.
    cbn [JSONParse.parse_digits] in Hk.
    rewrite digit_val_digit_char in Hk by lia.
    cbn [JSONParse.parse_nat]. rewrite digit_val_digit_char by lia.
    destruct m as [|p]; [lia|].
    change (0 * 10 + N.pos p) with (N.pos p) in Hk. rewrite Hk.
    rewrite append_empty_l, N.mul_0_l, N.add_0_l.
    rewrite delimited_not_digit by exact Hrest.
    rewrite delimited_not_fraction by exact Hrest. reflexivity.
Qed.

(** The first character of a number is a minus sign or a digit. *)
Lemma of_Z_head (z : Z) :
  exists c t, Text.of_Z z = String c t /\
              (c = "-"%char \/ exists m, m < 10 /\ c = digit_char m).
Proof.
  destruct z as [|p|p].
  - exists "0"%char, "". split; [reflexivity|]. right. exists 0. split; [lia|reflexivity].
  - cbn [Text.of_Z Z.to_N]. unfold Text.of_N.
    destruct (digits_fuel_head _ (N.pos p) "" ltac:(lia)
                (below_of_N_fuel (N.pos p) ltac:(lia))) as (m & t & -> & Hm).
    exists (digit_char m), t. split; [reflexivity|]. right. exists m. split; [lia|reflexivity].
  - exists "-"%char, (Text.of_N (N.pos p)). split; [reflexivity|]. left. reflexivity.
Qed.

Lemma parse_number_of_Z (z : Z) (rest : string) :
  delimited rest ->
  JSONParse.parse_number (Text.of_Z z +:+ rest) = Some (z, rest).
Proof.
  intros Hrest. destruct z as [|p|p].
  - change (Text.of_Z 0) with (Text.of_N 0).
    pose proof (parse_nat_of_N 0 rest Hrest) as Hp.
    change (Text.of_N 0) with "0" in *. rewrite append_cons in *.
    unfold JSONParse.parse_number. change (N_of_ascii "0" =? 45) with false.
    cbv iota. rewrite Hp. reflexivity.
  - cbn [Text.of_Z Z.to_N].
    pose proof (parse_nat_of_N (N.pos p) rest Hrest) as Hp.
    unfold Text.of_N in *.
    destruct (digits_fuel_head _ (N.pos p) "" ltac:(lia)
                (below_of_N_fuel (N.pos p) ltac:(lia))) as (m & t & Hhead & Hm).
    rewrite Hhead in *. rewrite append_cons in *.
    unfold JSONParse.parse_number.
    assert (Hnot : (N_of_ascii (digit_char m) =? 45) = false).
    { destruct (ten_cases m ltac:(lia))
        as [->|[->|[->|[->|[->|[->|[->|[->|[->| ->]]]]]]]]]; reflexivity. }
    rewrite Hnot, Hp. reflexivity.
  - cbn [Text.of_Z]. rewrite append_assoc, append_cons, append_empty_l.
    unfold JSONParse.parse_number. change (N_of_ascii "-" =? 45) with true.
    cbv iota. rewrite (parse_nat_of_N (N.pos p) rest Hrest). reflexivity.
Qed.

End NumberFacts.

Section ValueRoundTrip.

(** *** The shape of the printer and of the measures *)

Lemma json_value_arr (l : list jsval) :
  json_value (JArr l) = List.forallb json_value l.
Proof. induction l as [|x l IH]; [reflexivity|]. cbn in *. rewrite IH. reflexivity. Qed.

Lemma json_value_obj (o : props) :
  json_value (JObj o) =
  unique (List.map fst o) && List.forallb (fun kv => json_value (snd kv)) o.
Proof.
  cbn [json_value]. f_equal.
  induction o as [|[k x] o IH]; [reflexivity|]. cbn in *. rewrite IH. reflexivity.
Qed.

Lemma weight_arr (l : list jsval) : weight (JArr l) = S (weight_list l).
Proof.
  cbn [weight]; f_equal;
  try (induction l as [|x l IH]; [reflexivity|]; cbn in *; rewrite IH; reflexivity).
Qed.

Lemma weight_obj (o : props) : weight (JObj o) = S (weight_props o).
Proof.
  cbn [weight]; f_equal;
  try (induction o as [|[k x] o IH]; [reflexivity|]; cbn in *; rewrite IH; reflexivity).
Qed.

Lemma stringify_arr (l : list jsval) :
  JSON.stringify (JArr l) =
  Some ("[" +:+ String.concat "," (List.map element_text l) +:+ "]").
Proof. reflexivity. Qed.

Lemma stringify_obj (o : props) :
  JSON.stringify (JObj o) =
  Some ("{" +:+ String.concat "," (member_texts o) +:+ "}").
Proof.
  reflexivity.
Qed.

Lemma concat_cons2 (sep x y : string) (l : list string) :
  String.concat sep (x :: y :: l) = x +:+ sep +:+ String.concat sep (y :: l).
Proof. reflexivity. Qed.

(** *** One step of each parser *)

Lemma skip_ws_head (c : ascii) (s : string) :
  JSONParse.is_ws c = false -> JSONParse.skip_ws (String c s) = String c s.
Proof. intros Hc. cbn [JSONParse.skip_ws]. rewrite Hc. reflexivity. Qed.

Lemma skip_ws_starts_value (t rest : string) :
  starts_value t -> JSONParse.skip_ws (t +:+ rest) = t +:+ rest.
Proof.
  intros (c & t' & -> & Hws & _). rewrite append_cons. apply skip_ws_head; exact Hws.
Qed.

Lemma parse_value_string (f : nat) (r : string) :
  JSONParse.parse_value (S f) (String Text.dquote r) =
  match JSONParse.parse_chars r with
  | Some (t, rest) => Some (JStr t, rest)
  | None => None
  end.
Proof. reflexivity. Qed.

Lemma parse_value_number (f : nat) (c : ascii) (s : string) :
  (c = "-"%char \/ exists m, (m < 10)%N /\ c = digit_char m) ->
  JSONParse.parse_value (S f) (String c s) =
  match JSONParse.parse_number (String c s) with
  | Some (z, rest) => Some (JNum z, rest)
  | None =>
      match JSONParse.after_number (String c s) with
      | Some rest => Some (JSONParse.unrepresented, rest)
      | None => None
      end
  end.
Proof.
  intros [->|(m & Hm & ->)]; [reflexivity|].
  destruct (ten_cases m Hm) as [->|[->|[->|[->|[->|[->|[->|[->|[->| ->]]]]]]]]];
    reflexivity.
Qed.

Lemma parse_value_array (f : nat) (r : string) :
  JSONParse.parse_value (S f) (String "[" r) =
  match JSONParse.skip_ws r with
  | String c' r' =>
      if (N_of_ascii c' =? 93)%N then Some (JArr [], r')
      else
        match JSONParse.parse_elements f r with
        | Some (l, rest) => Some (JArr l, rest)
        | None => None
        end
  | EmptyString => None
  end.
Proof. reflexivity. Qed.

Lemma parse_value_object (f : nat) (r : string) :
  JSONParse.parse_value (S f) (String "{" r) =
  match JSONParse.skip_ws r with
  | String c' r' =>
      if (N_of_ascii c' =? 125)%N then Some (JObj [], r')
      else
        match JSONParse.parse_members f r with
        | Some (ms, rest) => Some (JObj (JSONParse.obj_of_members ms), rest)
        | None => None
        end
  | EmptyString => None
  end.
Proof. reflexivity. Qed.

Lemma parse_elements_step (f : nat) (s : string) :
  JSONParse.parse_elements (S f) s =
  match JSONParse.parse_value f s with
  | Some (v, r) =>
      match JSONParse.skip_ws r with
      | String c r' =>
          if (N_of_ascii c =? 44)%N then
            match JSONParse.parse_elements f r' with
            | Some (l, rest) => Some (v :: l, rest)
            | None => None
            end
          else if (N_of_ascii c =? 93)%N then Some ([v], r')
          else None
      | EmptyString => None
      end
  | None => None
  end.
Proof. reflexivity. Qed.

Lemma parse_members_step (f : nat) (k : string) (tail : string) :
  JSONParse.parse_members (S f) (JSON.quote k +:+ String ":" tail) =
  match JSONParse.parse_value f tail with
  | Some (v, r3) =>
      match JSONParse.skip_ws r3 with
      | String c r4 =>
          if (N_of_ascii c =? 44)%N then
            match JSONParse.parse_members f r4 with
            | Some (ms, rest) => Some ((k, v) :: ms, rest)
            | None => None
            end
          else if (N_of_ascii c =? 125)%N then Some ([(k, v)], r4)
          else None
      | EmptyString => None
      end
  | None => None
  end.
Proof.
  rewrite quote_append.
  change (JSONParse.parse_members (S f) (String Text.dquote ?r))
    with (match JSONParse.parse_chars r with
          | Some (k, r1) =>
              match JSONParse.skip_ws r1 with
              | String colon r2 =>
                  if (N_of_ascii colon =? 58)%N then
                    match JSONParse.parse_value f r2 with
                    | Some (v, r3) =>
                        match JSONParse.skip_ws r3 with
                        | String c r4 =>
                            if (N_of_ascii c =? 44)%N then
                              match JSONParse.parse_members f r4 with
                              | Some (ms, rest) => Some ((k, v) :: ms, rest)
                              | None => None
                              end
                            else if (N_of_ascii c =? 125)%N
                                 then Some ([(k, v)], r4)
                                 else None
                        | EmptyString => None
                        end
                    | None => None
                    end
                  else None
              | EmptyString => None
              end
          | None => None
          end).
  rewrite parse_chars_quote. reflexivity.
Qed.

End ValueRoundTrip.

Section ObjectFacts.

Lemma obj_set_fresh (k : string) (v : jsval) (o : props) :
  obj_has k o = false -> obj_set k v o = o ++ [(k, v)].
Proof.
  induction o as [|[k' v'] o IH]; [reflexivity|].
  cbn [obj_has obj_set app]. destruct (String.eqb k k'); [discriminate|].
  intros Hfresh. rewrite (IH Hfresh). reflexivity.
Qed.

Lemma obj_has_app (k : string) (o o' : props) :
  obj_has k (o ++ o') = obj_has k o || obj_has k o'.
Proof.
  induction o as [|[k' v'] o IH]; [reflexivity|].
  cbn [obj_has app]. rewrite IH, orb_assoc. reflexivity.
Qed.

Lemma existsb_eqb_false (k : string) (ks : list string) :
  List.existsb (String.eqb k) ks = false -> forall k', In k' ks -> String.eqb k' k = false.
Proof.
  induction ks as [|x ks IH]; [contradiction|].
  cbn [List.existsb]. intros Hx k' [<-|Hin].
  - apply orb_false_elim in Hx as [Hx _]. rewrite String.eqb_sym. exact Hx.
  - apply orb_false_elim in Hx as [_ Hx]. apply IH; assumption.
Qed.

Lemma fold_obj_set (ms acc : props) :
  unique (List.map fst ms) = true ->
  (forall k, In k (List.map fst ms) -> obj_has k acc = false) ->
  List.fold_left (fun o kv => obj_set (fst kv) (snd kv) o) ms acc = acc ++ ms.
Proof.
  revert acc. induction ms as [|[k v] ms IH]; intros acc Huniq Hfresh.
  - cbn. rewrite app_nil_r. reflexivity.
  - cbn [List.map fst unique] in Huniq. apply andb_prop in Huniq as [Hk Huniq].
    apply negb_true_iff in Hk.
    cbn [List.fold_left fst snd].
    rewrite obj_set_fresh by (apply Hfresh; left; reflexivity).
    rewrite IH; [rewrite <- app_assoc; reflexivity | exact Huniq |].
    intros k' Hin. rewrite obj_has_app. cbn [obj_has].
    rewrite (Hfresh k') by (right; exact Hin).
    rewrite (existsb_eqb_false k _ Hk k' Hin). reflexivity.
Qed.

Lemma obj_of_members_unique (o : props) :
  unique (List.map fst o) = true -> JSONParse.obj_of_members o = o.
Proof.
  intros Huniq. unfold JSONParse.obj_of_members.
  rewrite fold_obj_set; [reflexivity | exact Huniq | reflexivity].
Qed.

End ObjectFacts.

Section Induction.

Lemma delimited_comma (s : string) : delimited (String "," s).
Proof. left. reflexivity. Qed.

Lemma delimited_bracket (s : string) : delimited (String "]" s).
Proof. right. left. reflexivity. Qed.

Lemma delimited_brace (s : string) : delimited (String "}" s).
Proof. right. right. reflexivity. Qed.

(** The elements of a non-empty array, up to and including the closing
    bracket. *)
Lemma parse_elements_texts (l : list jsval) :
  Forall reads_back l -> List.forallb json_value l = true -> l <> [] ->
  forall (fuel : nat) (rest : string),
    (weight_list l <= fuel)%nat ->
    JSONParse.parse_elements fuel
      (String.concat "," (List.map element_text l) +:+ String "]" rest)
    = Some (l, rest).
Proof.
  intros Hall. induction Hall as [|x l Hx Hall IH]; intros Hjson Hne fuel rest Hfuel;
    [congruence|].
  cbn [List.forallb] in Hjson. apply andb_prop in Hjson as [Hjx Hjl].
  destruct (Hx Hjx) as (tx & Hprint & _ & Hparse).
  cbn [weight_list List.fold_right] in Hfuel.
  destruct fuel as [|fuel]; [lia|].
  rewrite parse_elements_step.
  assert (Htext : element_text x = tx) by (unfold element_text; rewrite Hprint; reflexivity).
  destruct l as [|y l].
  - cbn [List.map String.concat]. rewrite Htext.
    rewrite (Hparse fuel (String "]" rest)) by (try apply delimited_bracket; lia).
    reflexivity.
  - cbn [List.map]. rewrite concat_cons2, Htext, !append_assoc.
    change ("," +:+ ?s) with (String "," s).
    rewrite (Hparse fuel _) by (try apply delimited_comma; lia).
    rewrite skip_ws_head by reflexivity.
    change (N_of_ascii "," =? 44)%N with true. cbv iota.
    change (String.concat "," (element_text y :: List.map element_text l))
      with (String.concat "," (List.map element_text (y :: l))).
    rewrite IH; [reflexivity | exact Hjl | discriminate |].
    fold (weight_list (y :: l)) in Hfuel. lia.
Qed.

(** The members of a non-empty object, up to and including the closing
    brace. *)
Lemma parse_members_texts (o : props) :
  Forall (fun kv => reads_back (snd kv)) o ->
  List.forallb (fun kv => json_value (snd kv)) o = true -> o <> [] ->
  forall (fuel : nat) (rest : string),
    (weight_props o <= fuel)%nat ->
    JSONParse.parse_members fuel
      (String.concat "," (member_texts o) +:+ String "}" rest)
    = Some (o, rest).
Proof.
  intros Hall. induction Hall as [|[k x] o Hx Hall IH];
    intros Hjson Hne fuel rest Hfuel; [congruence|].
  cbn [List.forallb snd] in Hjson. apply andb_prop in Hjson as [Hjx Hjo].
  cbn [snd] in Hx. destruct (Hx Hjx) as (tx & Hprint & _ & Hparse).
  cbn [weight_props List.fold_right snd] in Hfuel.
  destruct fuel as [|fuel]; [lia|].
  cbn [member_texts]. rewrite Hprint.
  destruct o as [|[k' y] o].
  - cbn [member_texts String.concat]. rewrite !append_assoc.
    change (":" +:+ ?s) with (String ":" s).
    rewrite parse_members_step.
    rewrite (Hparse fuel (String "}" rest)) by (try apply delimited_brace; lia).
    reflexivity.
  - assert (Hy : exists ty, JSON.stringify y = Some ty).
    { apply andb_prop in Hjo as [Hjy _]. cbn [snd] in Hjy.
      inversion Hall as [|? ? Hry _]; subst. cbn [snd] in Hry.
      destruct (Hry Hjy) as (ty & Hty & _). exists ty; exact Hty. }
    destruct Hy as (ty & Hty).
    assert (Hrest_texts : member_texts ((k', y) :: o)
                          = (JSON.quote k' +:+ ":" +:+ ty) :: member_texts o)
      by (cbn [member_texts]; rewrite Hty; reflexivity).
    rewrite Hrest_texts, concat_cons2, <- Hrest_texts, !append_assoc.
    change (":" +:+ ?s) with (String ":" s).
    rewrite parse_members_step.
    change ("," +:+ ?s) with (String "," s).
    rewrite (Hparse fuel _) by (try apply delimited_comma; lia).
    rewrite skip_ws_head by reflexivity.
    change (N_of_ascii "," =? 44)%N with true. cbv iota.
    rewrite IH; [reflexivity | exact Hjo | discriminate |].
    fold (weight_props ((k', y) :: o)) in Hfuel. lia.
Qed.

Lemma starts_value_head (c : ascii) (t : string) :
  JSONParse.is_ws c = false -> (N_of_ascii c =? 93)%N = false ->
  starts_value (String c t).
Proof. intros Hws Hb. exists c, t. repeat split; assumption. Qed.

(** Every JSON value is read back from its text. *)
Lemma json_reads_back (v : jsval) : reads_back v.
Proof.
  induction v as [| |b|z|s|l IH|o IH] using jsval_ind; intros Hjson.
  - discriminate.
  - exists "null". split; [reflexivity|]. split; [apply starts_value_head; reflexivity|].
    intros [|f] rest Hf _; [cbn in Hf; lia|]. reflexivity.
  - destruct b.
    + exists "true". split; [reflexivity|]. split; [apply starts_value_head; reflexivity|].
      intros [|f] rest Hf _; [cbn in Hf; lia|]. reflexivity.
    + exists "false". split; [reflexivity|]. split; [apply starts_value_head; reflexivity|].
      intros [|f] rest Hf _; [cbn in Hf; lia|]. reflexivity.
  - exists (Text.of_Z z). split; [reflexivity|].
    destruct (of_Z_head z) as (c & t & Hhead & Hc). split.
    + rewrite Hhead. destruct Hc as [->|(m & Hm & ->)];
        [apply starts_value_head; reflexivity|].
      destruct (ten_cases m Hm) as [->|[->|[->|[->|[->|[->|[->|[->|[->| ->]]]]]]]]];
        apply starts_value_head; reflexivity.
    + intros [|f] rest Hf Hrest; [cbn in Hf; lia|].
      pose proof (parse_number_of_Z z rest Hrest) as Hnum.
      rewrite Hhead in Hnum |- *. rewrite append_cons in Hnum |- *.
      rewrite (parse_value_number f c _ Hc), Hnum. reflexivity.
  - exists (JSON.quote s). split; [reflexivity|].
    split; [apply starts_value_head; reflexivity|].
    intros [|f] rest Hf _; [cbn in Hf; lia|].
    rewrite quote_append, parse_value_string, parse_chars_quote. reflexivity.
  - rewrite json_value_arr in Hjson. rewrite stringify_arr.
    eexists. split; [reflexivity|]. split; [apply starts_value_head; reflexivity|].
    intros fuel rest Hf _. rewrite weight_arr in Hf.
    destruct fuel as [|f]; [lia|].
    rewrite !append_assoc. change ("[" +:+ ?s) with (String "[" s).
    change ("]" +:+ rest) with (String "]" rest).
    rewrite parse_value_array.
    destruct l as [|x l].
    + reflexivity.
    + assert (Hhead : starts_value
                        (String.concat "," (List.map element_text (x :: l)))).
      { inversion IH as [|? ? Hx _]; subst.
        cbn [List.forallb] in Hjson. apply andb_prop in Hjson as [Hjx _].
        destruct (Hx Hjx) as (tx & Hprint & (c & t' & -> & Hws & Hb) & _).
        assert (Htext : element_text x = String c t')
          by (unfold element_text; rewrite Hprint; reflexivity).
        destruct l as [|y l].
        - cbn [List.map String.concat]. rewrite Htext.
          apply starts_value_head; assumption.
        - cbn [List.map]. rewrite concat_cons2, Htext, append_cons.
          apply starts_value_head; assumption. }
      destruct Hhead as (c & t' & Hhead & Hws & Hb).
      rewrite parse_elements_texts; [|exact IH|exact Hjson|discriminate|lia].
      rewrite Hhead, append_cons, skip_ws_head by exact Hws.
      rewrite Hb. reflexivity.
  - rewrite json_value_obj in Hjson. apply andb_prop in Hjson as [Huniq Hjson].
    rewrite stringify_obj.
    eexists. split; [reflexivity|]. split; [apply starts_value_head; reflexivity|].
    intros fuel rest Hf _. rewrite weight_obj in Hf.
    destruct fuel as [|f]; [lia|].
    rewrite !append_assoc. change ("{" +:+ ?s) with (String "{" s).
    change ("}" +:+ rest) with (String "}" rest).
    rewrite parse_value_object.
    destruct o as [|[k x] o].
    + reflexivity.
    + rewrite parse_members_texts; [|exact IH|exact Hjson|discriminate|lia].
      rewrite (obj_of_members_unique _ Huniq).
      assert (Hhead : exists t', String.concat "," (member_texts ((k, x) :: o))
                                 = String Text.dquote t').
      { cbn [List.forallb snd] in Hjson. apply andb_prop in Hjson as [Hjx _].
        inversion IH as [|? ? Hx _]; subst. cbn [snd] in Hx.
        destruct (Hx Hjx) as (tx & Hprint & _).
        cbn [member_texts]. rewrite Hprint.
        destruct (member_texts o); eexists; reflexivity. }
      destruct Hhead as (t' & ->). reflexivity.
Qed.

End Induction.

Section WholeText.

Lemma length_quote (s : string) : (2 <= String.length (JSON.quote s))%nat.
Proof.
  unfold JSON.quote. cbn [String.length]. rewrite length_append.
  cbn [String.length]. lia.
Qed.

Lemma weight_list_length (l : list jsval) :
  Forall (fun x => forall t, JSON.stringify x = Some t ->
                             (weight x <= String.length t)%nat) l ->
  List.forallb json_value l = true -> l <> [] ->
  (weight_list l <= S (String.length (String.concat "," (List.map element_text l))))%nat.
Proof.
  intros Hall. induction Hall as [|x l Hx Hall IH]; intros Hjson Hne; [congruence|].
  cbn [List.forallb] in Hjson. apply andb_prop in Hjson as [Hjx Hjl].
  destruct (json_reads_back x Hjx) as (tx & Hprint & _).
  assert (Htext : element_text x = tx) by (unfold element_text; rewrite Hprint; reflexivity).
  specialize (Hx tx Hprint). cbn [weight_list List.fold_right].
  destruct l as [|y l].
  - cbn [List.map String.concat List.fold_right]. rewrite Htext. lia.
  - cbn [List.map]. rewrite concat_cons2, Htext, !length_append.
    cbn [String.length].
    specialize (IH Hjl ltac:(discriminate)).
    fold (weight_list (y :: l)). cbn [List.map] in IH. lia.
Qed.

Lemma weight_props_length (o : props) :
  Forall (fun kv => forall t, JSON.stringify (snd kv) = Some t ->
                              (weight (snd kv) <= String.length t)%nat) o ->
  List.forallb (fun kv => json_value (snd kv)) o = true -> o <> [] ->
  (weight_props o <= S (String.length (String.concat "," (member_texts o))))%nat.
Proof.
  intros Hall. induction Hall as [|[k x] o Hx Hall IH]; intros Hjson Hne; [congruence|].
  cbn [List.forallb snd] in Hjson. apply andb_prop in Hjson as [Hjx Hjo].
  destruct (json_reads_back x Hjx) as (tx & Hprint & _).
  cbn [snd] in Hx. specialize (Hx tx Hprint).
  cbn [weight_props List.fold_right snd]. cbn [member_texts]. rewrite Hprint.
  destruct o as [|[k' y] o].
  - cbn [member_texts String.concat List.fold_right]. rewrite !length_append.
    pose proof (length_quote k). cbn [String.length]. lia.
  - specialize (IH Hjo ltac:(discriminate)).
    fold (weight_props ((k', y) :: o)).
    destruct (member_texts ((k', y) :: o)) as [|m ms] eqn:Hms.
    + exfalso. cbn [member_texts] in Hms.
      apply andb_prop in Hjo as [Hjy _]. cbn [snd] in Hjy.
      destruct (json_reads_back y Hjy) as (ty & Hty & _).
      rewrite Hty in Hms. discriminate.
    + rewrite concat_cons2, !length_append.
      pose proof (length_quote k). cbn [String.length]. lia.
Qed.

Lemma weight_length (v : jsval) :
  json_value v = true ->
  forall t, JSON.stringify v = Some t -> (weight v <= String.length t)%nat.
Proof.
  induction v as [| |b|z|s|l IH|o IH] using jsval_ind; intros Hjson t Ht.
  - discriminate.
  - injection Ht as <-. cbn. lia.
  - destruct b; injection Ht as <-; cbn; lia.
  - injection Ht as <-. destruct (of_Z_head z) as (c & t' & -> & _). cbn. lia.
  - injection Ht as <-. pose proof (length_quote s). cbn [weight]. lia.
  - rewrite stringify_arr in Ht. injection Ht as <-.
    rewrite json_value_arr in Hjson. rewrite weight_arr, !length_append.
    cbn [String.length]. destruct l as [|x l]; [cbn; lia|].
    pose proof (weight_list_length (x :: l)) as Hl.
    assert (Hall : Forall (fun x => forall t, JSON.stringify x = Some t ->
                                              (weight x <= String.length t)%nat)
                     (x :: l)).
    { rewrite Forall_forall in IH |- *. intros y Hy t Hty.
      apply IH; [exact Hy| |exact Hty].
      rewrite forallb_forall in Hjson. apply Hjson.
      apply list_elem_of_In. exact Hy. }
    specialize (Hl Hall Hjson ltac:(discriminate)). lia.
  - rewrite stringify_obj in Ht. injection Ht as <-.
    rewrite json_value_obj in Hjson. apply andb_prop in Hjson as [_ Hjson].
    rewrite weight_obj, !length_append.
    cbn [String.length]. destruct o as [|kx o]; [cbn; lia|].
    pose proof (weight_props_length (kx :: o)) as Ho.
    assert (Hall : Forall (fun kv => forall t, JSON.stringify (snd kv) = Some t ->
                                               (weight (snd kv) <= String.length t)%nat)
                     (kx :: o)).
    { rewrite Forall_forall in IH |- *. intros y Hy t Hty.
      apply IH; [exact Hy| |exact Hty].
      rewrite forallb_forall in Hjson. apply (Hjson y).
      apply list_elem_of_In. exact Hy. }
    specialize (Ho Hall Hjson ltac:(discriminate)). lia.
Qed.

(** [JSON.parse(JSON.stringify(v))] is [v] again, for a JSON value [v]. *)
Lemma parse_stringify (v : jsval) :
  json_value v = true ->
  JSONParse.parse (JSON.stringify_str v) = Some v.
Proof.
  intros Hjson. destruct (json_reads_back v Hjson) as (t & Hprint & _ & Hparse).
  unfold JSON.stringify_str, JSONParse.parse. rewrite Hprint.
  pose proof (Hparse (S (String.length t)) "") as Hp.
  rewrite append_empty_r in Hp. rewrite Hp; [reflexivity| |exact Logic.I].
  pose proof (weight_length v Hjson t Hprint). lia.
Qed.

Lemma json_value_whole (v : jsval) : json_value v = true -> JSONParse.whole v = true.
Proof.
  induction v as [| |b|z|s|l IH|o IH] using jsval_ind; try (intros; reflexivity).
  - discriminate.
  - rewrite json_value_arr. intros Hl.
    induction l as [|x l IHl]; [reflexivity|].
    cbn [List.forallb] in Hl. apply andb_prop in Hl as [Hx Hl].
    apply List.Forall_cons_iff in IH as [IHx IH].
    change (JSONParse.whole (JArr (x :: l)))
      with (JSONParse.whole x && JSONParse.whole (JArr l)).
    rewrite (IHx Hx), (IHl IH Hl). reflexivity.
  - rewrite json_value_obj. intros Ho. apply andb_prop in Ho as [_ Ho].
    induction o as [|[k x] o IHo]; [reflexivity|].
    cbn [List.forallb snd] in Ho. apply andb_prop in Ho as [Hx Ho].
    apply List.Forall_cons_iff in IH as [IHx IH]. cbn [snd] in IHx.
    change (JSONParse.whole (JObj ((k, x) :: o)))
      with (JSONParse.whole x && JSONParse.whole (JObj o)).
    rewrite (IHx Hx), (IHo IH Ho). reflexivity.
Qed.

(** What [JSON.stringify] wrote of a JSON value, [JSON.parse] reads back. *)
Lemma read_stringify (v : jsval) :
  json_value v = true ->
  JSONParse.read (JSON.stringify_str v) = JSONParse.Value v.
Proof.
  intros Hjson. unfold JSONParse.read.
  rewrite (parse_stringify v Hjson), (json_value_whole v Hjson). reflexivity.
Qed.

End WholeText.

Example parse_stringify_sample :
  JSONParse.parse (JSON.stringify_str (Engine_json (engine Sample.main_final)))
  = Some (Engine_json (engine Sample.main_final)).
Proof. vm_compute. reflexivity. Qed.

(* ===================================================================== *)
(** ** save, then initialize *)
(* ===================================================================== *)

Section TypedFacts.

Lemma as_N_num (n : N) : Typed.as_N (num n) = Some n.
Proof.
  unfold Typed.as_N, num.
  destruct (0 <=? Z.of_N n)%Z eqn:Hle; [rewrite N2Z.id; reflexivity|].
  apply Z.leb_gt in Hle. lia.
Qed.

Lemma optional_num (n : N) : Typed.optional Typed.as_N (num n) = Some (Some n).
Proof.
  change (Typed.optional Typed.as_N (num n))
    with (option_map Some (Typed.as_N (num n))).
  rewrite as_N_num. reflexivity.
Qed.

Lemma as_list_map {A : Type} (f : jsval -> option A) (g : A -> jsval) (l : list A) :
  (forall a, In a l -> f (g a) = Some a) ->
  Typed.as_list f (List.map g l) = Some l.
Proof.
  induction l as [|a l IH]; intros Hfg; [reflexivity|].
  cbn [List.map Typed.as_list]. rewrite (Hfg a (or_introl eq_refl)).
  rewrite IH; [reflexivity|]. intros b Hb. apply Hfg. right. exact Hb.
Qed.

Lemma to_Block_json (b : Block) : Typed.to_Block (Block_json b) = Some b.
Proof.
  destruct b as [i ts d ph h n]. unfold Typed.to_Block, Block_json.
  cbn [obj_get String.eqb Ascii.eqb Bool.eqb b_index b_timestamp b_data
       b_previousHash b_hash b_nonce Typed.as_str].
  rewrite !as_N_num. reflexivity.
Qed.

Lemma to_Transaction_json (t : Transaction) :
  Typed.to_Transaction (Transaction_json t) = Some t.
Proof.
  destruct t as [id ty d f to ts h bn st]. unfold Typed.to_Transaction, Transaction_json.
  cbn [obj_get String.eqb Ascii.eqb Bool.eqb tx_id tx_type tx_data tx_from tx_to
       tx_timestamp tx_hash tx_blockNumber tx_status Typed.as_str].
  destruct bn as [n|]; [|reflexivity].
  unfold num. cbv beta iota. fold (num n). rewrite as_N_num. reflexivity.
Qed.

Lemma to_Checkpoint_json (c : Checkpoint) :
  Typed.to_Checkpoint (Checkpoint_json c) = Some c.
Proof. destruct c. reflexivity. Qed.

Lemma to_VerificationEntry_json (v : VerificationEntry) :
  Typed.to_VerificationEntry (VerificationEntry_json v) = Some v.
Proof. destruct v. reflexivity. Qed.

Lemma to_Alert_json (a : Alert) : Typed.to_Alert (Alert_json a) = Some a.
Proof. destruct a. reflexivity. Qed.

(** *** Medicine records *)

Lemma obj_get_skip (k : string) (o tail : props) :
  obj_has k o = false -> obj_get k (o ++ tail) = obj_get k tail.
Proof.
  induction o as [|[k' v] o IH]; [reflexivity|].
  cbn [obj_has obj_get app]. destruct (String.eqb k k'); [discriminate|]. exact IH.
Qed.

Lemma own_fields_has (m : Medicine) (k : string) :
  own_fields m = true -> is_engine_key k = true -> obj_has k (m_fields m) = false.
Proof.
  unfold own_fields. intros Hown Hk.
  induction (m_fields m) as [|[k' v] o IH]; [reflexivity|].
  cbn [List.forallb fst] in Hown. apply andb_prop in Hown as [Hk' Hown].
  cbn [obj_has]. rewrite (IH Hown), orb_false_r.
  destruct (String.eqb k k') eqn:Heq; [|reflexivity].
  apply String.eqb_eq in Heq. subst k'. rewrite Hk in Hk'. discriminate.
Qed.

Lemma filter_own (o tail : props) :
  List.forallb (fun kv => negb (is_engine_key (fst kv))) o = true ->
  List.forallb (fun kv => is_engine_key (fst kv)) tail = true ->
  List.filter (fun kv => negb (is_engine_key (fst kv))) (o ++ tail) = o.
Proof.
  intros Ho Ht. induction o as [|kv o IH].
  - cbn [app]. induction tail as [|kv tail IH]; [reflexivity|].
    cbn [List.forallb] in Ht. apply andb_prop in Ht as [Hkv Ht].
    cbn [List.filter]. rewrite Hkv. cbn [negb]. exact (IH Ht).
  - cbn [List.forallb] in Ho. apply andb_prop in Ho as [Hkv Ho].
    cbn [app List.filter]. rewrite Hkv, (IH Ho). reflexivity.
Qed.

Lemma to_Medicine_json (m : Medicine) :
  own_fields m = true -> Typed.to_Medicine (Medicine_json m) = Some m.
Proof.
  intros Hown. destruct m as [fields ra st sc chain vs bh bn].
  unfold Typed.to_Medicine, Medicine_json.
  cbn [m_fields m_registeredAt m_status m_scanCount m_supplyChain m_verifications
       m_blockHash m_blockNumber].
  pose proof (fun k Hk => own_fields_has _ k Hown Hk) as Hskip.
  cbn [m_fields] in Hskip.
  rewrite (obj_get_skip "registeredAt"), (obj_get_skip "status"),
    (obj_get_skip "scanCount"), (obj_get_skip "supplyChain"),
    (obj_get_skip "verifications"), (obj_get_skip "blockHash"),
    (obj_get_skip "blockNumber") by (apply Hskip; reflexivity).
  rewrite filter_own; [|exact Hown|destruct bh, bn; reflexivity].
  cbn [app obj_get String.eqb Ascii.eqb Bool.eqb Typed.as_str].
  rewrite as_N_num.
  unfold Typed.as_array.
  rewrite (as_list_map _ _ chain) by (intros; apply to_Checkpoint_json).
  rewrite (as_list_map _ _ vs) by (intros; apply to_VerificationEntry_json).
  destruct bh as [h|], bn as [n|];
    cbn [opt_prop app obj_get String.eqb Ascii.eqb Bool.eqb Typed.as_str];
    rewrite ?optional_num; reflexivity.
Qed.

(** *** The medicine map *)

Lemma set_fresh {V : Type} (k : jsval) (v : V) (m : list (jsval * V)) :
  JsMap.has k m = false -> JsMap.set k v m = m ++ [(k, v)].
Proof.
  induction m as [|[k' v'] m IH]; [reflexivity|].
  cbn [JsMap.has JsMap.set app]. destruct (jsval_eqb k k'); [discriminate|].
  intros Hfresh. rewrite (IH Hfresh). reflexivity.
Qed.

Lemma has_app {V : Type} (k : jsval) (m m' : list (jsval * V)) :
  JsMap.has k (m ++ m') = JsMap.has k m || JsMap.has k m'.
Proof.
  induction m as [|[k' v'] m IH]; [reflexivity|].
  cbn [JsMap.has app]. rewrite IH, orb_assoc. reflexivity.
Qed.

Lemma has_false_each {V : Type} (k : jsval) (m : list (jsval * V)) :
  JsMap.has k m = false -> forall k' v, In (k', v) m -> jsval_eqb k' k = false.
Proof.
  induction m as [|[k0 v0] m IH]; [contradiction|].
  cbn [JsMap.has]. intros Hk k' v [[= <- <-]|Hin].
  - apply orb_false_elim in Hk as [Hk _].
    apply jsval_eqb_neq. apply jsval_eqb_neq in Hk. congruence.
  - apply orb_false_elim in Hk as [_ Hk]. eapply IH; eassumption.
Qed.

Lemma fold_set {V : Type} (l acc : list (jsval * V)) :
  distinct_keys l = true ->
  (forall k v, In (k, v) l -> JsMap.has k acc = false) ->
  List.fold_left (fun m kv => JsMap.set (fst kv) (snd kv) m) l acc = acc ++ l.
Proof.
  revert acc. induction l as [|[k v] l IH]; intros acc Hd Hfresh.
  - cbn. rewrite app_nil_r. reflexivity.
  - cbn [distinct_keys] in Hd. apply andb_prop in Hd as [Hk Hd].
    apply negb_true_iff in Hk. cbn [List.fold_left fst snd].
    rewrite set_fresh by (apply (Hfresh k v); left; reflexivity).
    rewrite IH; [rewrite <- app_assoc; reflexivity | exact Hd |].
    intros k' v' Hin. rewrite has_app. cbn [JsMap.has].
    rewrite (Hfresh k' v') by (right; exact Hin).
    rewrite (has_false_each k l Hk k' v' Hin). reflexivity.
Qed.

Lemma of_entries_distinct {V : Type} (l : list (jsval * V)) :
  distinct_keys l = true -> JsMap.of_entries l = l.
Proof.
  intros Hd. unfold JsMap.of_entries.
  rewrite fold_set; [reflexivity | exact Hd | reflexivity].
Qed.

End TypedFacts.

Section Reload.
Context (H : Host).

Lemma as_list_entries (m : list (jsval * Medicine)) :
  Typed.as_list Typed.entry_of
    (List.map (fun kv => JArr [fst kv; Medicine_json (snd kv)]) m)
  = Some (List.map (fun kv => (fst kv, Medicine_json (snd kv))) m).
Proof.
  induction m as [|[k v] m IH]; [reflexivity|].
  cbn [List.map Typed.as_list Typed.entry_of List.nth fst snd]. rewrite IH. reflexivity.
Qed.

Lemma to_entries_json (m : list (jsval * Medicine)) :
  List.forallb (fun kv => own_fields (snd kv)) m = true ->
  Typed.to_entries (List.map (fun kv => (fst kv, Medicine_json (snd kv))) m) = Some m.
Proof.
  induction m as [|[k v] m IH]; intros Hown; [reflexivity|].
  cbn [List.forallb snd] in Hown. apply andb_prop in Hown as [Hv Hown].
  cbn [List.map Typed.to_entries]. unfold Typed.to_entry at 1. cbn [fst snd].
  rewrite (to_Medicine_json v Hv), (IH Hown). reflexivity.
Qed.

(** Reading the document [save] wrote puts the five lists back. *)
Lemma load_Engine_json (e e0 : Engine) (stored : option string) (c r : nat) :
  distinct_keys (medicines e) = true ->
  List.forallb (fun kv => own_fields (snd kv)) (medicines e) = true ->
  load (Engine_json e) (mkSt e0 stored c r) =
  Ok tt (mkSt (mkEngine (chain e) (pendingTransactions e0) (medicines e)
                 (transactions e) (alerts e) (scanHistory e) (difficulty e0))
           stored c r).
Proof.
  intros Hd Hown. unfold load, Engine_json.
  cbn [member obj_get String.eqb Ascii.eqb Bool.eqb].
  cbv [bind ret]. cbn [js_or truthy Typed.as_array].
  rewrite (as_list_map _ _ (chain e)) by (intros; apply to_Block_json).
  cbn [typed]. cbv [ret update]. cbn [js_or truthy new_Map].
  rewrite as_list_entries. cbv [bind].
  rewrite (to_entries_json _ Hown). cbn [typed]. cbv [ret].
  rewrite (of_entries_distinct _ Hd).
  cbn [js_or truthy Typed.as_array].
  rewrite (as_list_map _ _ (transactions e)) by (intros; apply to_Transaction_json).
  cbn [typed]. cbv [ret]. cbn [js_or truthy Typed.as_array].
  rewrite (as_list_map _ _ (alerts e)) by (intros; apply to_Alert_json).
  cbn [typed]. cbv [ret]. cbn [js_or truthy Typed.as_array].
  assert (Hsome : forall l : list jsval, Typed.as_list Some l = Some l).
  { induction l as [|x l IH]; [reflexivity|]. cbn [Typed.as_list]. rewrite IH.
    reflexivity. }
  rewrite Hsome. cbn [typed]. cbv [ret].
  reflexivity.
Qed.

End Reload.

Section RoundTrip.
Context (H : Host).

Lemma storable_parts (e : Engine) :
  storable e = true ->
  json_value (Engine_json e) = true /\ distinct_keys (medicines e) = true /\
  List.forallb (fun kv => own_fields (snd kv)) (medicines e) = true /\
  chain e <> [] /\ pendingTransactions e = [] /\ difficulty e = 2%nat.
Proof.
  unfold storable. intros Hs.
  repeat (apply andb_prop in Hs as [Hs ?]).
  repeat split; try assumption.
  - intros Hc. rewrite Hc in *. discriminate.
  - destruct (pendingTransactions e); [reflexivity | discriminate].
  - apply Nat.eqb_eq. assumption.
Qed.

(** A new engine object that finds the document [save] wrote ends up with
    the engine that was saved. *)
Lemma initialize_saved (e : Engine) :
  storable e = true ->
  initialize H (boot (Some (JSON.stringify_str (Engine_json e)))) =
  Ok tt (mkSt e (Some (JSON.stringify_str (Engine_json e))) 0 0).
Proof.
  intros Hs. destruct (storable_parts e Hs) as (Hjson & Hd & Hown & Hne & Hp & Hdiff).
  unfold initialize, boot.
  unfold bind at 1. cbn [storage].
  unfold bind at 1. unfold try_catch.
  rewrite (read_stringify _ Hjson).
  rewrite (load_Engine_json e new_Engine _ 0 0 Hd Hown).
  cbv [bind this]. cbn [engine chain].
  destruct (chain e) as [|g rest] eqn:Hc; [congruence|].
  cbn [List.length Nat.eqb]. cbv [ret emit].
  f_equal. f_equal. destruct e as [ch pend med txs al sh diff].
  cbn in Hc, Hp, Hdiff |- *. subst. reflexivity.
Qed.

End RoundTrip.

(* ===================================================================== *)
(** ** Every reachable state can be saved without loss *)
(* ===================================================================== *)

Section JsonShapes.

Lemma forallb_map {A B : Type} (p : B -> bool) (f : A -> B) (l : list A) :
  List.forallb p (List.map f l) = List.forallb (fun a => p (f a)) l.
Proof. induction l as [|a l IH]; [reflexivity|]. cbn. rewrite IH. reflexivity. Qed.

Lemma forallb_ext_in {A : Type} (p q : A -> bool) (l : list A) :
  (forall a, In a l -> p a = true -> q a = true) ->
  List.forallb p l = true -> List.forallb q l = true.
Proof.
  induction l as [|a l IH]; intros Hpq Hp; [reflexivity|].
  cbn [List.forallb] in *. apply andb_prop in Hp as [Ha Hl].
  rewrite (Hpq a (or_introl eq_refl) Ha). cbn [andb].
  apply IH; [|exact Hl]. intros b Hb. apply Hpq. right. exact Hb.
Qed.

Lemma unique_app (a b : list string) :
  unique a = true -> unique b = true ->
  (forall k, In k a -> List.existsb (String.eqb k) b = false) ->
  unique (a ++ b) = true.
Proof.
  induction a as [|k a IH]; intros Ha Hb Hdis; [exact Hb|].
  cbn [unique app] in *. apply andb_prop in Ha as [Hk Ha].
  rewrite IH; [|exact Ha|exact Hb|intros k' Hk'; apply Hdis; right; exact Hk'].
  rewrite andb_true_r. apply negb_true_iff. apply negb_true_iff in Hk.
  rewrite existsb_app, Hk, (Hdis k (or_introl eq_refl)). reflexivity.
Qed.

Lemma json_value_Block_json (b : Block) :
  block_ok b = true -> json_value (Block_json b) = true.
Proof.
  unfold block_ok, Block_json. intros Hd. rewrite json_value_obj.
  cbn. rewrite Hd. reflexivity.
Qed.

Lemma json_value_Transaction_json (t : Transaction) :
  tx_ok t = true -> json_value (Transaction_json t) = true.
Proof.
  unfold tx_ok, Transaction_json. intros Ht.
  apply andb_prop in Ht as [Ht Hto]. apply andb_prop in Ht as [Hd Hf].
  rewrite json_value_obj. cbn. rewrite Hd, Hf, Hto.
  destruct (tx_blockNumber t); reflexivity.
Qed.

Lemma json_value_Alert_json (a : Alert) :
  alert_ok a = true -> json_value (Alert_json a) = true.
Proof.
  unfold alert_ok, Alert_json. intros Ha. apply andb_prop in Ha as [Hb Hr].
  rewrite json_value_obj. cbn. rewrite Hb, Hr. reflexivity.
Qed.

Lemma json_value_Checkpoint_json (c : Checkpoint) :
  checkpoint_ok c = true -> json_value (Checkpoint_json c) = true.
Proof.
  unfold checkpoint_ok, Checkpoint_json. intros Hc.
  apply andb_prop in Hc as [Hc Hl]. apply andb_prop in Hc as [Hs Ha].
  rewrite json_value_obj. cbn. rewrite Hs, Ha, Hl. reflexivity.
Qed.

Lemma own_fields_disjoint (m : Medicine) (tail : list string) :
  own_fields m = true ->
  List.forallb is_engine_key tail = true ->
  forall k, In k (List.map fst (m_fields m)) -> List.existsb (String.eqb k) tail = false.
Proof.
  unfold own_fields. intros Hown Htail k Hk.
  apply in_map_iff in Hk as ([k' v] & <- & Hin). cbn [fst].
  rewrite forallb_forall in Hown. specialize (Hown (k', v) Hin). cbn [fst] in Hown.
  apply negb_true_iff in Hown.
  induction tail as [|x tail IH]; [reflexivity|].
  cbn [List.forallb] in Htail. apply andb_prop in Htail as [Hx Htail].
  cbn [List.existsb]. rewrite (IH Htail), orb_false_r.
  destruct (String.eqb k' x) eqn:Heq; [|reflexivity].
  apply String.eqb_eq in Heq. subst x. congruence.
Qed.

Lemma json_value_Medicine_json (m : Medicine) :
  record_ok m = true -> json_value (Medicine_json m) = true.
Proof.
  unfold record_ok. intros Hm.
  apply andb_prop in Hm as [Hm _]. apply andb_prop in Hm as [Hm Hcps].
  apply andb_prop in Hm as [Hm Hvals]. apply andb_prop in Hm as [Hown Huniq].
  unfold Medicine_json. rewrite json_value_obj. apply andb_true_intro. split.
  - rewrite !map_app. apply unique_app; [exact Huniq| |].
    + destruct (m_blockHash m), (m_blockNumber m); reflexivity.
    + apply own_fields_disjoint; [exact Hown|].
      destruct (m_blockHash m), (m_blockNumber m); reflexivity.
  - rewrite !forallb_app. rewrite Hvals. cbn [andb List.forallb snd].
    rewrite !json_value_arr, !forallb_map.
    rewrite (forallb_ext_in checkpoint_ok _ _
               (fun c _ => json_value_Checkpoint_json c) Hcps).
    assert (Hvs : List.forallb (fun a => json_value (VerificationEntry_json a))
                    (m_verifications m) = true).
    { apply forallb_forall. intros v _. reflexivity. }
    rewrite Hvs. destruct (m_blockHash m), (m_blockNumber m); reflexivity.
Qed.

Lemma tidy_storable (e : Engine) : tidy e = true -> storable e = true.
Proof.
  unfold tidy, storable. intros Ht.
  repeat (apply andb_prop in Ht as [Ht ?]).
  assert (Hjson : json_value (Engine_json e) = true).
  { unfold Engine_json. rewrite json_value_obj.
    cbn [List.map fst unique List.existsb String.eqb Ascii.eqb Bool.eqb negb orb andb
         List.forallb snd].
    rewrite !json_value_arr, !forallb_map.
    rewrite (forallb_ext_in block_ok _ _ (fun b _ => json_value_Block_json b) Ht).
    rewrite (forallb_ext_in tx_ok _ (transactions e)
               (fun t _ => json_value_Transaction_json t)) by assumption.
    rewrite (forallb_ext_in alert_ok _ (alerts e)
               (fun a _ => json_value_Alert_json a)) by assumption.
    rewrite (forallb_ext_in entry_ok
               (fun a => json_value (JArr [fst a; Medicine_json (snd a)])) (medicines e)).
    - cbn [andb]. rewrite ?andb_true_r. assumption.
    - intros [k m] _ Hkm. unfold entry_ok in Hkm. cbn [fst snd] in *.
      apply andb_prop in Hkm as [Hk Hm]. rewrite json_value_arr.
      cbn [List.forallb]. rewrite Hk, (json_value_Medicine_json m Hm). reflexivity.
    - assumption. }
  assert (Hown : List.forallb (fun kv => own_fields (snd kv)) (medicines e) = true).
  { apply (forallb_ext_in entry_ok); [|assumption].
    intros [k m] _ Hkm. unfold entry_ok, record_ok in Hkm. cbn [snd] in *.
    apply andb_prop in Hkm as [_ Hkm].
    repeat (apply andb_prop in Hkm as [Hkm ?]). assumption. }
  rewrite Hjson, Hown.
  repeat match goal with Hb : _ = true |- _ => rewrite Hb; clear Hb end.
  reflexivity.
Qed.

End JsonShapes.
(* ===================================================================== *)
(** ** The operations keep the engine tidy *)
(* ===================================================================== *)

Section TidyParts.

Lemma tidy_parts (e : Engine) :
  Tidy e <->
  List.forallb block_ok (chain e) = true /\
  List.forallb entry_ok (medicines e) = true /\
  distinct_keys (medicines e) = true /\
  List.forallb tx_ok (transactions e) = true /\
  List.forallb alert_ok (alerts e) = true /\
  List.forallb json_value (scanHistory e) = true /\
  chain e <> [] /\ pendingTransactions e = [] /\ difficulty e = 2%nat.
Proof.
  unfold Tidy, tidy. rewrite !andb_true_iff, negb_true_iff, !Nat.eqb_eq, Nat.eqb_neq.
  rewrite !length_zero_iff_nil. tauto.
Qed.

Lemma tidy_push_block (e : Engine) (b : Block) :
  Tidy e -> block_ok b = true -> Tidy (with_chain (chain e ++ [b]) e).
Proof.
  rewrite !tidy_parts. cbn [with_chain chain medicines transactions alerts scanHistory
                             pendingTransactions difficulty].
  intros (Hc & Hm & Hk & Ht & Ha & Hs & Hne & Hp & Hd) Hb.
  repeat split; try assumption.
  - rewrite forallb_app, Hc. cbn [List.forallb]. rewrite Hb. reflexivity.
  - destruct (chain e); discriminate.
Qed.

Lemma tidy_push_transaction (e : Engine) (t : Transaction) :
  Tidy e -> tx_ok t = true -> Tidy (with_transactions (transactions e ++ [t]) e).
Proof.
  rewrite !tidy_parts. cbn [with_transactions chain medicines transactions alerts
                             scanHistory pendingTransactions difficulty].
  intros (Hc & Hm & Hk & Ht & Ha & Hs & Hne & Hp & Hd) Hb.
  repeat split; try assumption.
  rewrite forallb_app, Ht. cbn [List.forallb]. rewrite Hb. reflexivity.
Qed.

Lemma tidy_push_alert (e : Engine) (a : Alert) :
  Tidy e -> alert_ok a = true -> Tidy (with_alerts (alerts e ++ [a]) e).
Proof.
  rewrite !tidy_parts. cbn [with_alerts chain medicines transactions alerts
                             scanHistory pendingTransactions difficulty].
  intros (Hc & Hm & Hk & Ht & Ha & Hs & Hne & Hp & Hd) Hb.
  repeat split; try assumption.
  rewrite forallb_app, Ha. cbn [List.forallb]. rewrite Hb. reflexivity.
Qed.

Lemma tidy_push_scan (e : Engine) (v : jsval) :
  Tidy e -> json_value v = true -> Tidy (with_scanHistory (scanHistory e ++ [v]) e).
Proof.
  rewrite !tidy_parts. cbn [with_scanHistory chain medicines transactions alerts
                             scanHistory pendingTransactions difficulty].
  intros (Hc & Hm & Hk & Ht & Ha & Hs & Hne & Hp & Hd) Hb.
  repeat split; try assumption.
  rewrite forallb_app, Hs. cbn [List.forallb]. rewrite Hb. reflexivity.
Qed.

(** *** The medicine map *)

Lemma jsval_eqb_sym (x y : jsval) : jsval_eqb x y = jsval_eqb y x.
Proof.
  destruct (jsval_eqb y x) eqn:Hyx.
  - apply jsval_eqb_eq in Hyx. subst. apply jsval_eqb_refl.
  - apply jsval_eqb_neq in Hyx. apply jsval_eqb_neq. congruence.
Qed.

Lemma has_set {V : Type} (x k : jsval) (v : V) (m : list (jsval * V)) :
  JsMap.has x (JsMap.set k v m) = JsMap.has x m || jsval_eqb x k.
Proof.
  induction m as [|[k' v'] m IH]; cbn [JsMap.set JsMap.has].
  - rewrite orb_false_r. reflexivity.
  - destruct (jsval_eqb k k') eqn:Heq; cbn [JsMap.has].
    + apply jsval_eqb_eq in Heq. subst k'.
      destruct (jsval_eqb x k), (JsMap.has x m); reflexivity.
    + rewrite IH, orb_assoc. reflexivity.
Qed.

Lemma distinct_keys_set {V : Type} (k : jsval) (v : V) (m : list (jsval * V)) :
  distinct_keys m = true -> distinct_keys (JsMap.set k v m) = true.
Proof.
  induction m as [|[k' v'] m IH]; [reflexivity|].
  cbn [distinct_keys JsMap.set]. intros Hm. apply andb_prop in Hm as [Hk' Hm].
  destruct (jsval_eqb k k') eqn:Heq; cbn [distinct_keys].
  - rewrite Hk', Hm. reflexivity.
  - rewrite has_set, (IH Hm), (jsval_eqb_sym k' k), Heq, orb_false_r, Hk'. reflexivity.
Qed.

Lemma entries_set (k : jsval) (v : Medicine) (m : list (jsval * Medicine)) :
  List.forallb entry_ok m = true -> json_value k = true -> record_ok v = true ->
  List.forallb entry_ok (JsMap.set k v m) = true.
Proof.
  intros Hm Hk Hv. induction m as [|[k' v'] m IH]; cbn [JsMap.set List.forallb].
  - unfold entry_ok. cbn [fst snd]. rewrite Hk, Hv. reflexivity.
  - cbn [List.forallb] in Hm. apply andb_prop in Hm as [Hkv Hm].
    destruct (jsval_eqb k k'); cbn [List.forallb].
    + rewrite Hm, andb_true_r. unfold entry_ok in *. cbn [fst snd] in *.
      apply andb_prop in Hkv as [Hk' _]. rewrite Hk', Hv. reflexivity.
    + rewrite Hkv, (IH Hm). reflexivity.
Qed.

Lemma get_record_ok (k : jsval) (v : Medicine) (m : list (jsval * Medicine)) :
  List.forallb entry_ok m = true -> JsMap.get k m = Some v -> record_ok v = true.
Proof.
  induction m as [|[k' v'] m IH]; [discriminate|].
  cbn [List.forallb JsMap.get]. intros Hm Hget. apply andb_prop in Hm as [Hkv Hm].
  destruct (jsval_eqb k k'); [|exact (IH Hm Hget)].
  injection Hget as <-. unfold entry_ok in Hkv. cbn [snd] in Hkv.
  apply andb_prop in Hkv as [_ Hv]. exact Hv.
Qed.

Lemma tidy_set_medicine (e : Engine) (k : jsval) (v : Medicine) :
  Tidy e -> json_value k = true -> record_ok v = true ->
  Tidy (with_medicines (JsMap.set k v (medicines e)) e).
Proof.
  rewrite !tidy_parts. cbn [with_medicines chain medicines transactions alerts
                             scanHistory pendingTransactions difficulty].
  intros (Hc & Hm & Hk & Ht & Ha & Hs & Hne & Hp & Hd) Hjk Hv.
  repeat split; try assumption.
  - apply entries_set; assumption.
  - apply distinct_keys_set; assumption.
Qed.

Lemma tidy_get (e : Engine) (k : jsval) (v : Medicine) :
  Tidy e -> JsMap.get k (medicines e) = Some v -> record_ok v = true.
Proof.
  rewrite tidy_parts. intros (_ & Hm & _) Hget. exact (get_record_ok k v _ Hm Hget).
Qed.

(** *** Properties of JSON objects *)

Lemma primitive_json_value (v : jsval) : primitive v = true -> json_value v = true.
Proof. destruct v; intros Hv; try discriminate; reflexivity. Qed.

Lemma json_value_get (k : string) (o : props) :
  List.forallb (fun kv => json_value (snd kv)) o = true ->
  obj_has k o = true -> json_value (obj_get k o) = true.
Proof.
  induction o as [|[k' v] o IH]; [discriminate|].
  cbn [List.forallb obj_has obj_get snd]. intros Ho Hk. apply andb_prop in Ho as [Hv Ho].
  destruct (String.eqb k k'); [exact Hv | exact (IH Ho Hk)].
Qed.

Lemma json_value_get_or (k : string) (o : props) (alt : jsval) :
  List.forallb (fun kv => json_value (snd kv)) o = true ->
  json_value alt = true -> json_value (js_or (obj_get k o) alt) = true.
Proof.
  intros Ho Halt. unfold js_or. destruct (truthy (obj_get k o)) eqn:Ht; [|exact Halt].
  induction o as [|[k' v] o IH]; [discriminate|].
  cbn [List.forallb obj_get snd] in *. apply andb_prop in Ho as [Hv Ho].
  destruct (String.eqb k k'); [exact Hv | exact (IH Ho Ht)].
Qed.

Lemma obj_has_filter (k : string) (keep : string -> bool) (o : props) :
  keep k = true ->
  obj_has k (List.filter (fun kv => keep (fst kv)) o) = obj_has k o.
Proof.
  intros Hk. induction o as [|[k' v] o IH]; [reflexivity|].
  cbn [List.filter fst obj_has].
  destruct (String.eqb k k') eqn:Heq.
  - apply String.eqb_eq in Heq. subst k'. rewrite Hk. cbn [obj_has].
    rewrite String.eqb_refl. reflexivity.
  - destruct (keep k'); [cbn [obj_has]; rewrite Heq|]; exact IH.
Qed.

Lemma existsb_filter_false (k : string) (keep : string * jsval -> bool) (o : props) :
  List.existsb (String.eqb k) (List.map fst o) = false ->
  List.existsb (String.eqb k) (List.map fst (List.filter keep o)) = false.
Proof.
  induction o as [|kv o IH]; [reflexivity|].
  cbn [List.map List.existsb List.filter]. intros Ho.
  apply orb_false_elim in Ho as [Hk Ho].
  destruct (keep kv); [cbn [List.map List.existsb]; rewrite Hk|]; exact (IH Ho).
Qed.

Lemma unique_filter (keep : string * jsval -> bool) (o : props) :
  unique (List.map fst o) = true -> unique (List.map fst (List.filter keep o)) = true.
Proof.
  induction o as [|kv o IH]; [reflexivity|].
  cbn [List.map unique List.filter]. intros Ho. apply andb_prop in Ho as [Hk Ho].
  destruct (keep kv); [|exact (IH Ho)].
  cbn [List.map unique]. rewrite (IH Ho), andb_true_r.
  apply negb_true_iff. apply existsb_filter_false. apply negb_true_iff. exact Hk.
Qed.

Lemma forallb_filter {A : Type} (p keep : A -> bool) (l : list A) :
  List.forallb p l = true -> List.forallb p (List.filter keep l) = true.
Proof.
  induction l as [|a l IH]; [reflexivity|].
  cbn [List.forallb List.filter]. intros Hl. apply andb_prop in Hl as [Ha Hl].
  destruct (keep a); [cbn [List.forallb]; rewrite Ha|]; exact (IH Hl).
Qed.

Lemma forallb_filter_self {A : Type} (keep : A -> bool) (l : list A) :
  List.forallb keep (List.filter keep l) = true.
Proof.
  induction l as [|a l IH]; [reflexivity|].
  cbn [List.filter]. destruct (keep a) eqn:Ha; [cbn [List.forallb]; rewrite Ha|]; exact IH.
Qed.

Lemma json_value_props (o : props) :
  json_value (JObj o) = true ->
  unique (List.map fst o) = true /\
  List.forallb (fun kv => json_value (snd kv)) o = true.
Proof. rewrite json_value_obj. apply andb_prop. Qed.

End TidyParts.

Section Ensures.
Context (H : Host) (fuel : nat).

Local Open Scope engine_scope.

Lemma ensures_ret {A} (I : Engine -> Prop) (a : A) (Q : A -> Prop) :
  Q a -> ensures I (ret a) Q.
Proof. intros Ha s Hs. split; assumption. Qed.

Lemma ensures_throw {A} (I : Engine -> Prop) (e : JsError) (Q : A -> Prop) :
  ensures I (throw e) Q.
Proof. intros s Hs. exact Hs. Qed.

Lemma ensures_bind {A B} (I : Engine -> Prop) (c : M A) (k : A -> M B)
    (Q : A -> Prop) (R : B -> Prop) :
  ensures I c Q -> (forall a, Q a -> ensures I (k a) R) -> ensures I (bind c k) R.
Proof.
  intros Hc Hk s Hs. unfold bind. specialize (Hc s Hs).
  destruct (c s) as [a s'| e s'| |]; trivial.
  destruct Hc as [Hs' Ha]. exact (Hk a Ha s' Hs').
Qed.

Lemma ensures_this (I : Engine -> Prop) : ensures I this I.
Proof. intros s Hs. split; exact Hs. Qed.

Lemma ensures_Date_now (I : Engine -> Prop) : ensures I (Date_now H) (fun _ => True).
Proof. intros s Hs. split; [exact Hs | exact Logic.I]. Qed.

Lemma ensures_now_iso (I : Engine -> Prop) : ensures I (now_iso H) (fun _ => True).
Proof. intros s Hs. split; [exact Hs | exact Logic.I]. Qed.

Lemma ensures_save (I : Engine -> Prop) : ensures I save (fun _ => True).
Proof. intros s Hs. split; [exact Hs | exact Logic.I]. Qed.

Lemma ensures_emit (I : Engine -> Prop) (ev : string) : ensures I (emit ev) (fun _ => True).
Proof. intros s Hs. split; [exact Hs | exact Logic.I]. Qed.

Lemma ensures_update (I : Engine -> Prop) (f : Engine -> Engine) :
  (forall e, I e -> I (f e)) -> ensures I (update f) (fun _ => True).
Proof. intros Hf s Hs. split; [apply Hf; exact Hs | exact Logic.I]. Qed.

(** The transaction [new Transaction(type, data, from, to)] carries what
    it was given. *)
Lemma ensures_new_Transaction (I : Engine -> Prop) ty d f t :
  ensures I (new_Transaction H ty d f t)
    (fun tx => tx_data tx = d /\ tx_from tx = f /\ tx_to tx = t).
Proof. intros s Hs. split; [exact Hs | repeat split]. Qed.

Lemma tx_ok_confirm (b : Block) (tx : Transaction) (d f t : jsval) :
  tx_data tx = d /\ tx_from tx = f /\ tx_to tx = t ->
  json_value d = true -> json_value f = true -> json_value t = true ->
  tx_ok (confirm b (generateHash tx)) = true.
Proof.
  intros (Ed & Ef & Et) Hd Hf Ht. unfold tx_ok, confirm, generateHash.
  cbn [tx_data tx_from tx_to]. rewrite Ed, Ef, Et, Hd, Hf, Ht. reflexivity.
Qed.

Lemma mineBlock_data (d : nat) :
  forall (n : nat) (b b' : Block), mineBlock n d b = Some b' -> b_data b' = b_data b.
Proof.
  induction n as [|n IH]; intros b b'; cbn [mineBlock];
    destruct (meets d (b_hash b)); try congruence.
  intros Hm. apply IH in Hm. exact Hm.
Qed.

Lemma ensures_addBlock (data : jsval) :
  json_value data = true -> ensures Tidy (addBlock H fuel data) (fun _ => True).
Proof.
  intros Hd s Hs.
  cbv [addBlock bind this now_iso Date_now mine update save emit ret throw].
  cbn [engine].
  destruct (getLatestBlock (engine s)) as [latest|]; [|exact Hs].
  match goal with
  | |- context [mineBlock fuel ?d ?b] =>
      destruct (mineBlock fuel d b) as [nb|] eqn:Hm; [|exact Logic.I]
  end.
  apply mineBlock_data in Hm. cbn [b_data new_Block] in Hm.
  split; [|exact Logic.I]. cbn [engine].
  apply tidy_push_block; [exact Hs|]. unfold block_ok. rewrite Hm. exact Hd.
Qed.

End Ensures.

(** Closes a goal that some object built from JSON values is a JSON
    value. *)
Ltac json_value_step :=
  cbn [json_value unique List.map fst snd List.existsb List.forallb String.eqb Ascii.eqb
       Bool.eqb negb orb andb];
  repeat match goal with
         | Hv : json_value ?v = true |- context [json_value ?v] => rewrite Hv
         end;
  cbn [andb]; try reflexivity.

(** Walks the code of an operation, keeping what each step returns. *)
Ltac ensures_step :=
  cbv beta in *;
  match goal with
  | |- ensures _ (bind this _) _ =>
      eapply ensures_bind; [apply ensures_this | intros ? ?]
  | |- ensures _ (bind (new_Transaction _ _ _ _ _) _) _ =>
      eapply ensures_bind; [apply ensures_new_Transaction | intros ? ?]
  | |- ensures _ (bind (addBlock _ _ _) _) _ =>
      eapply ensures_bind; [apply ensures_addBlock; json_value_step | intros ? _]
  | |- ensures _ (bind (update _) _) _ =>
      eapply ensures_bind; [apply ensures_update; intros ? ? | intros ? _]
  | |- ensures _ (bind (push_transaction _) _) _ =>
      eapply ensures_bind; [apply ensures_update; intros ? ? | intros ? _]
  | |- ensures _ (bind (Date_now _) _) _ =>
      eapply ensures_bind; [apply ensures_Date_now | intros ? _]
  | |- ensures _ (bind (now_iso _) _) _ =>
      eapply ensures_bind; [apply ensures_now_iso | intros ? _]
  | |- ensures _ (bind save _) _ =>
      eapply ensures_bind; [apply ensures_save | intros ? _]
  | |- ensures _ (bind (emit _) _) _ =>
      eapply ensures_bind; [apply ensures_emit | intros ? _]
  | |- ensures _ (ret _) _ => apply ensures_ret; exact Logic.I
  | |- ensures _ (throw _) _ => apply ensures_throw
  end.

(** The engine stays tidy when a record made of JSON values is appended. *)
Ltac tidy_step :=
  match goal with
  | |- Tidy (with_alerts _ _) =>
      apply tidy_push_alert;
      [assumption | unfold alert_ok; cbn [al_batchNumber al_reason]; json_value_step]
  | |- Tidy (with_transactions _ _) =>
      apply tidy_push_transaction;
      [assumption | eapply tx_ok_confirm; [eassumption | json_value_step ..]]
  | |- Tidy (with_scanHistory _ _) =>
      apply tidy_push_scan; [assumption | json_value_step]
  end.

Section TidyOperations.
Context (H : Host) (fuel : nat).

Local Open Scope engine_scope.

Lemma ensures_createAlert (b r : jsval) :
  json_value b = true -> json_value r = true ->
  ensures Tidy (createAlert H fuel b r) (fun _ => True).
Proof.
  intros Hb Hr. unfold createAlert.
  repeat ensures_step; cbv beta in *; tidy_step.
Qed.

Lemma record_ok_checkpoint (m : Medicine) (cp : Checkpoint) ra st sc vs bh bn :
  record_ok m = true -> checkpoint_ok cp = true ->
  record_ok (mkMedicine (m_fields m) ra st sc (m_supplyChain m ++ [cp]) vs bh bn) = true.
Proof.
  unfold record_ok, own_fields. cbn [m_fields m_supplyChain]. intros Hm Hcp.
  apply andb_prop in Hm as [Hm Hname]. apply andb_prop in Hm as [Hm Hcps].
  rewrite Hm, Hname, forallb_app, Hcps. cbn [List.forallb]. rewrite Hcp. reflexivity.
Qed.

Lemma record_ok_scanned (m : Medicine) ra st sc vs bh bn :
  record_ok m = true ->
  record_ok (mkMedicine (m_fields m) ra st sc (m_supplyChain m) vs bh bn) = true.
Proof. exact (fun Hm => Hm). Qed.

Lemma record_ok_name (m : Medicine) :
  record_ok m = true -> json_value (m_get "medicineName" m) = true.
Proof.
  unfold record_ok, m_get. intros Hm.
  apply andb_prop in Hm as [Hm Hname]. apply andb_prop in Hm as [Hm _].
  apply andb_prop in Hm as [_ Hvals]. apply json_value_get; assumption.
Qed.

Lemma ensures_transferMedicine (b st a l : jsval) :
  json_value b = true -> json_value st = true -> json_value a = true ->
  json_value l = true ->
  ensures Tidy (transferMedicine H fuel b st a l) (fun _ => True).
Proof.
  intros Hb Hst Ha Hl. unfold transferMedicine.
  ensures_step.
  destruct (JsMap.get b (medicines a0)) as [medicine|] eqn:Hget; [|ensures_step].
  pose proof (tidy_get _ _ _ H0 Hget) as Hm.
  repeat ensures_step; cbv beta in *; try tidy_step.
  apply tidy_set_medicine; [assumption | exact Hb |].
  apply record_ok_checkpoint; [exact Hm|].
  unfold checkpoint_ok. cbn [cp_stage cp_actor cp_location]. json_value_step.
Qed.

Lemma ensures_verifyMedicine (b : jsval) :
  json_value b = true -> ensures Tidy (verifyMedicine H fuel b) (fun _ => True).
Proof.
  intros Hb. unfold verifyMedicine.
  ensures_step.
  destruct (JsMap.get b (medicines a)) as [medicine|] eqn:Hget.
  - pose proof (tidy_get _ _ _ H0 Hget) as Hm.
    pose proof (record_ok_name _ Hm) as Hname.
    unfold m_get in Hname.
    repeat ensures_step; cbv beta in *; try tidy_step;
      try (unfold m_get; cbn [m_fields]; rewrite Hname; reflexivity).
    + apply tidy_set_medicine; [assumption | exact Hb | exact Hm].
    + apply ensures_bind with (Q := fun _ : unit => True).
      * match goal with |- ensures _ (if ?c then _ else _) _ => destruct c end.
        -- ensures_step.
        -- apply ensures_bind with (Q := fun _ : Alert => True);
             [apply ensures_createAlert; [exact Hb | reflexivity] | intros _ _].
           ensures_step.
      * intros _ _. repeat ensures_step.
  - apply ensures_bind with (Q := fun _ : Alert => True);
      [apply ensures_createAlert; [exact Hb | reflexivity] | intros _ _].
    repeat ensures_step; cbv beta in *; try tidy_step.
Qed.

Lemma ensures_registerMedicine (d : props) :
  op_ok (RegisterMedicine d) = true ->
  ensures Tidy (registerMedicine H fuel d) (fun _ => True).
Proof.
  cbn [op_ok]. intros Hd.
  apply andb_prop in Hd as [Hd Hmanu]. apply andb_prop in Hd as [Hd Hname].
  apply andb_prop in Hd as [Hd Hbatch].
  apply json_value_props in Hd as [Huniq Hvals].
  pose proof (primitive_json_value _ Hbatch) as Hb.
  pose proof (json_value_get _ _ Hvals Hname) as Hn.
  pose proof (json_value_get _ _ Hvals Hmanu) as Hmf.
  unfold registerMedicine.
  ensures_step.
  destruct (JsMap.has (obj_get "batchNumber" d) (medicines a)); [ensures_step|].
  repeat ensures_step; cbv beta in *; try tidy_step.
  apply tidy_set_medicine; [assumption | exact Hb |].
  unfold record_ok, own_fields, checkpoint_ok.
  cbn [m_fields m_supplyChain List.forallb cp_stage cp_actor cp_location json_value].
  rewrite forallb_filter_self, (unique_filter _ _ Huniq), (forallb_filter _ _ _ Hvals).
  rewrite (json_value_get_or _ _ _ Hvals Hmf).
  rewrite (obj_has_filter "medicineName" (fun k => negb (is_engine_key k)) d eq_refl).
  rewrite Hname. reflexivity.
Qed.

(** Every call made with JSON values leaves a tidy engine tidy, whether it
    returns or throws. *)
Lemma call_tidy (op : Op) (s s' : St) :
  op_ok op = true -> Tidy (engine s) -> call H fuel op s = Some s' -> Tidy (engine s').
Proof.
  intros Hop Hs Hcall. destruct op as [d|b|b st a l|b r]; cbn [call op_ok] in *.
  - pose proof (ensures_registerMedicine d Hop s Hs) as Hk.
    destruct (registerMedicine H fuel d s); cbn [settled] in Hcall;
      try discriminate; injection Hcall as <-; [exact (proj1 Hk) | exact Hk].
  - pose proof (ensures_verifyMedicine b Hop s Hs) as Hk.
    destruct (verifyMedicine H fuel b s); cbn [settled] in Hcall;
      try discriminate; injection Hcall as <-; [exact (proj1 Hk) | exact Hk].
  - apply andb_prop in Hop as [Hop Hl]. apply andb_prop in Hop as [Hop Ha].
    apply andb_prop in Hop as [Hb Hst].
    pose proof (ensures_transferMedicine b st a l Hb Hst Ha Hl s Hs) as Hk.
    destruct (transferMedicine H fuel b st a l s); cbn [settled] in Hcall;
      try discriminate; injection Hcall as <-; [exact (proj1 Hk) | exact Hk].
  - apply andb_prop in Hop as [Hb Hr].
    pose proof (ensures_createAlert b r Hb Hr s Hs) as Hk.
    destruct (createAlert H fuel b r s); cbn [settled] in Hcall;
      try discriminate; injection Hcall as <-; [exact (proj1 Hk) | exact Hk].
Qed.

Lemma calls_tidy (ops : list Op) :
  forall s s', List.forallb op_ok ops = true -> Tidy (engine s) ->
               calls H fuel ops s = Some s' -> Tidy (engine s').
Proof.
  induction ops as [|op ops IH]; intros s s' Hops Hs Hrun; cbn [calls] in Hrun.
  - injection Hrun as <-. exact Hs.
  - cbn [List.forallb] in Hops. apply andb_prop in Hops as [Hop Hops].
    destruct (call H fuel op s) as [s1|] eqn:Hc; [|discriminate].
    apply (IH s1 s' Hops); [|exact Hrun]. exact (call_tidy op s s1 Hop Hs Hc).
Qed.

(** A page that loads with nothing stored starts tidy. *)
Lemma initialize_tidy (s0 : St) :
  initialize H (boot None) = Ok tt s0 -> Tidy (engine s0).
Proof.
  unfold initialize, boot, createGenesisBlock.
  cbv [bind this now_iso Date_now update save emit ret]. cbn [storage engine].
  cbn [List.length chain with_chain new_Engine app Nat.eqb].
  intros [= <-]. rewrite tidy_parts. cbn [engine].
  repeat split; discriminate.
Qed.

End TidyOperations.
(* ===================================================================== *)
(** ** Saving and loading *)
(* ===================================================================== *)

Section RoundTrip.
Context (H H' : Host) (fuel : nat).

(** Whatever a page that started with nothing stored has reached by calls
    made with JSON values, [save()] followed by [initialize()] on a new
    engine object restores the whole engine. *)
Lemma save_then_initialize (ops : list Op) (s0 s : St) :
  initialize H (boot None) = Ok tt s0 ->
  List.forallb op_ok ops = true ->
  calls H fuel ops s0 = Some s ->
  exists s1 s',
    save s = Ok tt s1 /\
    initialize H' (boot (storage s1)) = Ok tt s' /\
    engine s' = engine s.
Proof.
  intros Hinit Hops Hrun.
  pose proof (calls_tidy H fuel ops s0 s Hops (initialize_tidy H s0 Hinit) Hrun) as Ht.
  apply tidy_storable in Ht.
  eexists. eexists. split; [reflexivity|]. cbn [storage].
  rewrite (initialize_saved H' (engine s) Ht). split; reflexivity.
Qed.

End RoundTrip.




(** A stored text that holds a number with a fraction is read, not refused:
    [initialize()] does not take the branch that makes a new genesis
    block. What it loads is not decided here. *)
Example initialize_reads_fraction :
  JSONParse.read "[2.5, -1e+21, 0.125E-3]" = JSONParse.Unrepresented /\
  JSONParse.read "[2.]" = JSONParse.SyntaxError /\
  initialize Sample.main_host (boot (Some "[2.5]")) = Untyped.
Proof. repeat split. Qed.
